(** * scripts/deploy.mjs: deployment of the built plugin into an Obsidian vault

    A shallow embedding of [scripts/deploy.mjs] over an in-memory POSIX file
    system.  The script is a sequence of synchronous [fs] and [path] calls, so
    the embedding has three layers:

    - [PathLib]: the parts of [node:path] the script uses ([join], [resolve],
      [dirname]) on absolute paths kept as their list of segments;
    - [Fs]: a file tree with regular files, directories and symbolic links,
      path lookup that follows links as the kernel does, and the [fs] calls
      of the script with their error codes;
    - [Deploy]: the functions of the script, written in a small monad whose
      state is the file tree and the log, and whose outcomes are normal
      return, [process.exit] and a thrown exception.

    What is left out: access rights and device errors (every call is made
    with all the rights it needs), other processes, and what Windows does
    differently (junctions, drive letters).  The statements follow: what
    the script computes from its arguments, what its guards do, then copy
    mode and link mode on file trees; after them the functions one by one
    (the command line, [ensureDistReady], the vault path and the plugin id,
    link mode and copy mode by what they find at the target) and whole
    runs. *)

From Stdlib Require Import List String Ascii Bool Arith Lia ZArith
  Permutation.
Import ListNotations.
Local Open Scope string_scope.
Local Open Scope list_scope.

(* ===================================================================== *)
(** ** Paths *)
(* ===================================================================== *)

Module PathLib.

(** An absolute, normalised POSIX path is the list of its segments:
    [/a/b] is [["a"; "b"]] and the root is [[]].  Raw strings (a plugin
    id, the text of a symbolic link, a command-line value) are cut at
    ['/'] by [segments].  A trailing slash, which [path.join] would keep,
    is not represented. *)
Definition Path := list string.

Definition slash : ascii := "/"%char.

(** [s.split(c)] of JavaScript: always at least one piece. *)
Fixpoint split_on (c : ascii) (s : string) : list string :=
  match s with
  | EmptyString => [EmptyString]
  | String a r =>
      if Ascii.eqb a c then EmptyString :: split_on c r
      else match split_on c r with
           | [] => [String a EmptyString]
           | x :: xs => String a x :: xs
           end
  end.

Definition segments (s : string) : list string := split_on slash s.

Definition isAbsolute (s : string) : bool :=
  match s with
  | String a _ => Ascii.eqb a slash
  | EmptyString => false
  end.

(** One step of [normalizeString]: empty and ["."] segments are dropped,
    [".."] removes the last segment kept so far (and stays at the root of an
    absolute path). *)
Definition step (p : Path) (s : string) : Path :=
  if (s =? "") || (s =? ".") then p
  else if s =? ".." then removelast p
  else p ++ [s].

Definition normalize_from (p : Path) (segs : list string) : Path :=
  fold_left step segs p.

(** [path.join(p, a1, ..., an)] for an absolute [p]: the pieces are glued
    with ['/'] and the whole is normalised. *)
Definition join (p : Path) (args : list string) : Path :=
  normalize_from [] (p ++ flat_map segments args).

(** [path.resolve(base, a1, ..., an)] for an absolute [base] (the working
    directory when the script passes one argument): an absolute argument
    restarts from the root. *)
Definition resolve_step (acc : Path) (a : string) : Path :=
  if isAbsolute a then normalize_from [] (segments a)
  else normalize_from acc (segments a).

Definition resolve (base : Path) (args : list string) : Path :=
  fold_left resolve_step args (normalize_from [] base).

(** [path.dirname]; the root is its own parent. *)
Definition dirname (p : Path) : Path := removelast p.

(** The string form of an absolute path, as handed to [fs.symlinkSync]. *)
Fixpoint render_segs (p : Path) : string :=
  match p with
  | [] => ""
  | s :: r => String slash (s ++ render_segs r)
  end.

Definition render (p : Path) : string :=
  match p with
  | [] => "/"
  | _ => render_segs p
  end.

Fixpoint has_char (c : ascii) (s : string) : bool :=
  match s with
  | EmptyString => false
  | String a r => Ascii.eqb a c || has_char c r
  end.

Definition has_slash (s : string) : bool := has_char slash s.

(** A name that can be an entry of a directory: not empty, not ["."] or
    [".."], without ['/']. *)
Definition valid_name (s : string) : bool :=
  negb (s =? "") && negb (s =? ".") && negb (s =? "..") && negb (has_slash s).

Definition normalized (p : Path) : bool := forallb valid_name p.

Definition path_eqb (p q : Path) : bool :=
  if list_eq_dec string_dec p q then true else false.

(** [is_prefix p q]: [q] is [p] or lies below it. *)
Fixpoint is_prefix (p q : Path) : bool :=
  match p, q with
  | [], _ => true
  | _ :: _, [] => false
  | a :: p', b :: q' => (a =? b) && is_prefix p' q'
  end.

End PathLib.

(* ===================================================================== *)
(** ** The file system *)
(* ===================================================================== *)

Module Fs.
Import PathLib.

(** A directory keeps its entries in the order in which they were made.
    The kernel knows no such order, and the script cannot see it: the one
    call that lists a directory, [readdirSync], gives the names sorted. *)
Inductive node : Type :=
| File (content : string)
| Dir (entries : list (string * node))
| Symlink (target : string).

Inductive errno : Type :=
| ENOENT | ENOTDIR | EEXIST | EISDIR | ELOOP | EINVAL | EBUSY.

Inductive result (A : Type) : Type :=
| Ok (a : A)
| Err (e : errno).
Arguments Ok {A} a.
Arguments Err {A} e.

Fixpoint lookup (s : string) (es : list (string * node)) : option node :=
  match es with
  | [] => None
  | (k, n) :: r => if k =? s then Some n else lookup s r
  end.

(** Replace the entry called [s], or add it after the others. *)
Fixpoint set_entry (s : string) (c : node) (es : list (string * node))
  : list (string * node) :=
  match es with
  | [] => [(s, c)]
  | (k, n) :: r => if k =? s then (k, c) :: r else (k, n) :: set_entry s c r
  end.

Fixpoint del_entry (s : string) (es : list (string * node))
  : list (string * node) :=
  match es with
  | [] => []
  | (k, n) :: r => if k =? s then del_entry s r else (k, n) :: del_entry s r
  end.

(** *** Physical access: no link is followed *)

Fixpoint get (n : node) (p : Path) : option node :=
  match p with
  | [] => Some n
  | s :: r =>
      match n with
      | Dir es => match lookup s es with
                  | Some c => get c r
                  | None => None
                  end
      | _ => None
      end
  end.

(** [put n p v] stores [v] at [p] when the parent of [p] is a directory of
    [n]; otherwise [n] is unchanged. *)
Fixpoint put (n : node) (p : Path) (v : node) : node :=
  match p with
  | [] => v
  | s :: r =>
      match n with
      | Dir es =>
          match r with
          | [] => Dir (set_entry s v es)
          | _ :: _ =>
              match lookup s es with
              | Some c => Dir (set_entry s (put c r v) es)
              | None => n
              end
          end
      | _ => n
      end
  end.

Fixpoint del (n : node) (p : Path) : node :=
  match p with
  | [] => n
  | s :: r =>
      match n with
      | Dir es =>
          match r with
          | [] => Dir (del_entry s es)
          | _ :: _ =>
              match lookup s es with
              | Some c => Dir (set_entry s (del c r) es)
              | None => n
              end
          end
      | _ => n
      end
  end.

(** *** Path lookup as the kernel does it *)

Inductive located : Type :=
| Found (phys : Path) (n : node)
| Vacant (phys : Path).

Inductive walk : Type :=
| Done (l : located)
| Fail (e : errno)
| Jump (dir : Path) (target : string) (rest : list string).

(** [descend fs follow cur rest] walks the segments [rest] from the
    directory whose physical path is [cur], until the end or the first
    symbolic link that has to be followed.  A final link is followed only
    when [follow] is set ([stat] against [lstat]). *)
Fixpoint descend (fs : node) (follow : bool) (cur : Path) (rest : list string)
  : walk :=
  match rest with
  | [] =>
      match get fs cur with
      | Some n => Done (Found cur n)
      | None => Fail ENOENT
      end
  | s :: rest' =>
      match get fs cur with
      | Some (Dir es) =>
          if (s =? "") || (s =? ".") then descend fs follow cur rest'
          else if s =? ".." then descend fs follow (removelast cur) rest'
          else
            match lookup s es with
            | None =>
                match rest' with
                | [] => Done (Vacant (cur ++ [s]))
                | _ :: _ => Fail ENOENT
                end
            | Some (Symlink t) =>
                match rest', follow with
                | [], false => Done (Found (cur ++ [s]) (Symlink t))
                | _, _ => Jump cur t rest'
                end
            | Some _ => descend fs follow (cur ++ [s]) rest'
            end
      | Some _ => Fail ENOTDIR
      | None => Fail ENOENT
      end
  end.

(** Following links, at most [hops] of them (the kernel stops at 40). *)
Fixpoint namei_from (hops : nat) (fs : node) (follow : bool)
  (cur : Path) (rest : list string) : result located :=
  match descend fs follow cur rest with
  | Done l => Ok l
  | Fail e => Err e
  | Jump dir t rest' =>
      match hops with
      | 0 => Err ELOOP
      | S h =>
          if t =? "" then Err ENOENT
          else namei_from h fs follow
                 (if isAbsolute t then [] else dir) (segments t ++ rest')
      end
  end.

Definition max_hops : nat := 40.

Definition namei (fs : node) (follow : bool) (p : Path) : result located :=
  namei_from max_hops fs follow [] p.

(** *** The calls of [fs] used by the script *)

Definition statSync (fs : node) (p : Path) : result node :=
  match namei fs true p with
  | Ok (Found _ n) => Ok n
  | Ok (Vacant _) => Err ENOENT
  | Err e => Err e
  end.

Definition lstatSync (fs : node) (p : Path) : result node :=
  match namei fs false p with
  | Ok (Found _ n) => Ok n
  | Ok (Vacant _) => Err ENOENT
  | Err e => Err e
  end.

(** [fs.existsSync] never throws: every failure of the underlying [stat],
    whatever its code, is reported as [false]. *)
Definition existsSync (fs : node) (p : Path) : bool :=
  match statSync fs p with
  | Ok _ => true
  | Err _ => false
  end.

Definition isDirectory (n : node) : bool :=
  match n with Dir _ => true | _ => false end.

Definition isSymbolicLink (n : node) : bool :=
  match n with Symlink _ => true | _ => false end.

Definition readlinkSync (fs : node) (p : Path) : result string :=
  match lstatSync fs p with
  | Ok (Symlink t) => Ok t
  | Ok _ => Err EINVAL
  | Err e => Err e
  end.

Definition readFileSync (fs : node) (p : Path) : result string :=
  match statSync fs p with
  | Ok (File c) => Ok c
  | Ok _ => Err EISDIR
  | Err e => Err e
  end.

(** The order in which a directory is listed: by name, byte by byte (the
    order of [strcmp], which [scandir] is given). *)
Fixpoint insert_entry (e : string * node) (l : list (string * node))
  : list (string * node) :=
  match l with
  | [] => [e]
  | x :: r =>
      if String.leb (fst e) (fst x) then e :: l else x :: insert_entry e r
  end.

Fixpoint sort_entries (l : list (string * node)) : list (string * node) :=
  match l with
  | [] => []
  | e :: r => insert_entry e (sort_entries r)
  end.

(** [fs.readdirSync(p, { withFileTypes: true })]: the entries in the order
    of their names, each with its own type, a link being reported as a
    link. *)
Definition readdirSync (fs : node) (p : Path) : result (list (string * node)) :=
  match statSync fs p with
  | Ok (Dir es) => Ok (sort_entries es)
  | Ok _ => Err ENOTDIR
  | Err e => Err e
  end.

(** [open(p, O_WRONLY | O_CREAT | O_TRUNC)] then write: a final link is
    followed, a missing file is created. *)
Definition writeFileSync (fs : node) (p : Path) (data : string) : result node :=
  match namei fs true p with
  | Ok (Found q (Dir _)) => Err EISDIR
  | Ok (Found q _) => Ok (put fs q (File data))
  | Ok (Vacant q) => Ok (put fs q (File data))
  | Err e => Err e
  end.

(** A call that can fail after it has changed the tree. *)
Inductive attempt : Type :=
| Completed (fs : node)
| Aborted (e : errno) (fs : node).

(** [unlink(p)]: the entry itself is removed, a final link is not
    followed; a directory is not removed. *)
Definition unlink (fs : node) (p : Path) : node :=
  match namei fs false p with
  | Ok (Found [] _) => fs
  | Ok (Found _ (Dir _)) => fs
  | Ok (Found q _) => del fs q
  | _ => fs
  end.

(** [fs.copyFileSync(src, dst)]: [src] is opened for reading, which works
    for a directory as well; [dst] is opened for writing and created when it
    is missing.  When both are the same file nothing is done.  Otherwise
    [dst] is emptied and the bytes are copied; reading a directory fails
    then, and after a failure of the copy [dst] is unlinked, whether it was
    there before or not. *)
Definition copyFileSync (fs : node) (src dst : Path) : attempt :=
  match namei fs true src with
  | Err e => Aborted e fs
  | Ok (Vacant _) => Aborted ENOENT fs
  | Ok (Found p n) =>
      let copy (q : Path) : attempt :=
        match n with
        | File c => Completed (put fs q (File c))
        | _ => Aborted EISDIR (unlink (put fs q (File "")) dst)
        end in
      match namei fs true dst with
      | Err e => Aborted e fs
      | Ok (Found _ (Dir _)) => Aborted EISDIR fs
      | Ok (Found q _) => if path_eqb p q then Completed fs else copy q
      | Ok (Vacant q) => copy q
      end
  end.

Definition mkdir1 (fs : node) (p : Path) : result node :=
  match namei fs false p with
  | Ok (Found _ _) => Err EEXIST
  | Ok (Vacant q) => Ok (put fs q (Dir []))
  | Err e => Err e
  end.

(** What the recursive [mkdir] does when the plain [mkdir] of [p] fails with
    a code other than [ENOENT], [ENOTDIR]: an existing directory is fine. *)
Definition mkdir_exists (fs : node) (p : Path) (pending : bool) : result node :=
  match statSync fs p with
  | Ok (Dir _) => Ok fs
  | Ok _ => Err (if pending then ENOTDIR else EEXIST)
  | Err e => Err e
  end.

(** [fs.mkdirSync(p, { recursive: true })]: on [ENOENT] the parent is made
    first and [p] is tried again.  The path is given last segment first. *)
Fixpoint mkdirp_rev (fs : node) (rp : list string) (pending : bool)
  : result node :=
  match mkdir1 fs (rev rp) with
  | Ok fs' => Ok fs'
  | Err ENOENT =>
      match rp with
      | [] => Err EEXIST
      | _ :: rparent =>
          match mkdirp_rev fs rparent true with
          | Ok fs1 =>
              match mkdir1 fs1 (rev rp) with
              | Ok fs2 => Ok fs2
              | Err ENOENT => Err ENOENT
              | Err ENOTDIR => Err ENOTDIR
              | Err _ => mkdir_exists fs1 (rev rp) pending
              end
          | Err e => Err e
          end
      end
  | Err ENOTDIR => Err ENOTDIR
  | Err _ => mkdir_exists fs (rev rp) pending
  end.

Definition mkdirSync_recursive (fs : node) (p : Path) : result node :=
  mkdirp_rev fs (rev p) false.

Definition symlinkSync (fs : node) (target : string) (p : Path) : result node :=
  match namei fs false p with
  | Ok (Found _ _) => Err EEXIST
  | Ok (Vacant q) => Ok (put fs q (Symlink target))
  | Err e => Err e
  end.

(** [fs.rmSync(p, { recursive: true, force: true })]: the object itself is
    removed with all it contains, a link is not followed, a missing path is
    not an error. *)
Definition rmSync_rf (fs : node) (p : Path) : result node :=
  match namei fs false p with
  | Ok (Found [] _) => Err EBUSY
  | Ok (Found q _) => Ok (del fs q)
  | Ok (Vacant _) => Ok fs
  | Err ENOENT => Ok fs
  | Err e => Err e
  end.

End Fs.

(* ===================================================================== *)
(** ** The script *)
(* ===================================================================== *)

Module Deploy.
Import PathLib Fs.

(** What a [catch] clause receives. *)
Inductive error : Type :=
| FsError (e : errno)
| JsonError
| NoIdField.

Inductive level : Type := Success | Failure | Info | Warn.

(** The lines the script prints, one constructor per call of [log]. *)
Inductive message : Type :=
| MsgMode (mode : string)
| MsgNoEnvFile
| MsgNoVaultPath
| MsgNoManifest
| MsgManifestFailed (e : error)
| MsgVault (p : Path)
| MsgPluginId (id : string)
| MsgSameAsDistLink
| MsgLinkPresent (id : string)
| MsgBackedUp
| MsgLinkCreated (id : string)
| MsgLinkFailed (e : error)
| MsgSameAsDistCopy
| MsgNoDist
| MsgCopied (count : nat) (id : string)
| MsgCopyFailed (e : error)
| MsgUnknownMode (mode : string)
| MsgSupportedModes
| MsgDeployFailed (e : error).

Record state : Type := mkState {
  files : node;
  logged : list (level * message)
}.

(** A computation ends by returning, by [process.exit], by throwing, or it
    runs out of the recursion budget given to [copyDirRecursive]. *)
Inductive outcome (A : Type) : Type :=
| Ret (a : A) (s : state)
| Exit (code : Z) (s : state)
| Throw (e : error) (s : state)
| OutOfFuel.
Arguments Ret {A} a s.
Arguments Exit {A} code s.
Arguments Throw {A} e s.
Arguments OutOfFuel {A}.

Definition M (A : Type) : Type := state -> outcome A.

Definition ret {A} (a : A) : M A := fun s => Ret a s.

Definition bind {A B} (c : M A) (k : A -> M B) : M B :=
  fun s =>
    match c s with
    | Ret a s' => k a s'
    | Exit code s' => Exit code s'
    | Throw e s' => Throw e s'
    | OutOfFuel => OutOfFuel
    end.

Notation "x <- c ;; k" := (bind c (fun x => k))
  (at level 61, c at next level, right associativity).
Notation "c ;; k" := (bind c (fun _ => k))
  (at level 61, right associativity).

Definition exit {A} (code : Z) : M A := fun s => Exit code s.

Definition throw {A} (e : error) : M A := fun s => Throw e s.

(** [try { c } catch (error) { handler(error) }]; [process.exit] is not an
    exception and passes through. *)
Definition try_catch {A} (c : M A) (handler : error -> M A) : M A :=
  fun s =>
    match c s with
    | Throw e s' => handler e s'
    | r => r
    end.

Definition log (l : level) (m : message) : M unit :=
  fun s => Ret tt (mkState (files s) (logged s ++ [(l, m)])).

(** A call of [fs] that changes the tree, and one that only reads it. *)
Definition fsop (f : node -> result node) : M unit :=
  fun s =>
    match f (files s) with
    | Ok fs' => Ret tt (mkState fs' (logged s))
    | Err e => Throw (FsError e) s
    end.

(** A call of [fs] whose failure may leave the tree changed. *)
Definition fsdo (f : node -> attempt) : M unit :=
  fun s =>
    match f (files s) with
    | Completed fs' => Ret tt (mkState fs' (logged s))
    | Aborted e fs' => Throw (FsError e) (mkState fs' (logged s))
    end.

Definition fsread {A} (f : node -> result A) : M A :=
  fun s =>
    match f (files s) with
    | Ok a => Ret a s
    | Err e => Throw (FsError e) s
    end.

Definition existsM (p : Path) : M bool :=
  fun s => Ret (existsSync (files s) p) s.

Fixpoint forEach {A} (l : list A) (f : A -> M unit) : M unit :=
  match l with
  | [] => ret tt
  | x :: r => f x ;; forEach r f
  end.

(** What the script finds around it: where it is installed, the working
    directory, the environment, and the two parsers it calls ([dotenv] and
    the JSON reader), each reduced to the one value the script takes from
    it. *)
Record host : Type := mkHost {
  projectRoot : Path;
  cwd : Path;
  envVaultPath : option string;
  dotenvVaultPath : string -> option string;
  jsonId : string -> option (option string)
}.

Section Script.
Variable h : host.

Definition distDir : Path := join (projectRoot h) ["dist"].
Definition manifestPath : Path := join (projectRoot h) ["manifest.json"].
Definition envPath : Path := join (projectRoot h) [".env"].

(** [args[0] || "link"] *)
Definition deployMode (args : list string) : string :=
  match args with
  | a :: _ => if a =? "" then "link" else a
  | [] => "link"
  end.

(** [args.find(arg => arg.startsWith("--vault-path="))?.split("=")[1]] *)
Definition customVaultPath (args : list string) : option string :=
  match find (fun a => prefix "--vault-path=" a) args with
  | Some a => nth_error (split_on "="%char a) 1
  | None => None
  end.

Definition truthy (o : option string) : option string :=
  match o with
  | Some s => if s =? "" then None else Some s
  | None => None
  end.

(** [dotenv.config] does not replace a variable that the environment
    already has; a file that cannot be read is passed over in silence. *)
Definition loadVaultPath (args : list string) : M Path :=
  match truthy (customVaultPath args) with
  | Some c => ret (resolve (cwd h) [c])
  | None =>
      ex <- existsM envPath ;;
      if negb ex then log Warn MsgNoEnvFile ;; exit 0
      else
        fromFile <- (fun s =>
                       Ret (match readFileSync (files s) envPath with
                            | Ok c => dotenvVaultPath h c
                            | Err _ => None
                            end) s) ;;
        let vaultPath :=
          match envVaultPath h with
          | Some v => Some v
          | None => fromFile
          end in
        match truthy vaultPath with
        | Some v => ret (resolve (cwd h) [v])
        | None => log Failure MsgNoVaultPath ;; exit 1
        end
  end.

Definition readJsonSync (p : Path) : M (option string) :=
  c <- fsread (fun fs => readFileSync fs p) ;;
  match jsonId h c with
  | Some o => ret o
  | None => throw JsonError
  end.

Definition getPluginId : M string :=
  let distManifestPath := join distDir ["manifest.json"] in
  inDist <- existsM distManifestPath ;;
  let manifestFile := if inDist then distManifestPath else manifestPath in
  ex <- existsM manifestFile ;;
  if negb ex then log Failure MsgNoManifest ;; exit 1
  else
    try_catch
      (id <- readJsonSync manifestFile ;;
       match truthy id with
       | Some i => ret i
       | None => throw NoIdField
       end)
      (fun e => log Failure (MsgManifestFailed e) ;; exit 1).

Definition ensureDistReady : M unit :=
  ex <- existsM distDir ;;
  (if negb ex then fsop (fun fs => mkdirSync_recursive fs distDir)
   else ret tt) ;;
  let hotreloadPath := join distDir [".hotreload"] in
  ex' <- existsM hotreloadPath ;;
  if negb ex' then fsop (fun fs => writeFileSync fs hotreloadPath "")
  else ret tt.

(** Each call reads the directory it finds on disk at that moment, so the
    recursion is not on a given tree: [fuel] bounds the nesting of the
    calls, and a call without budget ends the computation with
    [OutOfFuel]. *)
Fixpoint copyDirRecursive (fuel : nat) (src dest : Path) : M unit :=
  match fuel with
  | 0 => fun _ => OutOfFuel
  | S fuel' =>
      fsop (fun fs => mkdirSync_recursive fs dest) ;;
      entries <- fsread (fun fs => readdirSync fs src) ;;
      forEach entries (fun entry =>
        let srcPath := join src [fst entry] in
        let destPath := join dest [fst entry] in
        if isDirectory (snd entry) then copyDirRecursive fuel' srcPath destPath
        else fsdo (fun fs => copyFileSync fs srcPath destPath))
  end.

Definition targetPluginDir (vaultPath : Path) (pluginId : string) : Path :=
  join vaultPath [".obsidian"; "plugins"; pluginId].

(** Lines 169 to 180 of [deployLink]: the parent is made, then the link.
    The link type ([junction] on Windows, [dir] elsewhere) has no meaning
    on a POSIX system and is left out. *)
Definition createLink (target : Path) (pluginId : string) : M unit :=
  fsop (fun fs => mkdirSync_recursive fs (dirname target)) ;;
  try_catch
    (fsop (fun fs => symlinkSync fs (render distDir) target) ;;
     log Success (MsgLinkCreated pluginId))
    (fun e => log Failure (MsgLinkFailed e) ;; exit 1).

(** Line 166 and what follows it. *)
Definition removeThenLink (target : Path) (pluginId : string) : M unit :=
  fsop (fun fs => rmSync_rf fs target) ;;
  createLink target pluginId.

Definition deployLink (vaultPath : Path) (pluginId : string) : M unit :=
  let target := targetPluginDir vaultPath pluginId in
  if path_eqb (resolve target []) (resolve distDir []) then
    log Info MsgSameAsDistLink ;; exit 0
  else
    ex <- existsM target ;;
    if ex then
      stats <- fsread (fun fs => lstatSync fs target) ;;
      if isSymbolicLink stats then
        linkTarget <- fsread (fun fs => readlinkSync fs target) ;;
        let resolvedLink := resolve (dirname target) [linkTarget] in
        if path_eqb resolvedLink (resolve distDir []) then
          log Success (MsgLinkPresent pluginId)
        else removeThenLink target pluginId
      else if isDirectory stats then
        let dataJsonPath := join target ["data.json"] in
        ex' <- existsM dataJsonPath ;;
        (if ex' then
           let backupPath := join distDir ["data.json"] in
           fsdo (fun fs => copyFileSync fs dataJsonPath backupPath) ;;
           log Info MsgBackedUp
         else ret tt) ;;
        removeThenLink target pluginId
      else removeThenLink target pluginId
    else createLink target pluginId.

Definition deployCopy (fuel : nat) (vaultPath : Path) (pluginId : string)
  : M unit :=
  let target := targetPluginDir vaultPath pluginId in
  if path_eqb (resolve target []) (resolve distDir []) then
    log Info MsgSameAsDistCopy ;; exit 0
  else
    ex <- existsM distDir ;;
    if negb ex then log Failure MsgNoDist ;; exit 1
    else
      ex' <- existsM target ;;
      (if ex' then fsop (fun fs => rmSync_rf fs target) else ret tt) ;;
      try_catch
        (copyDirRecursive fuel distDir target ;;
         entries <- fsread (fun fs => readdirSync fs distDir) ;;
         log Success (MsgCopied (List.length entries) pluginId))
        (fun e => log Failure (MsgCopyFailed e) ;; exit 1).

Definition main (fuel : nat) (args : list string) : M unit :=
  try_catch
    (log Info (MsgMode (deployMode args)) ;;
     ensureDistReady ;;
     vaultPath <- loadVaultPath args ;;
     pluginId <- getPluginId ;;
     log Info (MsgVault vaultPath) ;;
     log Info (MsgPluginId pluginId) ;;
     if deployMode args =? "link" then deployLink vaultPath pluginId
     else if deployMode args =? "copy" then deployCopy fuel vaultPath pluginId
     else
       log Failure (MsgUnknownMode (deployMode args)) ;;
       log Info MsgSupportedModes ;;
       exit 1)
    (fun e => log Failure (MsgDeployFailed e) ;; exit 1).

(** One run of the script on a file tree: the exit status of the process
    (0 when [main] returns) and the tree it leaves. *)
Definition run (fuel : nat) (args : list string) (fs : node)
  : option (Z * node) :=
  match main fuel args (mkState fs []) with
  | Ret _ s => Some (0%Z, files s)
  | Exit code s => Some (code, files s)
  | Throw _ s => Some (1%Z, files s)
  | OutOfFuel => None
  end.

End Script.

End Deploy.


(* ===================================================================== *)
(** ** Vocabulary of the statements *)
(* ===================================================================== *)

Module Shape.
Import PathLib Fs Deploy.

(** [dirs_along n p]: going down [p] from [n] without following links, what
    exists is a directory. *)
Fixpoint dirs_along (n : node) (p : Path) : bool :=
  match n with
  | Dir es =>
      match p with
      | [] => true
      | s :: r => match lookup s es with
                  | Some c => dirs_along c r
                  | None => true
                  end
      end
  | _ => false
  end.

(** The tree with the missing directories of [p] added. *)
Fixpoint mkdirs (n : node) (p : Path) : node :=
  match p with
  | [] => n
  | s :: r =>
      match n with
      | Dir es =>
          Dir (set_entry s
                 (mkdirs (match lookup s es with
                          | Some c => c
                          | None => Dir []
                          end) r) es)
      | _ => n
      end
  end.

Fixpoint nodupb (l : list string) : bool :=
  match l with
  | [] => true
  | x :: r => negb (existsb (String.eqb x) r) && nodupb r
  end.

(** The names of a directory are directory-entry names, each used once. *)
Fixpoint wf_tree (n : node) : bool :=
  match n with
  | Dir es =>
      forallb valid_name (map fst es) && nodupb (map fst es)
      && (fix all (es : list (string * node)) : bool :=
            match es with
            | [] => true
            | e :: r => wf_tree (snd e) && all r
            end) es
  | _ => true
  end.

(** Levels of directories below a node. *)
Fixpoint depth (n : node) : nat :=
  match n with
  | Dir es =>
      (fix deepest (es : list (string * node)) : nat :=
         match es with
         | [] => 0
         | e :: r => Nat.max (S (depth (snd e))) (deepest r)
         end) es
  | _ => 0
  end.




(** What a copy of the tree [n], found at the path [at_] of [fs], is
    expected to be: the same directories and files, and in place of each
    link a regular file with the content read through the link; the entries
    of a directory come in the order in which they are listed and made,
    the order of their names.  There is no such copy when a link does not
    lead to a regular file. *)
Fixpoint materialize (fs : node) (at_ : Path) (n : node) : option node :=
  match n with
  | File c => Some (File c)
  | Symlink _ =>
      match readFileSync fs at_ with
      | Ok c => Some (File c)
      | Err _ => None
      end
  | Dir es =>
      option_map (fun l => Dir (sort_entries l))
        ((fix each (es : list (string * node)) : option (list (string * node)) :=
            match es with
            | [] => Some []
            | e :: r =>
                match materialize fs (at_ ++ [fst e]) (snd e), each r with
                | Some c, Some r' => Some ((fst e, c) :: r')
                | _, _ => None
                end
            end) es)
  end.



(** [extends fs0 fs]: every object of [fs0] is in [fs] at the same place
    with the same type, a file with its content and a link with its text. *)
Definition same_kind (n m : node) : Prop :=
  match n with
  | File c => m = File c
  | Symlink t => m = Symlink t
  | Dir _ => exists es, m = Dir es
  end.

Definition extends (fs0 fs : node) : Prop :=
  forall p n, get fs0 p = Some n -> exists m, get fs p = Some m /\ same_kind n m.

(** What can stand at the target of a copy: nothing, or something that
    [fs.existsSync] sees (a link that leads nowhere is not seen, hence not
    removed). *)
Definition replaceable (fs : node) (target : Path) : bool :=
  match get fs target with
  | None => true
  | Some _ => existsSync fs target
  end.

Fixpoint materialize_all (fs : node) (at_ : Path) (es : list (string * node))
  : option (list (string * node)) :=
  match es with
  | [] => Some []
  | e :: r =>
      match materialize fs (at_ ++ [fst e]) (snd e), materialize_all fs at_ r with
      | Some c, Some r' => Some ((fst e, c) :: r')
      | _, _ => None
      end
  end.

Fixpoint deepest (es : list (string * node)) : nat :=
  match es with
  | [] => 0
  | e :: r => Nat.max (S (depth (snd e))) (deepest r)
  end.

(** The file tree an outcome carries; [fs] when there is none. *)
Definition final_files {A} (o : outcome A) (fs : node) : node :=
  match o with
  | Ret _ s => files s
  | Exit _ s => files s
  | Throw _ s => files s
  | OutOfFuel => fs
  end.

(** The body of the loop of [copyDirRecursive]. *)
Definition copy_entry (fuel : nat) (src dest : Path)
  (entry : string * node) : M unit :=
  let srcPath := join src [fst entry] in
  let destPath := join dest [fst entry] in
  if isDirectory (snd entry) then copyDirRecursive fuel srcPath destPath
  else fsdo (fun fs => copyFileSync fs srcPath destPath).

(** The statement for one call of [copyDirRecursive], in a tree that has
    grown from [fs0] only below [top], a place that is free in [fs0]: the
    source directory [src] holds [es] and the place [dest] is free in a
    directory that exists; then the call returns and has stored at [dest]
    the expected copy. *)
Definition copy_ok (fs0 : node) (top : Path) (fuel : nat) : Prop :=
  forall (src dest : Path) (es es' es0 : list (string * node)) (s : state),
    normalized src = true -> normalized dest = true ->
    get (files s) src = Some (Dir es) ->
    wf_tree (Dir es) = true -> depth (Dir es) < fuel ->
    is_prefix src dest = false -> is_prefix dest src = false ->
    is_prefix top dest = true -> extends fs0 (files s) ->
    get (files s) (dirname dest) = Some (Dir es0) ->
    get (files s) dest = None ->
    materialize_all fs0 src es = Some es' ->
    copyDirRecursive fuel src dest s
    = Ret tt (mkState (put (files s) dest (Dir (sort_entries es')))
                (logged s)).

Definition backup : string := "data.json".

(** What the script finds at [dist/data.json] is nothing or a regular
    file. *)
Definition stale_backup_ok (des : list (string * node)) : bool :=
  match lookup backup des with
  | None => true
  | Some (File _) => true
  | Some _ => false
  end.

(** Neither backup file is a link. *)
Definition backups_plain (fs : node) (target dist : Path) : bool :=
  match get fs (target ++ [backup]) with
  | Some (Symlink _) => false
  | _ => true
  end
  && match get fs (dist ++ [backup]) with
     | Some (Symlink _) => false
     | _ => true
     end.

(** The state link mode aims at: the link with the text of [dist] is at
    the target, and [dist] is a directory. *)
Definition converged (h : host) (vaultPath : Path) (pluginId : string)
  (fs : node) : Prop :=
  get fs (targetPluginDir vaultPath pluginId)
  = Some (Symlink (render (distDir h)))
  /\ exists es, get fs (distDir h) = Some (Dir es).

(** [deployLink] past its guard. *)
Definition deployLink_tail (h : host) (vaultPath : Path) (pluginId : string)
  (s : state) : outcome unit :=
  let target := targetPluginDir vaultPath pluginId in
  let dist := distDir h in
  if existsSync (files s) target then
    match lstatSync (files s) target with
    | Err e => Throw (FsError e) s
    | Ok (Symlink t) =>
        if path_eqb (resolve (dirname target) [t]) (resolve dist [])
        then log Success (MsgLinkPresent pluginId) s
        else removeThenLink h target pluginId s
    | Ok (Dir _) =>
        (ex' <- existsM (target ++ [backup]) ;;
         (if ex' then
            fsdo (fun fs => copyFileSync fs (target ++ [backup])
                                         (dist ++ [backup])) ;;
            log Info MsgBackedUp
          else ret tt) ;;
         removeThenLink h target pluginId) s
    | Ok (File _) => removeThenLink h target pluginId s
    end
  else createLink h target pluginId s.

(** A link with text [t] is the entry [p] of a real directory. *)
Definition link_at (fs : node) (p : Path) (t : string) : Prop :=
  exists q k esq,
    p = q ++ [k] /\ get fs q = Some (Dir esq) /\
    lookup k esq = Some (Symlink t).

(** An argument that [customVaultPath] takes for the option. *)
Definition is_option (a : string) : bool := prefix "--vault-path=" a.

(** A name that is free in a real directory. *)
Definition free_place (fs : node) (q : Path) : Prop :=
  exists d s es, q = d ++ [s] /\ get fs d = Some (Dir es) /\ lookup s es = None.

(** A way out through [process.exit]: the status is 0, or it is 1 and a
    line of failure has been logged. *)
Definition loud_exit {A} (o : outcome A) : Prop :=
  match o with
  | Exit code s' =>
      code = 0%Z \/ (code = 1%Z /\ exists m, In (Failure, m) (logged s'))
  | _ => True
  end.

(** An outcome that is no [process.exit] and comes with the log it
    started from. *)
Definition quiet {A} (o : outcome A) (s : state) : Prop :=
  match o with
  | Ret _ s' => logged s' = logged s
  | Exit _ _ => False
  | Throw _ s' => logged s' = logged s
  | OutOfFuel => True
  end.

(** The marker file of [ensureDistReady]. *)
Definition marker : string := ".hotreload".

End Shape.

(* ===================================================================== *)
(** ** Concrete installations *)
(* ===================================================================== *)

Module Scenarios.
Import PathLib Fs Deploy.

(** In the scenarios the two parsers are the simplest ones: a [.env] file
    is the single line [VAULT_PATH=value], and a manifest is reduced to the
    text of its [id] field (an empty file does not parse). *)
Definition envValue (c : string) : option string :=
  if prefix "VAULT_PATH=" c
  then Some (substring 11 (String.length c - 11) c)
  else None.

Definition manifestValue (c : string) : option (option string) :=
  if c =? "" then None else Some (Some c).

(** The project is checked out at [/proj]; the vault is [/v]. *)
Definition hostProj : host :=
  mkHost ["proj"] ["home"] None envValue manifestValue.

(** The project is checked out inside the vault, in the folder of the
    plugin itself: [/v/.obsidian/plugins/p]. *)
Definition hostInVault : host :=
  mkHost ["v"; ".obsidian"; "plugins"; "p"] ["home"] None envValue manifestValue.

(** The project is the plugin folder of the vault and is named so that its
    [dist] is the target: [/v/.obsidian/plugins] with plugin id [dist]. *)
Definition hostSelf : host :=
  mkHost ["v"; ".obsidian"; "plugins"] ["home"] None envValue manifestValue.

Definition vault (plugins : list (string * node)) : string * node :=
  ("v", Dir [(".obsidian", Dir [("plugins", Dir plugins)])]).

Definition project (more : list (string * node)) : string * node :=
  ("proj",
   Dir ([("manifest.json", File "myplug"); (".env", File "VAULT_PATH=/v")]
        ++ more)).

(** A built project and a vault where the plugin was installed by copy. *)
Definition fsInstalled : node :=
  Dir [project [("dist", Dir [("main.js", File "code")])];
       vault [("myplug", Dir [("data.json", File "X");
                              ("main.js", File "old")])]].

(** The project was never built: no [dist]. *)
Definition fsNotBuilt : node :=
  Dir [project [];
       vault [("myplug", Dir [("main.js", File "old")])]].

(** No [.env], no [dist]. *)
Definition fsBare : node :=
  Dir [("proj", Dir [("manifest.json", File "myplug")])].

(** The target is a link that loops on itself. *)
Definition fsLoop : node :=
  Dir [project [("dist", Dir [("main.js", File "code")])];
       vault [("myplug", Symlink "myplug")]].

(** The target is a link to a build that was deleted. *)
Definition fsStale : node :=
  Dir [project [("dist", Dir [("main.js", File "code")])];
       vault [("myplug", Symlink "/old/dist")]].

(** The build holds a link to a file and a link to a directory. *)
Definition fsLinks : node :=
  Dir [project [("lib", Dir [("a.js", File "A")]);
                ("dist", Dir [("main.js", File "code");
                              ("alias.js", Symlink "main.js");
                              ("libs", Symlink "../lib")])];
       vault []].

(** The build holds a link to a file only, and nested directories, one of
    them empty. *)
Definition fsTree : node :=
  Dir [project [("dist", Dir [("main.js", File "code");
                              ("alias.js", Symlink "main.js");
                              ("assets", Dir [("empty", Dir []);
                                              ("a.css", File "css")])])];
       vault [("myplug", Dir [("old.js", File "old")])]].

(** The build holds files and nested directories, one of them empty, and
    no link. *)
Definition fsNested : node :=
  Dir [project [("dist", Dir [("main.js", File "code");
                              ("assets", Dir [("empty", Dir []);
                                              ("a.css", File "css")]);
                              ("manifest.json", File "myplug")])];
       vault [("myplug", Dir [("old.js", File "old")])]].

(** The project lives in the plugin folder of the vault. *)
Definition fsInVault : node :=
  Dir [("v", Dir [(".obsidian", Dir [("plugins", Dir [("p",
     Dir [("manifest.json", File "p"); (".env", File "VAULT_PATH=/v");
          ("scripts", Dir [("deploy.mjs", File "script")]);
          ("data.json", File "X");
          ("dist", Dir [("main.js", File "code");
                        (".hotreload", File "")])])])])])].

(** What the first run in link mode leaves of it. *)
Definition fsInVaultAfter : node :=
  Dir [("v", Dir [(".obsidian", Dir [("plugins", Dir [("p",
     Symlink "/v/.obsidian/plugins/p/dist")])])])].

Definition fsSelf : node :=
  Dir [("v", Dir [(".obsidian", Dir [("plugins",
     Dir [("manifest.json", File "dist"); (".env", File "VAULT_PATH=/v")])])])].

Definition built : list (string * node) :=
  [("dist", Dir [("main.js", File "code")])].

(** The target is a link to the project itself. *)
Definition fsLinkedElsewhere : node :=
  Dir [project built; vault [("myplug", Symlink "/proj")]].

(** The target is a link to [dist], written from its own directory. *)
Definition fsLinkedRelative : node :=
  Dir [project built; vault [("myplug", Symlink "../../../proj/dist")]].

(** The target is a regular file. *)
Definition fsFileAtTarget : node :=
  Dir [project built; vault [("myplug", File "x")]].

(** The installed plugin holds a directory called [data.json]. *)
Definition fsDataDir : node :=
  Dir [project built; vault [("myplug", Dir [("data.json", Dir [])])]].

(** The same, with a backup of an earlier run in [dist]. *)
Definition fsDataDirStale : node :=
  Dir [project [("dist", Dir [("main.js", File "code");
                              ("data.json", File "stale")])];
       vault [("myplug", Dir [("data.json", Dir [])])]].

(** A built project with its marker file; there is no vault yet. *)
Definition fsReady : node :=
  Dir [project [("dist", Dir [("main.js", File "code");
                              (".hotreload", File "")])]].

(** A build and its marker file, and nothing else: no [.env] file, no
    manifest. *)
Definition fsOnlyDist : node :=
  Dir [("proj", Dir [("dist", Dir [(".hotreload", File "")])])].

(** [fsBare] after [ensureDistReady]. *)
Definition fsBareReady : node :=
  Dir [("proj", Dir [("manifest.json", File "myplug");
                     ("dist", Dir [(".hotreload", File "")])])].

(** The manifest of the build is empty, the one of the project is good. *)
Definition fsBrokenBuild : node :=
  Dir [("proj", Dir [("manifest.json", File "myplug");
                     ("dist", Dir [("manifest.json", File "")])])].

(** [dist] is a regular file. *)
Definition fsDistFile : node :=
  Dir [project [("dist", File "not a directory")]].


End Scenarios.
(* ===================================================================== *)
(** ** Facts about paths *)
(* ===================================================================== *)

Module PathFacts.
Import PathLib.

Lemma split_on_no_sep (c : ascii) (s : string) :
  has_char c s = false -> split_on c s = [s].
Proof.
  induction s as [|a r IH]; simpl; intros H.
  - reflexivity.
  - apply orb_false_iff in H. destruct H as [Ha Hr].
    rewrite Ha. rewrite (IH Hr). reflexivity.
Qed.

Lemma valid_name_parts (s : string) :
  valid_name s = true ->
  (s =? "") = false /\ (s =? ".") = false /\ (s =? "..") = false
  /\ has_slash s = false.
Proof.
  unfold valid_name. intros H.
  repeat (apply andb_true_iff in H; destruct H as [H ?]).
  repeat match goal with
         | K : negb _ = true |- _ => apply negb_true_iff in K
         end.
  auto.
Qed.

Lemma segments_valid (s : string) :
  valid_name s = true -> segments s = [s].
Proof.
  intros H. apply valid_name_parts in H. destruct H as (_ & _ & _ & H).
  unfold segments. now apply split_on_no_sep.
Qed.

Lemma step_valid (p : Path) (s : string) :
  valid_name s = true -> step p s = p ++ [s].
Proof.
  intros H. apply valid_name_parts in H. destruct H as (H1 & H2 & H3 & _).
  unfold step. rewrite H1, H2, H3. reflexivity.
Qed.

Lemma normalize_from_valid (q p : Path) :
  normalized q = true -> normalize_from p q = p ++ q.
Proof.
  revert p. induction q as [|s q IH]; simpl; intros p H.
  - now rewrite app_nil_r.
  - apply andb_true_iff in H. destruct H as [Hs Hq].
    unfold normalize_from in *. simpl. rewrite (step_valid _ _ Hs).
    rewrite (IH _ Hq). now rewrite <- app_assoc.
Qed.

Lemma flat_map_segments_valid (args : list string) :
  normalized args = true -> flat_map segments args = args.
Proof.
  induction args as [|a args IH]; simpl; intros H; [reflexivity|].
  apply andb_true_iff in H. destruct H as [Ha Hr].
  rewrite (segments_valid _ Ha), (IH Hr). reflexivity.
Qed.

Lemma normalized_app (p q : Path) :
  normalized (p ++ q) = normalized p && normalized q.
Proof. unfold normalized. apply forallb_app. Qed.

Lemma join_valid (p : Path) (args : list string) :
  normalized p = true -> normalized args = true -> join p args = p ++ args.
Proof.
  intros Hp Ha. unfold join. rewrite (flat_map_segments_valid _ Ha).
  rewrite normalize_from_valid; [reflexivity|].
  rewrite normalized_app, Hp, Ha. reflexivity.
Qed.

Lemma resolve_nil (p : Path) :
  normalized p = true -> resolve p [] = p.
Proof.
  intros Hp. unfold resolve. simpl. now rewrite normalize_from_valid.
Qed.

Lemma path_eqb_eq (p q : Path) : path_eqb p q = true <-> p = q.
Proof.
  unfold path_eqb. destruct (list_eq_dec string_dec p q); split; congruence.
Qed.

Lemma path_eqb_refl (p : Path) : path_eqb p p = true.
Proof. now apply path_eqb_eq. Qed.

Lemma path_eqb_neq (p q : Path) : path_eqb p q = false <-> p <> q.
Proof.
  unfold path_eqb. destruct (list_eq_dec string_dec p q); split; congruence.
Qed.

Lemma dirname_snoc (p : Path) (s : string) : dirname (p ++ [s]) = p.
Proof. unfold dirname. apply removelast_last. Qed.

(** *** What [path.join] returns is normalised *)

Lemma split_on_pieces (c : ascii) (s x : string) :
  In x (split_on c s) -> has_char c x = false.
Proof.
  revert x. induction s as [|a s IH]; simpl; intros x H.
  - destruct H as [<-|[]]. reflexivity.
  - destruct (Ascii.eqb a c) eqn:E.
    + destruct H as [<-|H]; [reflexivity | now apply IH].
    + destruct (split_on c s) as [|y ys] eqn:Es.
      * destruct H as [<-|[]]. simpl. now rewrite E.
      * destruct H as [<-|H].
        -- simpl. rewrite E. apply IH. now left.
        -- apply IH. now right.
Qed.

Lemma normalized_removelast (p : Path) :
  normalized p = true -> normalized (removelast p) = true.
Proof.
  induction p as [|s p IH]; [reflexivity|].
  intros H. simpl in H. apply andb_true_iff in H. destruct H as [Hs Hp].
  destruct p as [|s' p]; [reflexivity|].
  change (removelast (s :: s' :: p)) with (s :: removelast (s' :: p)).
  simpl. rewrite Hs. now apply IH.
Qed.

Lemma step_normalized (p : Path) (s : string) :
  normalized p = true -> has_slash s = false -> normalized (step p s) = true.
Proof.
  intros Hp Hs. unfold step.
  destruct (s =? "") eqn:E1; [exact Hp|].
  destruct (s =? ".") eqn:E2; [exact Hp|]. simpl.
  destruct (s =? "..") eqn:E3; [now apply normalized_removelast|].
  rewrite normalized_app, Hp. simpl. unfold valid_name.
  now rewrite E1, E2, E3, Hs.
Qed.

Lemma normalize_from_normalized (segs : list string) (p : Path) :
  normalized p = true ->
  (forall s, In s segs -> has_slash s = false) ->
  normalized (normalize_from p segs) = true.
Proof.
  revert p. induction segs as [|s segs IH]; intros p Hp Hs; [exact Hp|].
  unfold normalize_from. simpl. apply IH.
  - apply step_normalized; [exact Hp | apply Hs; now left].
  - intros x Hx. apply Hs. now right.
Qed.

Lemma normalized_no_slash (p : Path) (s : string) :
  normalized p = true -> In s p -> has_slash s = false.
Proof.
  intros Hp Hs. unfold normalized in Hp. rewrite forallb_forall in Hp.
  now destruct (valid_name_parts _ (Hp s Hs)) as (_ & _ & _ & H).
Qed.

Lemma join_normalized (p : Path) (args : list string) :
  normalized p = true -> normalized (join p args) = true.
Proof.
  intros Hp. unfold join. apply normalize_from_normalized; [reflexivity|].
  intros s Hs. apply in_app_or in Hs. destruct Hs as [Hs|Hs].
  - now apply normalized_no_slash with p.
  - apply in_flat_map in Hs. destruct Hs as (a & _ & Ha).
    now apply split_on_pieces with a.
Qed.

End PathFacts.

(* ===================================================================== *)
(** ** Facts about the file tree *)
(* ===================================================================== *)

Module TreeFacts.
Import PathLib Fs PathFacts.

Lemma lookup_set_entry_same (s : string) (c : node) (es : list (string * node)) :
  lookup s (set_entry s c es) = Some c.
Proof.
  induction es as [|[k n] r IH]; simpl.
  - now rewrite String.eqb_refl.
  - destruct (k =? s) eqn:E; simpl; rewrite E; [reflexivity | exact IH].
Qed.

Lemma lookup_set_entry_other (k s : string) (c : node)
  (es : list (string * node)) :
  k <> s -> lookup k (set_entry s c es) = lookup k es.
Proof.
  intros Hks. induction es as [|[k' n] r IH]; simpl.
  - destruct (s =? k) eqn:E; [|reflexivity].
    apply String.eqb_eq in E. congruence.
  - destruct (k' =? s) eqn:E; simpl.
    + apply String.eqb_eq in E. subst k'.
      destruct (s =? k) eqn:E'; [|reflexivity].
      apply String.eqb_eq in E'. congruence.
    + now rewrite IH.
Qed.

Lemma lookup_del_entry_same (s : string) (es : list (string * node)) :
  lookup s (del_entry s es) = None.
Proof.
  induction es as [|[k n] r IH]; simpl; [reflexivity|].
  destruct (k =? s) eqn:E; simpl; [exact IH | now rewrite E].
Qed.

Lemma lookup_del_entry_other (k s : string) (es : list (string * node)) :
  k <> s -> lookup k (del_entry s es) = lookup k es.
Proof.
  intros Hks. induction es as [|[k' n] r IH]; simpl; [reflexivity|].
  destruct (k' =? s) eqn:E; simpl.
  - apply String.eqb_eq in E. subst k'.
    destruct (s =? k) eqn:E'; [|exact IH].
    apply String.eqb_eq in E'. congruence.
  - now rewrite IH.
Qed.

(** Adding an entry with a new name puts it last. *)
Lemma set_entry_fresh (s : string) (c : node) (es : list (string * node)) :
  lookup s es = None -> set_entry s c es = es ++ [(s, c)].
Proof.
  induction es as [|[k n] r IH]; simpl; intros H; [reflexivity|].
  destruct (k =? s); [discriminate|]. now rewrite IH.
Qed.

Lemma set_entry_twice (s : string) (c c' : node) (es : list (string * node)) :
  set_entry s c' (set_entry s c es) = set_entry s c' es.
Proof.
  induction es as [|[k n] r IH]; simpl.
  - now rewrite String.eqb_refl.
  - destruct (k =? s) eqn:E; simpl; rewrite E; [reflexivity | now rewrite IH].
Qed.

Lemma lookup_none_not_in (s : string) (es : list (string * node)) :
  lookup s es = None <-> ~ In s (map fst es).
Proof.
  induction es as [|[k n] r IH]; simpl.
  - tauto.
  - destruct (k =? s) eqn:E.
    + apply String.eqb_eq in E. split; [discriminate | tauto].
    + apply String.eqb_neq in E. rewrite IH. tauto.
Qed.

(** *** [get] and prefixes *)

Lemma is_prefix_app (p r : Path) : is_prefix p (p ++ r) = true.
Proof.
  induction p as [|a p IH]; simpl; [reflexivity|].
  now rewrite String.eqb_refl.
Qed.

Lemma is_prefix_split (p q : Path) :
  is_prefix p q = true -> exists r, q = p ++ r.
Proof.
  revert q. induction p as [|a p IH]; intros q H; simpl in *.
  - now exists q.
  - destruct q as [|b q]; [discriminate|].
    apply andb_true_iff in H. destruct H as [Hab Hp].
    apply String.eqb_eq in Hab. subst b.
    destruct (IH _ Hp) as [r ->]. now exists r.
Qed.

Lemma is_prefix_refl (p : Path) : is_prefix p p = true.
Proof. rewrite <- (app_nil_r p) at 2. apply is_prefix_app. Qed.

Lemma is_prefix_trans (p q r : Path) :
  is_prefix p q = true -> is_prefix q r = true -> is_prefix p r = true.
Proof.
  intros H1 H2. apply is_prefix_split in H1. apply is_prefix_split in H2.
  destruct H1 as [a ->]. destruct H2 as [b ->].
  rewrite <- app_assoc. apply is_prefix_app.
Qed.

Lemma get_app (n : node) (p q : Path) :
  get n (p ++ q) = match get n p with
                   | Some m => get m q
                   | None => None
                   end.
Proof.
  revert n. induction p as [|s p IH]; intros n; simpl; [reflexivity|].
  destruct n as [c|es|t]; try reflexivity.
  destruct (lookup s es); [apply IH | reflexivity].
Qed.

Lemma get_none_below (n : node) (p q : Path) :
  get n p = None -> get n (p ++ q) = None.
Proof. intros H. now rewrite get_app, H. Qed.

Lemma get_snoc_dir (n : node) (p : Path) (s : string) (es : list (string * node)) :
  get n p = Some (Dir es) -> get n (p ++ [s]) = lookup s es.
Proof.
  intros H. rewrite get_app, H. simpl. now destruct (lookup s es).
Qed.

(** *** [put] *)

Lemma put_app (n : node) (p q : Path) (v m : node) :
  get n p = Some m ->
  put n (p ++ q) v = put n p (put m q v).
Proof.
  revert n. induction p as [|s p IH]; intros n H; simpl in *.
  - now inversion H.
  - destruct n as [c|es|t]; try discriminate.
    destruct (lookup s es) as [c|] eqn:E; [|discriminate].
    destruct p as [|s' p]; simpl in *.
    + inversion H; subst. destruct q; reflexivity.
    + rewrite (IH c H). reflexivity.
Qed.

Lemma get_put_root_entry (es : list (string * node)) (s : string) (v : node)
  (q : Path) :
  get (Dir (set_entry s v es)) (s :: q) = get v q.
Proof. simpl. now rewrite lookup_set_entry_same. Qed.

Lemma get_put_same (n : node) (p : Path) (v : node) (es : list (string * node)) :
  get n (dirname p) = Some (Dir es) ->
  get (put n p v) p = Some v.
Proof.
  revert n. induction p as [|s p IH]; intros n H; [reflexivity|].
  destruct p as [|s' p].
  - simpl in *. inversion H; subst. simpl. now rewrite lookup_set_entry_same.
  - change (dirname (s :: s' :: p)) with (s :: dirname (s' :: p)) in H.
    simpl in H. destruct n as [c|es'|t]; try discriminate.
    destruct (lookup s es') as [c|] eqn:E; [|discriminate].
    change (put (Dir es') (s :: s' :: p) v)
      with (match lookup s es' with
            | Some c => Dir (set_entry s (put c (s' :: p) v) es')
            | None => Dir es'
            end).
    rewrite E. rewrite get_put_root_entry. now apply IH.
Qed.

Lemma get_put_below (n : node) (p q : Path) (v : node)
  (es : list (string * node)) :
  get n (dirname p) = Some (Dir es) ->
  get (put n p v) (p ++ q) = get v q.
Proof.
  intros H. rewrite get_app, (get_put_same _ _ _ _ H). reflexivity.
Qed.

(** Paths that are not below [p] and not above it are not touched. *)
Lemma get_put_other (n : node) (p q : Path) (v : node) :
  is_prefix p q = false -> is_prefix q p = false ->
  get (put n p v) q = get n q.
Proof.
  revert n q. induction p as [|s p IH]; intros n q Hpq Hqp.
  - discriminate.
  - destruct q as [|k q]; [discriminate|].
    simpl in Hpq, Hqp.
    destruct n as [c|es|t]; try reflexivity.
    destruct (String.eqb_spec s k) as [->|Hsk].
    + rewrite String.eqb_refl in Hqp. simpl in Hpq, Hqp.
      destruct p as [|s' p].
      * discriminate.
      * change (put (Dir es) (k :: s' :: p) v)
          with (match lookup k es with
                | Some c => Dir (set_entry k (put c (s' :: p) v) es)
                | None => Dir es
                end).
        destruct (lookup k es) as [c|] eqn:E; [|reflexivity].
        rewrite get_put_root_entry. simpl. rewrite E.
        now apply IH.
    + assert (Hks : k <> s) by congruence.
      destruct p as [|s' p].
      * simpl. now rewrite (lookup_set_entry_other _ _ _ _ Hks).
      * change (put (Dir es) (s :: s' :: p) v)
          with (match lookup s es with
                | Some c => Dir (set_entry s (put c (s' :: p) v) es)
                | None => Dir es
                end).
        destruct (lookup s es) as [c|] eqn:E; [|reflexivity].
        simpl. now rewrite (lookup_set_entry_other _ _ _ _ Hks).
Qed.

Lemma put_cons (es : list (string * node)) (s : string) (p : Path) (v : node) :
  put (Dir es) (s :: p) v =
  match p with
  | [] => Dir (set_entry s v es)
  | _ :: _ => match lookup s es with
              | Some c => Dir (set_entry s (put c p v) es)
              | None => Dir es
              end
  end.
Proof. destruct p; reflexivity. Qed.

(** A path above [p]: the node there is the old one with the same [put]
    made inside it. *)
Lemma get_put_above (n : node) (q r : Path) (v m : node) :
  get n q = Some m ->
  get (put n (q ++ r) v) q = Some (put m r v).
Proof.
  revert n. induction q as [|s q IH]; intros n H.
  - simpl in *. now inversion H.
  - simpl in H. destruct n as [c|es|t]; try discriminate.
    destruct (lookup s es) as [c|] eqn:E; [|discriminate].
    change ((s :: q) ++ r) with (s :: (q ++ r)). rewrite put_cons.
    case_eq (q ++ r).
    + intros Eq. apply app_eq_nil in Eq. destruct Eq as [-> ->].
      simpl in *. inversion H; subst. now rewrite lookup_set_entry_same.
    + intros s' p' Eq. rewrite E, <- Eq.
      simpl. rewrite lookup_set_entry_same. now apply IH.
Qed.

Lemma put_kind (m : node) (r : Path) (v : node) :
  r <> [] ->
  match m with
  | Dir _ => exists es', put m r v = Dir es'
  | _ => put m r v = m
  end.
Proof.
  intros Hr. destruct r as [|s r]; [congruence|].
  destruct m as [c|es|t]; try reflexivity.
  simpl. destruct r; [eauto|]. destruct (lookup s es); eauto.
Qed.

Lemma put_put_same (n : node) (p : Path) (v w : node) :
  put (put n p v) p w = put n p w.
Proof.
  revert n. induction p as [|s p IH]; intros n; [reflexivity|].
  destruct n as [c|es|t]; try reflexivity.
  destruct p as [|s' p].
  - simpl. now rewrite set_entry_twice.
  - change (put (Dir es) (s :: s' :: p) v)
      with (match lookup s es with
            | Some c => Dir (set_entry s (put c (s' :: p) v) es)
            | None => Dir es
            end).
    destruct (lookup s es) as [c|] eqn:E.
    + change (put (Dir (set_entry s (put c (s' :: p) v) es)) (s :: s' :: p) w)
        with (match lookup s (set_entry s (put c (s' :: p) v) es) with
              | Some c0 =>
                  Dir (set_entry s (put c0 (s' :: p) w)
                         (set_entry s (put c (s' :: p) v) es))
              | None => Dir (set_entry s (put c (s' :: p) v) es)
              end).
      rewrite lookup_set_entry_same, set_entry_twice, IH.
      simpl. now rewrite E.
    + simpl. now rewrite E.
Qed.

(** Writing a new entry into a directory that was just stored. *)
Lemma put_child_fresh (n : node) (p : Path) (s : string) (v : node)
  (es es0 : list (string * node)) :
  get n (dirname p) = Some (Dir es0) ->
  lookup s es = None ->
  put (put n p (Dir es)) (p ++ [s]) v = put n p (Dir (es ++ [(s, v)])).
Proof.
  intros Hpar Hs.
  rewrite (put_app _ p [s] v (Dir es)).
  - rewrite put_put_same. simpl. now rewrite set_entry_fresh.
  - now apply get_put_same with es0.
Qed.

End TreeFacts.

(* ===================================================================== *)
(** ** The order of a listing *)
(* ===================================================================== *)

Module SortFacts.
Import PathLib Fs Deploy Shape.

Lemma insert_entry_perm (e : string * node) (l : list (string * node)) :
  Permutation (insert_entry e l) (e :: l).
Proof.
  induction l as [|x r IH]; simpl; [apply Permutation_refl|].
  destruct (String.leb (fst e) (fst x)); [apply Permutation_refl|].
  eapply Permutation_trans; [apply perm_skip, IH | apply perm_swap].
Qed.

Lemma sort_entries_perm (l : list (string * node)) :
  Permutation (sort_entries l) l.
Proof.
  induction l as [|e r IH]; simpl; [apply perm_nil|].
  eapply Permutation_trans; [apply insert_entry_perm | now apply perm_skip].
Qed.

Lemma sort_entries_in (l : list (string * node)) (e : string * node) :
  In e (sort_entries l) <-> In e l.
Proof.
  split; apply Permutation_in;
    [apply sort_entries_perm | apply Permutation_sym, sort_entries_perm].
Qed.

Lemma sort_entries_length (l : list (string * node)) :
  List.length (sort_entries l) = List.length l.
Proof. apply Permutation_length, sort_entries_perm. Qed.

Lemma forallb_perm {A} (f : A -> bool) (l l' : list A) :
  Permutation l l' -> forallb f l = true -> forallb f l' = true.
Proof.
  intros P H. apply forallb_forall. intros x Hx.
  rewrite forallb_forall in H. apply H.
  now apply (Permutation_in x (Permutation_sym P)).
Qed.

Lemma nodupb_NoDup (l : list string) : nodupb l = true <-> NoDup l.
Proof.
  induction l as [|x r IH]; simpl.
  - split; [constructor | reflexivity].
  - rewrite andb_true_iff, negb_true_iff, IH. split.
    + intros [Hx Hr]. constructor; [|exact Hr].
      intros Hin. assert (K : existsb (String.eqb x) r = true).
      { apply existsb_exists. exists x. split; [exact Hin|].
        apply String.eqb_refl. }
      congruence.
    + intros H. inversion H as [|? ? Hx Hr]; subst. split; [|exact Hr].
      destruct (existsb (String.eqb x) r) eqn:E; [|reflexivity].
      apply existsb_exists in E. destruct E as (y & Hy & Exy).
      apply String.eqb_eq in Exy. subst y. contradiction.
Qed.

Lemma nodupb_perm (l l' : list string) :
  Permutation l l' -> nodupb l = true -> nodupb l' = true.
Proof.
  intros P H. apply nodupb_NoDup. apply nodupb_NoDup in H.
  now apply (Permutation_NoDup P).
Qed.

Lemma sort_entries_names (l : list (string * node)) :
  Permutation (map fst (sort_entries l)) (map fst l).
Proof. apply Permutation_map, sort_entries_perm. Qed.

Lemma sort_entries_valid (l : list (string * node)) :
  forallb valid_name (map fst l) = true ->
  forallb valid_name (map fst (sort_entries l)) = true.
Proof.
  apply forallb_perm, Permutation_sym, sort_entries_names.
Qed.

Lemma sort_entries_nodup (l : list (string * node)) :
  nodupb (map fst l) = true -> nodupb (map fst (sort_entries l)) = true.
Proof.
  apply nodupb_perm, Permutation_sym, sort_entries_names.
Qed.

(** Sorting and then changing the objects, the names being kept, is
    changing the objects and then sorting. *)
Lemma insert_entry_map (f : string -> node -> node) (e : string * node)
  (l : list (string * node)) :
  map (fun x => (fst x, f (fst x) (snd x))) (insert_entry e l)
  = insert_entry (fst e, f (fst e) (snd e))
      (map (fun x => (fst x, f (fst x) (snd x))) l).
Proof.
  induction l as [|x r IH]; simpl; [reflexivity|].
  destruct (String.leb (fst e) (fst x)); simpl; [reflexivity|].
  now rewrite IH.
Qed.

Lemma materialize_all_insert (fs : node) (at_ : Path) (e : string * node)
  (c : node) (l l' : list (string * node)) :
  materialize fs (at_ ++ [fst e]) (snd e) = Some c ->
  materialize_all fs at_ l = Some l' ->
  materialize_all fs at_ (insert_entry e l)
  = Some (insert_entry (fst e, c) l').
Proof.
  intros He. revert l'. induction l as [|x r IH]; intros l' H.
  - simpl in *. inversion H; subst l'. now rewrite He.
  - simpl in H.
    destruct (materialize fs (at_ ++ [fst x]) (snd x)) as [cx|] eqn:Ex;
      [|discriminate].
    destruct (materialize_all fs at_ r) as [r'|] eqn:Er; [|discriminate].
    inversion H; subst l'. simpl.
    destruct (String.leb (fst e) (fst x)).
    + simpl. now rewrite He, Ex, Er.
    + simpl. now rewrite Ex, (IH r' eq_refl).
Qed.

Lemma materialize_all_sort (fs : node) (at_ : Path)
  (l l' : list (string * node)) :
  materialize_all fs at_ l = Some l' ->
  materialize_all fs at_ (sort_entries l) = Some (sort_entries l').
Proof.
  revert l'. induction l as [|e r IH]; intros l' H.
  - simpl in *. now inversion H.
  - simpl in H.
    destruct (materialize fs (at_ ++ [fst e]) (snd e)) as [c|] eqn:Ee;
      [|discriminate].
    destruct (materialize_all fs at_ r) as [r'|] eqn:Er; [|discriminate].
    inversion H; subst l'. simpl.
    apply (materialize_all_insert fs at_ e c); [exact Ee | now apply IH].
Qed.

Lemma leb_refl (a : string) : String.leb a a = true.
Proof. now destruct (String.leb_total a a). Qed.

(** The listing is stable, so a name leads to the same entry before and
    after. *)
Lemma lookup_insert_entry (k : string) (e : string * node)
  (l : list (string * node)) :
  lookup k (insert_entry e l)
  = if fst e =? k then Some (snd e) else lookup k l.
Proof.
  induction l as [|x r IH]; simpl.
  - destruct e as [a n]. reflexivity.
  - destruct (String.leb (fst e) (fst x)) eqn:L.
    + destruct e as [a n]. reflexivity.
    + destruct x as [b m]. simpl in *. rewrite IH.
      destruct (String.eqb_spec b k) as [->|Hb]; [|reflexivity].
      destruct (String.eqb_spec (fst e) k) as [E|_]; [|reflexivity].
      rewrite E, leb_refl in L. discriminate.
Qed.

Lemma lookup_sort_entries (k : string) (l : list (string * node)) :
  lookup k (sort_entries l) = lookup k l.
Proof.
  induction l as [|[a n] r IH]; [reflexivity|].
  simpl. now rewrite lookup_insert_entry, IH.
Qed.




End SortFacts.

(* ===================================================================== *)
(** ** Path lookup where no link is met *)
(* ===================================================================== *)

Module WalkFacts.
Import PathLib Fs PathFacts TreeFacts Shape.

Lemma valid_name_step (s : string) :
  valid_name s = true ->
  ((s =? "") || (s =? ".")) = false /\ (s =? "..") = false.
Proof.
  intros H. apply valid_name_parts in H. destruct H as (H1 & H2 & H3 & _).
  now rewrite H1, H2, H3.
Qed.

Lemma get_cons_inv (n : node) (s : string) (r : Path) (m : node) :
  get n (s :: r) = Some m ->
  exists es c, n = Dir es /\ lookup s es = Some c /\ get c r = Some m.
Proof.
  simpl. destruct n as [c|es|t]; try discriminate.
  destruct (lookup s es) as [c|] eqn:E; [|discriminate].
  intros H. now exists es, c.
Qed.

Lemma get_through_link (t : string) (r : Path) (m : node) :
  get (Symlink t) r = Some m -> r = [] /\ m = Symlink t.
Proof. destruct r; simpl; [intros H; inversion H; auto | discriminate]. Qed.

Lemma get_through_file (c : string) (r : Path) (m : node) :
  get (File c) r = Some m -> r = [] /\ m = File c.
Proof. destruct r; simpl; [intros H; inversion H; auto | discriminate]. Qed.

(** Going down real directories is one [get]. *)
Lemma descend_app (fs : node) (follow : bool) (r : Path) :
  forall (cur : Path) (rest : list string) (es : list (string * node)),
    normalized r = true ->
    get fs (cur ++ r) = Some (Dir es) ->
    descend fs follow cur (r ++ rest) = descend fs follow (cur ++ r) rest.
Proof.
  induction r as [|s r IH]; intros cur rest es Hn Hg.
  - now rewrite app_nil_r.
  - simpl in Hn. apply andb_true_iff in Hn. destruct Hn as [Hs Hr].
    rewrite get_app in Hg. destruct (get fs cur) as [m|] eqn:Ec; [|discriminate].
    destruct (get_cons_inv _ _ _ _ Hg) as (es0 & c & -> & El & Hc).
    destruct (valid_name_step _ Hs) as [H1 H2].
    simpl. rewrite Ec, H1, H2, El.
    assert (Hnext : descend fs follow (cur ++ [s]) (r ++ rest)
                    = descend fs follow (cur ++ s :: r) rest).
    { replace (cur ++ s :: r) with ((cur ++ [s]) ++ r)
        by now rewrite <- app_assoc.
      apply (IH (cur ++ [s]) rest es Hr).
      rewrite <- app_assoc. simpl.
      rewrite get_app, Ec. simpl. now rewrite El. }
    destruct c as [c|es1|t].
    + apply get_through_file in Hc. destruct Hc as [_ Hc]. discriminate.
    + exact Hnext.
    + apply get_through_link in Hc. destruct Hc as [_ Hc]. discriminate.
Qed.

(** The last step, from the directory that holds the name. *)
Lemma descend_last (fs : node) (follow : bool) (cur : Path) (s : string)
  (es : list (string * node)) :
  valid_name s = true ->
  get fs cur = Some (Dir es) ->
  descend fs follow cur [s] =
  match lookup s es with
  | None => Done (Vacant (cur ++ [s]))
  | Some (Symlink t) =>
      if follow then Jump cur t [] else Done (Found (cur ++ [s]) (Symlink t))
  | Some n => Done (Found (cur ++ [s]) n)
  end.
Proof.
  intros Hs Hg. destruct (valid_name_step _ Hs) as [H1 H2].
  simpl. rewrite Hg, H1, H2.
  destruct (lookup s es) as [[c|es1|t]|] eqn:El; try reflexivity.
  - rewrite (get_snoc_dir _ _ _ _ Hg), El. reflexivity.
  - rewrite (get_snoc_dir _ _ _ _ Hg), El. reflexivity.
Qed.

Lemma descend_missing (fs : node) (follow : bool) (cur : Path) (s s' : string)
  (rest : list string) (es : list (string * node)) :
  valid_name s = true ->
  get fs cur = Some (Dir es) ->
  lookup s es = None ->
  descend fs follow cur (s :: s' :: rest) = Fail ENOENT.
Proof.
  intros Hs Hg El. destruct (valid_name_step _ Hs) as [H1 H2].
  simpl. now rewrite Hg, H1, H2, El.
Qed.

Lemma namei_of_descend (fs : node) (follow : bool) (p : Path) (l : located) :
  descend fs follow [] p = Done l -> namei fs follow p = Ok l.
Proof.
  intros H. unfold namei, max_hops. simpl. now rewrite H.
Qed.

(** [lstat] of a path whose parent is a real directory. *)
Lemma namei_nofollow_plain (fs : node) (q : Path) (s : string)
  (es : list (string * node)) :
  normalized (q ++ [s]) = true ->
  get fs q = Some (Dir es) ->
  namei fs false (q ++ [s]) =
  Ok (match lookup s es with
      | Some n => Found (q ++ [s]) n
      | None => Vacant (q ++ [s])
      end).
Proof.
  intros Hn Hg. rewrite normalized_app in Hn.
  apply andb_true_iff in Hn. destruct Hn as [Hq Hs].
  simpl in Hs. rewrite andb_true_r in Hs.
  apply namei_of_descend.
  rewrite (descend_app fs false q [] [s] es Hq Hg).
  simpl app at 1. rewrite (descend_last fs false q s es Hs Hg).
  destruct (lookup s es) as [[c|es1|t]|]; reflexivity.
Qed.

(** [stat] of a path whose parent is a real directory, when the object is
    not a link. *)
Lemma namei_follow_plain (fs : node) (q : Path) (s : string)
  (es : list (string * node)) :
  normalized (q ++ [s]) = true ->
  get fs q = Some (Dir es) ->
  match lookup s es with
  | Some (Symlink _) => True
  | Some n => namei fs true (q ++ [s]) = Ok (Found (q ++ [s]) n)
  | None => namei fs true (q ++ [s]) = Ok (Vacant (q ++ [s]))
  end.
Proof.
  intros Hn Hg. rewrite normalized_app in Hn.
  apply andb_true_iff in Hn. destruct Hn as [Hq Hs].
  simpl in Hs. rewrite andb_true_r in Hs.
  pose proof (descend_app fs true q [] [s] es Hq Hg) as Ha.
  simpl app at 2 in Ha. rewrite (descend_last fs true q s es Hs Hg) in Ha.
  destruct (lookup s es) as [[c|es1|t]|]; try exact I;
    now apply namei_of_descend.
Qed.

Lemma namei_root (fs : node) (follow : bool) :
  namei fs follow [] = Ok (Found [] fs).
Proof. reflexivity. Qed.

(** Any existing object that is not a link is found where it is. *)
Lemma namei_get (fs : node) (follow : bool) (p : Path) (n : node) :
  normalized p = true ->
  get fs p = Some n ->
  isSymbolicLink n = false \/ follow = false ->
  namei fs follow p = Ok (Found p n).
Proof.
  intros Hn Hg Hk.
  destruct (list_eq_dec string_dec p []) as [->|Hne].
  { simpl in Hg. inversion Hg. reflexivity. }
  destruct (exists_last Hne) as [q [s ->]].
  - assert (Hq : exists es, get fs q = Some (Dir es)).
    { rewrite get_app in Hg. destruct (get fs q) as [m|]; [|discriminate].
      destruct (get_cons_inv _ _ _ _ Hg) as (es & c & -> & _). now exists es. }
    destruct Hq as [es Hq].
    assert (El : lookup s es = Some n)
      by now rewrite <- (get_snoc_dir _ _ _ _ Hq).
    destruct follow.
    + pose proof (namei_follow_plain fs q s es Hn Hq) as H.
      rewrite El in H. destruct n; try exact H.
      destruct Hk; discriminate.
    + rewrite (namei_nofollow_plain fs q s es Hn Hq), El. reflexivity.
Qed.

Lemma namei_vacant (fs : node) (follow : bool) (q : Path) (s : string)
  (es : list (string * node)) :
  normalized (q ++ [s]) = true ->
  get fs q = Some (Dir es) ->
  lookup s es = None ->
  namei fs follow (q ++ [s]) = Ok (Vacant (q ++ [s])).
Proof.
  intros Hn Hg El. destruct follow.
  - pose proof (namei_follow_plain fs q s es Hn Hg) as H.
    now rewrite El in H.
  - now rewrite (namei_nofollow_plain fs q s es Hn Hg), El.
Qed.

(** *** The calls on such paths *)

Lemma statSync_get (fs : node) (p : Path) (n : node) :
  normalized p = true -> get fs p = Some n -> isSymbolicLink n = false ->
  statSync fs p = Ok n.
Proof.
  intros Hn Hg Hk. unfold statSync.
  now rewrite (namei_get fs true p n Hn Hg (or_introl Hk)).
Qed.

Lemma lstatSync_get (fs : node) (p : Path) (n : node) :
  normalized p = true -> get fs p = Some n -> lstatSync fs p = Ok n.
Proof.
  intros Hn Hg. unfold lstatSync.
  now rewrite (namei_get fs false p n Hn Hg (or_intror eq_refl)).
Qed.

Lemma existsSync_get (fs : node) (p : Path) (n : node) :
  normalized p = true -> get fs p = Some n -> isSymbolicLink n = false ->
  existsSync fs p = true.
Proof.
  intros Hn Hg Hk. unfold existsSync. now rewrite (statSync_get fs p n).
Qed.

Lemma existsSync_vacant (fs : node) (q : Path) (s : string)
  (es : list (string * node)) :
  normalized (q ++ [s]) = true ->
  get fs q = Some (Dir es) -> lookup s es = None ->
  existsSync fs (q ++ [s]) = false.
Proof.
  intros Hn Hg El. unfold existsSync, statSync.
  now rewrite (namei_vacant fs true q s es Hn Hg El).
Qed.

Lemma readFileSync_get (fs : node) (p : Path) (c : string) :
  normalized p = true -> get fs p = Some (File c) ->
  readFileSync fs p = Ok c.
Proof.
  intros Hn Hg. unfold readFileSync.
  now rewrite (statSync_get fs p (File c) Hn Hg eq_refl).
Qed.

Lemma readdirSync_get (fs : node) (p : Path) (es : list (string * node)) :
  normalized p = true -> get fs p = Some (Dir es) ->
  readdirSync fs p = Ok (sort_entries es).
Proof.
  intros Hn Hg. unfold readdirSync.
  now rewrite (statSync_get fs p (Dir es) Hn Hg eq_refl).
Qed.

Lemma writeFileSync_vacant (fs : node) (q : Path) (s data : string)
  (es : list (string * node)) :
  normalized (q ++ [s]) = true ->
  get fs q = Some (Dir es) -> lookup s es = None ->
  writeFileSync fs (q ++ [s]) data = Ok (put fs (q ++ [s]) (File data)).
Proof.
  intros Hn Hg El. unfold writeFileSync.
  now rewrite (namei_vacant fs true q s es Hn Hg El).
Qed.

Lemma writeFileSync_over (fs : node) (p : Path) (c data : string) :
  normalized p = true -> get fs p = Some (File c) ->
  writeFileSync fs p data = Ok (put fs p (File data)).
Proof.
  intros Hn Hg. unfold writeFileSync.
  now rewrite (namei_get fs true p (File c) Hn Hg (or_introl eq_refl)).
Qed.

Lemma symlinkSync_vacant (fs : node) (q : Path) (s t : string)
  (es : list (string * node)) :
  normalized (q ++ [s]) = true ->
  get fs q = Some (Dir es) -> lookup s es = None ->
  symlinkSync fs t (q ++ [s]) = Ok (put fs (q ++ [s]) (Symlink t)).
Proof.
  intros Hn Hg El. unfold symlinkSync.
  now rewrite (namei_vacant fs false q s es Hn Hg El).
Qed.

Lemma rmSync_rf_get (fs : node) (q : Path) (s : string) (n : node) :
  normalized (q ++ [s]) = true -> get fs (q ++ [s]) = Some n ->
  rmSync_rf fs (q ++ [s]) = Ok (del fs (q ++ [s])).
Proof.
  intros Hn Hg. unfold rmSync_rf.
  rewrite (namei_get fs false _ n Hn Hg (or_intror eq_refl)).
  destruct (q ++ [s]) eqn:E; [|reflexivity].
  now apply app_eq_nil in E.
Qed.

End WalkFacts.

(* ===================================================================== *)
(** ** Removal, creation of directories, and trees that grow *)
(* ===================================================================== *)

Module GrowFacts.
Import PathLib Fs PathFacts TreeFacts Shape WalkFacts.

Lemma set_entry_lookup (s : string) (c : node) (es : list (string * node)) :
  lookup s es = Some c -> set_entry s c es = es.
Proof.
  induction es as [|[k n] r IH]; simpl; [discriminate|].
  destruct (k =? s) eqn:E.
  - intros H. inversion H. reflexivity.
  - intros H. now rewrite IH.
Qed.

(** *** [del] *)

Lemma del_cons (es : list (string * node)) (s : string) (p : Path) :
  del (Dir es) (s :: p) =
  match p with
  | [] => Dir (del_entry s es)
  | _ :: _ => match lookup s es with
              | Some c => Dir (set_entry s (del c p) es)
              | None => Dir es
              end
  end.
Proof. destruct p; reflexivity. Qed.

Lemma get_del_same (n : node) (p : Path) :
  p <> [] -> get (del n p) p = None.
Proof.
  revert n. induction p as [|s p IH]; intros n Hp; [congruence|].
  destruct n as [c|es|t]; try reflexivity.
  rewrite del_cons. destruct p as [|s' p].
  - simpl. now rewrite lookup_del_entry_same.
  - destruct (lookup s es) as [c|] eqn:E.
    + rewrite get_put_root_entry. apply IH. discriminate.
    + simpl. now rewrite E.
Qed.

Lemma get_del_other (n : node) (p q : Path) :
  is_prefix p q = false -> is_prefix q p = false ->
  get (del n p) q = get n q.
Proof.
  revert n q. induction p as [|s p IH]; intros n q Hpq Hqp.
  - discriminate.
  - destruct q as [|k q]; [discriminate|].
    simpl in Hpq, Hqp.
    destruct n as [c|es|t]; try reflexivity.
    rewrite del_cons.
    destruct (String.eqb_spec s k) as [->|Hsk].
    + rewrite String.eqb_refl in Hqp. simpl in Hpq, Hqp.
      destruct p as [|s' p]; [discriminate|].
      destruct (lookup k es) as [c|] eqn:E; [|reflexivity].
      rewrite get_put_root_entry. simpl. rewrite E. now apply IH.
    + assert (Hks : k <> s) by congruence.
      destruct p as [|s' p].
      * simpl. now rewrite (lookup_del_entry_other _ _ _ Hks).
      * destruct (lookup s es) as [c|] eqn:E; [|reflexivity].
        simpl. now rewrite (lookup_set_entry_other _ _ _ _ Hks).
Qed.

(** Above a removed object the directories are still directories. *)
Lemma get_del_above (n : node) (q r : Path) (m : node) :
  r <> [] ->
  get n q = Some m ->
  get (del n (q ++ r)) q = Some (del m r).
Proof.
  intros Hr. revert n. induction q as [|s q IH]; intros n H.
  - simpl in *. now inversion H.
  - simpl in H. destruct n as [c|es|t]; try discriminate.
    destruct (lookup s es) as [c|] eqn:E; [|discriminate].
    change ((s :: q) ++ r) with (s :: (q ++ r)). rewrite del_cons.
    case_eq (q ++ r).
    + intros Eq. apply app_eq_nil in Eq. destruct Eq as [_ ->]. congruence.
    + intros s' p' Eq. rewrite E, <- Eq.
      simpl. rewrite lookup_set_entry_same. now apply IH.
Qed.

Lemma del_kind (m : node) (r : Path) :
  match m with
  | Dir _ => exists es', del m r = Dir es'
  | _ => del m r = m
  end.
Proof.
  destruct r as [|s r]; destruct m as [c|es|t]; try reflexivity.
  - now exists es.
  - rewrite del_cons. destruct r; [eauto|]. destruct (lookup s es); eauto.
Qed.

(** *** [dirs_along] and [mkdirs] *)

Lemma dirs_along_dir (n : node) (p : Path) :
  dirs_along n p = true -> exists es, n = Dir es.
Proof. destruct n as [c|es|t]; destruct p; simpl; try discriminate; eauto. Qed.

Lemma dirs_along_get (n : node) (p : Path) (m : node) :
  dirs_along n p = true -> get n p = Some m -> exists es, m = Dir es.
Proof.
  revert n. induction p as [|s p IH]; intros n Hd Hg.
  - simpl in Hg. inversion Hg; subst. eapply dirs_along_dir; eauto.
  - destruct (get_cons_inv _ _ _ _ Hg) as (es & c & -> & El & Hc).
    simpl in Hd. rewrite El in Hd. eauto.
Qed.

Lemma dirs_along_app (n : node) (p q : Path) (m : node) :
  dirs_along n (p ++ q) = true -> get n p = Some m -> dirs_along m q = true.
Proof.
  revert n. induction p as [|s p IH]; intros n Hd Hg.
  - simpl in *. now inversion Hg; subst.
  - destruct (get_cons_inv _ _ _ _ Hg) as (es & c & -> & El & Hc).
    simpl in Hd. rewrite El in Hd. eauto.
Qed.

Lemma dirs_along_prefix (n : node) (p q : Path) :
  dirs_along n (p ++ q) = true -> dirs_along n p = true.
Proof.
  revert n. induction p as [|s p IH]; intros n Hd.
  - destruct (dirs_along_dir _ _ Hd) as [es ->]. reflexivity.
  - destruct (dirs_along_dir _ _ Hd) as [es ->]. simpl in *.
    destruct (lookup s es); [eauto | reflexivity].
Qed.

Lemma dirs_along_snoc (n : node) (p : Path) (s : string)
  (es : list (string * node)) :
  get n p = Some (Dir es) ->
  match lookup s es with
  | Some (Dir _) => True
  | Some _ => False
  | None => True
  end ->
  dirs_along n p = true ->
  dirs_along n (p ++ [s]) = true.
Proof.
  revert n. induction p as [|k p IH]; intros n Hg Hl Hd.
  - simpl in Hg. inversion Hg; subst. simpl.
    destruct (lookup s es) as [[c|es1|t]|]; try reflexivity; contradiction.
  - destruct (get_cons_inv _ _ _ _ Hg) as (es0 & c & -> & El & Hc).
    simpl in *. rewrite El in *. eauto.
Qed.

Lemma mkdirs_existing (n : node) (p : Path) (m : node) :
  get n p = Some m -> mkdirs n p = n.
Proof.
  revert n. induction p as [|s p IH]; intros n Hg; [reflexivity|].
  destruct (get_cons_inv _ _ _ _ Hg) as (es & c & -> & El & Hc).
  simpl. rewrite El, (IH _ Hc). now rewrite set_entry_lookup.
Qed.

Lemma mkdirs_snoc (n : node) (q : Path) (s : string) :
  dirs_along n (q ++ [s]) = true ->
  get n (q ++ [s]) = None ->
  mkdirs n (q ++ [s]) = put (mkdirs n q) (q ++ [s]) (Dir []).
Proof.
  revert n. induction q as [|a q IH]; intros n Hd Hg.
  - destruct (dirs_along_dir _ _ Hd) as [es ->]. simpl in *.
    destruct (lookup s es); [discriminate | reflexivity].
  - destruct (dirs_along_dir _ _ Hd) as [es ->].
    change ((a :: q) ++ [s]) with (a :: (q ++ [s])) in *.
    simpl in Hd, Hg. simpl mkdirs. rewrite put_cons.
    rewrite lookup_set_entry_same.
    case_eq (q ++ [s]); [intros Eq; now apply app_eq_nil in Eq|].
    intros s0 l Eq. rewrite <- Eq. rewrite set_entry_twice.
    destruct (lookup a es) as [c|] eqn:El.
    + now rewrite (IH c Hd Hg).
    + rewrite (IH (Dir [])); [reflexivity | | ]; rewrite Eq; reflexivity.
Qed.

Lemma get_mkdirs_same (n : node) (p : Path) :
  dirs_along n p = true -> get n p = None ->
  get (mkdirs n p) p = Some (Dir []).
Proof.
  revert n. induction p as [|s p IH]; intros n Hd Hg; [discriminate|].
  destruct (dirs_along_dir _ _ Hd) as [es ->]. simpl in *.
  rewrite lookup_set_entry_same.
  destruct (lookup s es) as [c|] eqn:El.
  - now apply IH.
  - destruct p as [|s' p]; [reflexivity|]. now apply IH.
Qed.

Lemma get_mkdirs_parent (n : node) (q : Path) (s : string) :
  dirs_along n (q ++ [s]) = true ->
  exists es, get (mkdirs n q) q = Some (Dir es).
Proof.
  intros Hd. pose proof (dirs_along_prefix _ _ _ Hd) as Hq.
  destruct (get n q) as [m|] eqn:Eg.
  - rewrite (mkdirs_existing _ _ _ Eg), Eg.
    destruct (dirs_along_get _ _ _ Hq Eg) as [es ->]. eauto.
  - rewrite (get_mkdirs_same _ _ Hq Eg). eauto.
Qed.

Lemma get_mkdirs_other (n : node) (p q : Path) :
  is_prefix p q = false -> is_prefix q p = false ->
  get (mkdirs n p) q = get n q.
Proof.
  revert n q. induction p as [|s p IH]; intros n q Hpq Hqp.
  - discriminate.
  - destruct q as [|k q]; [discriminate|].
    simpl in Hpq, Hqp.
    destruct n as [c|es|t]; try reflexivity.
    simpl mkdirs.
    destruct (String.eqb_spec s k) as [->|Hsk].
    + rewrite String.eqb_refl in Hqp. simpl in Hpq, Hqp.
      rewrite get_put_root_entry. simpl.
      destruct (lookup k es) as [c|] eqn:E.
      * now apply IH.
      * rewrite IH by assumption. now destruct q.
    + assert (Hks : k <> s) by congruence.
      simpl. now rewrite (lookup_set_entry_other _ _ _ _ Hks).
Qed.

(** *** Trees that only grow *)

Lemma same_kind_refl (n : node) : same_kind n n.
Proof. destruct n; simpl; eauto. Qed.

Lemma same_kind_trans (a b c : node) :
  same_kind a b -> same_kind b c -> same_kind a c.
Proof.
  destruct a; simpl.
  - intros ->. simpl. auto.
  - intros [es ->]. simpl. auto.
  - intros ->. simpl. auto.
Qed.

Lemma extends_refl (fs : node) : extends fs fs.
Proof. intros p n H. exists n. split; [exact H | apply same_kind_refl]. Qed.

Lemma extends_trans (a b c : node) :
  extends a b -> extends b c -> extends a c.
Proof.
  intros Hab Hbc p n H.
  destruct (Hab p n H) as (m & Hm & K1).
  destruct (Hbc p m Hm) as (m' & Hm' & K2).
  exists m'. split; [exact Hm' | eapply same_kind_trans; eauto].
Qed.

Lemma is_prefix_false_split (p d : Path) :
  is_prefix d p = false ->
  (exists r, r <> [] /\ d = p ++ r) \/
  (is_prefix p d = false /\ is_prefix d p = false).
Proof.
  intros Hdp. destruct (is_prefix p d) eqn:Hpd.
  - left. destruct (is_prefix_split _ _ Hpd) as [r ->].
    exists r. split; [|reflexivity].
    intros ->. rewrite app_nil_r, is_prefix_refl in Hdp. discriminate.
  - right. auto.
Qed.

(** Storing something below a place that is empty in [fs0] keeps every
    object of [fs0]. *)
Lemma extends_put (fs0 fs : node) (t d : Path) (v : node) :
  extends fs0 fs -> get fs0 t = None -> is_prefix t d = true ->
  extends fs0 (put fs d v).
Proof.
  intros Hext Ht Htd p n Hp.
  assert (Hdp : is_prefix d p = false).
  { destruct (is_prefix d p) eqn:E; [|reflexivity].
    pose proof (is_prefix_trans _ _ _ Htd E) as Htp.
    destruct (is_prefix_split _ _ Htp) as [r ->].
    rewrite (get_none_below _ _ _ Ht) in Hp. discriminate. }
  destruct (Hext p n Hp) as (m & Hm & K).
  destruct (is_prefix_false_split _ _ Hdp) as [(r & Hr & ->) | [H1 H2]].
  - rewrite (get_put_above _ _ _ _ _ Hm). eexists. split; [reflexivity|].
    pose proof (put_kind m r v Hr) as Hk.
    destruct n; simpl in K.
    + subst m. simpl in Hk. now rewrite Hk.
    + destruct K as [es ->]. simpl in Hk. destruct Hk as [es' ->]. simpl. eauto.
    + subst m. simpl in Hk. now rewrite Hk.
  - rewrite (get_put_other _ _ _ _ H2 H1). eauto.
Qed.

Lemma extends_mkdirs (n : node) (p : Path) :
  dirs_along n p = true -> extends n (mkdirs n p).
Proof.
  revert n. induction p as [|s p IH]; intros n Hd.
  - apply extends_refl.
  - destruct (dirs_along_dir _ _ Hd) as [es ->]. simpl in Hd.
    intros q m Hq. simpl mkdirs.
    destruct q as [|k q].
    + simpl in *. inversion Hq; subst. eexists. split; [reflexivity|].
      simpl. eauto.
    + destruct (get_cons_inv _ _ _ _ Hq) as (es0 & c & E0 & El & Hc).
      inversion E0; subst es0.
      destruct (String.eqb_spec k s) as [->|Hks].
      * rewrite get_put_root_entry. rewrite El in *.
        apply (IH c Hd q m Hc).
      * simpl. rewrite (lookup_set_entry_other _ _ _ _ Hks), El.
        exists m. split; [exact Hc | apply same_kind_refl].
Qed.

(** A lookup that succeeds in [fs0] gives the same answer in a tree that
    extends it. *)
Lemma descend_extends (fs0 fs : node) (follow : bool) (rest : list string) :
  extends fs0 fs ->
  forall cur,
    match descend fs0 follow cur rest with
    | Done (Found p n) =>
        exists m, descend fs follow cur rest = Done (Found p m) /\ same_kind n m
    | Jump d t r => descend fs follow cur rest = Jump d t r
    | _ => True
    end.
Proof.
  intros Hext. induction rest as [|s rest IH]; intros cur.
  - simpl. destruct (get fs0 cur) as [n|] eqn:E; [|exact I].
    destruct (Hext _ _ E) as (m & Hm & K). rewrite Hm. eauto.
  - simpl. destruct (get fs0 cur) as [[c|es0|t]|] eqn:E; try exact I.
    destruct (Hext _ _ E) as (m & Hm & [es Em]). subst m. rewrite Hm.
    destruct ((s =? "") || (s =? ".")); [apply IH|].
    destruct (s =? ".."); [apply IH|].
    destruct (lookup s es0) as [c0|] eqn:El.
    + assert (Hg0 : get fs0 (cur ++ [s]) = Some c0)
        by now rewrite (get_snoc_dir _ _ _ _ E).
      destruct (Hext _ _ Hg0) as (m & Hm' & K).
      rewrite (get_snoc_dir _ _ _ _ Hm) in Hm'. rewrite Hm'.
      destruct c0 as [c|es1|t]; simpl in K.
      * subst m. apply IH.
      * destruct K as [es' ->]. apply IH.
      * subst m. destruct rest; [destruct follow|]; simpl; eauto.
    + destruct rest; exact I.
Qed.

Lemma namei_from_extends (fs0 fs : node) (follow : bool) (hops : nat) :
  extends fs0 fs ->
  forall cur rest p n,
    namei_from hops fs0 follow cur rest = Ok (Found p n) ->
    exists m, namei_from hops fs follow cur rest = Ok (Found p m) /\ same_kind n m.
Proof.
  intros Hext. induction hops as [|h IH]; intros cur rest p n H.
  - simpl in *. pose proof (descend_extends fs0 fs follow rest Hext cur) as D.
    destruct (descend fs0 follow cur rest) as [[q k|q]|e|d t r]; try discriminate.
    inversion H; subst. destruct D as (m & -> & K). eauto.
  - simpl in *. pose proof (descend_extends fs0 fs follow rest Hext cur) as D.
    destruct (descend fs0 follow cur rest) as [[q k|q]|e|d t r]; try discriminate.
    + inversion H; subst. destruct D as (m & -> & K). eauto.
    + rewrite D. destruct (t =? ""); [discriminate|]. now apply IH.
Qed.

Lemma readFileSync_extends (fs0 fs : node) (p : Path) (c : string) :
  extends fs0 fs -> readFileSync fs0 p = Ok c -> readFileSync fs p = Ok c.
Proof.
  intros Hext. unfold readFileSync, statSync, namei.
  destruct (namei_from max_hops fs0 true [] p) as [[q n|q]|e] eqn:E;
    try discriminate.
  destruct (namei_from_extends fs0 fs true max_hops Hext _ _ _ _ E)
    as (m & -> & K).
  destruct n as [c'|es|t]; try discriminate.
  simpl in K. subst m. auto.
Qed.

End GrowFacts.

(* ===================================================================== *)
(** ** [fs.copyFileSync] *)
(* ===================================================================== *)

Module CopyFile.
Import PathLib Fs Deploy PathFacts TreeFacts Shape WalkFacts GrowFacts.

Lemma put_same (n : node) (p : Path) (m : node) :
  get n p = Some m -> put n p m = n.
Proof.
  revert n. induction p as [|s p IH]; intros n H.
  - simpl in *. now inversion H.
  - destruct (get_cons_inv _ _ _ _ H) as (es & c & -> & El & Hc).
    rewrite put_cons. destruct p as [|b p].
    + simpl in Hc. inversion Hc; subst c. now rewrite set_entry_lookup.
    + rewrite El, (IH c Hc). now rewrite set_entry_lookup.
Qed.

(** What a walk finds is in the tree, at the place the walk reports. *)
Lemma descend_found (fs : node) (follow : bool) (rest : list string) :
  forall (cur p : Path) (n : node),
    descend fs follow cur rest = Done (Found p n) -> get fs p = Some n.
Proof.
  induction rest as [|s rest IH]; intros cur p n H; simpl in H.
  - destruct (get fs cur) as [m|] eqn:E; [|discriminate].
    inversion H; subst. exact E.
  - destruct (get fs cur) as [[c|es|t]|] eqn:E; try discriminate.
    destruct ((s =? "") || (s =? ".")); [now apply (IH cur)|].
    destruct (s =? ".."); [now apply (IH (removelast cur))|].
    destruct (lookup s es) as [[c|es1|t]|] eqn:El.
    + now apply (IH (cur ++ [s])).
    + now apply (IH (cur ++ [s])).
    + destruct rest; [|discriminate]. destruct follow; [discriminate|].
      inversion H; subst. now rewrite (get_snoc_dir _ _ _ _ E).
    + destruct rest; discriminate.
Qed.

Lemma namei_from_found (hops : nat) (fs : node) (follow : bool) :
  forall (cur : Path) (rest : list string) (p : Path) (n : node),
    namei_from hops fs follow cur rest = Ok (Found p n) -> get fs p = Some n.
Proof.
  induction hops as [|h IH]; intros cur rest p n H; simpl in H;
    destruct (descend fs follow cur rest) as [l|e|dir t rest'] eqn:E;
    try discriminate.
  - inversion H; subst l. now apply (descend_found _ _ _ _ _ _ E).
  - inversion H; subst l. now apply (descend_found _ _ _ _ _ _ E).
  - destruct (t =? ""); [discriminate|]. now apply IH in H.
Qed.

Lemma namei_found (fs : node) (follow : bool) (p q : Path) (n : node) :
  namei fs follow p = Ok (Found q n) -> get fs q = Some n.
Proof. apply namei_from_found. Qed.

(** A copy whose source can be read and whose destination can be written
    is the write of what was read. *)
Lemma copyFileSync_ok (fs : node) (src dst : Path) (c : string) (fs' : node) :
  readFileSync fs src = Ok c -> writeFileSync fs dst c = Ok fs' ->
  copyFileSync fs src dst = Completed fs'.
Proof.
  unfold readFileSync, statSync, writeFileSync, copyFileSync.
  destruct (namei fs true src) as [[p n|p]|e] eqn:Es; try discriminate.
  destruct n as [c0|es|t]; try discriminate.
  intros H. inversion H; subst c0. clear H.
  destruct (namei fs true dst) as [[q m|q]|e] eqn:Ed; try discriminate.
  - destruct m as [c1|es1|t1]; try discriminate.
    + intros H. inversion H; subst fs'.
      destruct (path_eqb p q) eqn:Epq; [|reflexivity].
      apply path_eqb_eq in Epq. subst q.
      now rewrite (put_same _ _ _ (namei_found _ _ _ _ _ Es)).
    + intros H. inversion H; subst fs'.
      destruct (path_eqb p q) eqn:Epq; [|reflexivity].
      apply path_eqb_eq in Epq. subst q.
      now rewrite (put_same _ _ _ (namei_found _ _ _ _ _ Es)).
  - intros H. now inversion H.
Qed.

(** A source that [stat] does not find: nothing is touched. *)
Lemma copyFileSync_no_source (fs : node) (src dst : Path) (e : errno) :
  statSync fs src = Err e -> copyFileSync fs src dst = Aborted e fs.
Proof.
  unfold statSync, copyFileSync.
  destruct (namei fs true src) as [[p n|p]|e'] eqn:Es; try discriminate.
  - intros H. now inversion H.
  - intros H. now inversion H.
Qed.

(** A destination that cannot be opened: nothing is touched. *)
Lemma copyFileSync_no_destination (fs : node) (src dst : Path) (n : node)
  (e : errno) :
  statSync fs src = Ok n -> writeFileSync fs dst "" = Err e ->
  copyFileSync fs src dst = Aborted e fs.
Proof.
  unfold statSync, writeFileSync, copyFileSync.
  destruct (namei fs true src) as [[p m|p]|e'] eqn:Es; try discriminate.
  intros _.
  destruct (namei fs true dst) as [[q k|q]|e'] eqn:Ed; try discriminate.
  - destruct k; try discriminate. intros H. now inversion H.
  - intros H. now inversion H.
Qed.

(** A directory cannot be copied as a file. *)
Lemma copyFileSync_dir_source (fs : node) (src dst : Path)
  (es : list (string * node)) :
  statSync fs src = Ok (Dir es) ->
  exists e fs', copyFileSync fs src dst = Aborted e fs'.
Proof.
  unfold statSync, copyFileSync.
  destruct (namei fs true src) as [[p n|p]|e'] eqn:Es; try discriminate.
  intros H. inversion H; subst n.
  destruct (namei fs true dst) as [[q k|q]|e'] eqn:Ed; eauto.
  destruct k; eauto. destruct (path_eqb p q) eqn:Epq; eauto.
  apply path_eqb_eq in Epq. subst q.
  pose proof (namei_found _ _ _ _ _ Es) as G1.
  pose proof (namei_found _ _ _ _ _ Ed) as G2. congruence.
  destruct (path_eqb p q) eqn:Epq; eauto.
  apply path_eqb_eq in Epq. subst q.
  pose proof (namei_found _ _ _ _ _ Es) as G1.
  pose proof (namei_found _ _ _ _ _ Ed) as G2. congruence.
Qed.

Lemma lookup_del_set (s : string) (v : node) (es : list (string * node)) :
  del_entry s (set_entry s v es) = del_entry s es.
Proof.
  induction es as [|[k n] r IH]; simpl.
  - now rewrite String.eqb_refl.
  - destruct (k =? s) eqn:E; simpl; rewrite E; [reflexivity | now rewrite IH].
Qed.

(** Removing what has just been stored is removing what was there. *)
Lemma del_put_same (n : node) (p : Path) (v : node) :
  p <> [] -> del (put n p v) p = del n p.
Proof.
  revert n. induction p as [|s p IH]; intros n Hp; [congruence|].
  destruct n as [c|es|t]; try reflexivity.
  rewrite put_cons. destruct p as [|s' p].
  - simpl. now rewrite lookup_del_set.
  - destruct (lookup s es) as [c|] eqn:El; [|reflexivity].
    rewrite del_cons, lookup_set_entry_same, set_entry_twice.
    rewrite IH by discriminate. rewrite del_cons, El. reflexivity.
Qed.

(** [unlink] of a regular file. *)
Lemma unlink_file (fs : node) (p : Path) (c : string) :
  normalized p = true -> p <> [] -> get fs p = Some (File c) ->
  unlink fs p = del fs p.
Proof.
  intros Hn Hp Hg. unfold unlink.
  rewrite (namei_get fs false p (File c) Hn Hg (or_intror eq_refl)).
  destruct p; [congruence | reflexivity].
Qed.

(** A directory copied onto a file, or onto a free name, of a real
    directory: the destination is opened, the copy fails, and the
    destination is unlinked. *)
Lemma copyFileSync_dir_onto (fs : node) (src q : Path) (k : string)
  (d es : list (string * node)) :
  statSync fs src = Ok (Dir d) ->
  normalized (q ++ [k]) = true ->
  get fs q = Some (Dir es) ->
  match lookup k es with
  | None => True
  | Some (File _) => True
  | Some _ => False
  end ->
  copyFileSync fs src (q ++ [k]) = Aborted EISDIR (del fs (q ++ [k])).
Proof.
  intros Hs Hn Hq Hk. unfold statSync in Hs. unfold copyFileSync.
  destruct (namei fs true src) as [[p n|p]|e'] eqn:Es; try discriminate.
  inversion Hs; subst n. clear Hs.
  assert (Hne : q ++ [k] <> []) by (intros E; now apply app_eq_nil in E).
  assert (Hun : unlink (put fs (q ++ [k]) (File "")) (q ++ [k])
                = del fs (q ++ [k])).
  { rewrite (unlink_file _ _ "" Hn Hne).
    - now apply del_put_same.
    - apply get_put_same with es. now rewrite dirname_snoc. }
  destruct (lookup k es) as [[c|x|x]|] eqn:El; try contradiction.
  - assert (Hg : get fs (q ++ [k]) = Some (File c))
      by now rewrite (get_snoc_dir _ _ _ _ Hq).
    rewrite (namei_get fs true _ _ Hn Hg (or_introl eq_refl)).
    destruct (path_eqb p (q ++ [k])) eqn:Epq.
    + apply path_eqb_eq in Epq. subst p.
      pose proof (namei_found _ _ _ _ _ Es) as G. congruence.
    + now rewrite Hun.
  - rewrite (namei_vacant fs true q k es Hn Hq El). now rewrite Hun.
Qed.

End CopyFile.

(* ===================================================================== *)
(** ** Recursive [mkdir] and recursive copy *)
(* ===================================================================== *)

Module CopyFacts.
Import PathLib Fs Deploy PathFacts TreeFacts Shape WalkFacts GrowFacts
  SortFacts CopyFile.

(** *** Paths where nothing is *)

Lemma descend_parent_missing (fs : node) (follow : bool) (r : Path) :
  forall (cur : Path) (n : node) (s : string),
    get fs cur = Some n -> dirs_along n r = true -> get n r = None ->
    normalized r = true ->
    descend fs follow cur (r ++ [s]) = Fail ENOENT.
Proof.
  induction r as [|a r IH]; intros cur n s Hc Hd Hg Hn.
  - discriminate.
  - destruct (dirs_along_dir _ _ Hd) as [es ->].
    simpl in Hn. apply andb_true_iff in Hn. destruct Hn as [Ha Hr].
    destruct (valid_name_step _ Ha) as [H1 H2].
    simpl in Hd, Hg. simpl. rewrite Hc, H1, H2.
    destruct (lookup a es) as [c|] eqn:El.
    + destruct (dirs_along_dir _ _ Hd) as [es1 ->].
      apply (IH (cur ++ [a]) (Dir es1) s); auto.
      now rewrite (get_snoc_dir _ _ _ _ Hc).
    + destruct r; reflexivity.
Qed.

Lemma namei_parent_missing (fs : node) (follow : bool) (q : Path) (s : string) :
  normalized q = true -> dirs_along fs q = true -> get fs q = None ->
  namei fs follow (q ++ [s]) = Err ENOENT.
Proof.
  intros Hn Hd Hg. unfold namei, max_hops. simpl.
  now rewrite (descend_parent_missing fs follow q [] fs s eq_refl Hd Hg Hn).
Qed.

Lemma normalized_snoc (q : Path) (s : string) :
  normalized (q ++ [s]) = true -> normalized q = true /\ valid_name s = true.
Proof.
  rewrite normalized_app. intros H. apply andb_true_iff in H.
  destruct H as [Hq Hs]. simpl in Hs. rewrite andb_true_r in Hs. auto.
Qed.

Lemma snoc_cases (p : Path) : p = [] \/ exists q s, p = q ++ [s].
Proof.
  destruct (list_eq_dec string_dec p []) as [->|Hne]; [now left|].
  right. destruct (exists_last Hne) as [q [s ->]]. eauto.
Qed.

Lemma namei_absent (fs : node) (follow : bool) (p : Path) :
  normalized p = true -> dirs_along fs p = true -> get fs p = None ->
  namei fs follow p = Ok (Vacant p) \/ namei fs follow p = Err ENOENT.
Proof.
  intros Hn Hd Hg. destruct (snoc_cases p) as [-> | (q & s & ->)].
  - discriminate.
  - destruct (normalized_snoc _ _ Hn) as [Hq Hs].
    pose proof (dirs_along_prefix _ _ _ Hd) as Hdq.
    destruct (get fs q) as [m|] eqn:Eq.
    + destruct (dirs_along_get _ _ _ Hdq Eq) as [es ->].
      left. apply (namei_vacant fs follow q s es Hn Eq).
      now rewrite <- (get_snoc_dir _ _ _ _ Eq).
    + right. now apply namei_parent_missing.
Qed.

Lemma existsSync_absent (fs : node) (p : Path) :
  normalized p = true -> dirs_along fs p = true -> get fs p = None ->
  existsSync fs p = false.
Proof.
  intros Hn Hd Hg. unfold existsSync, statSync.
  destruct (namei_absent fs true p Hn Hd Hg) as [-> | ->]; reflexivity.
Qed.

(** *** [fs.mkdirSync(p, { recursive: true })] *)

Lemma mkdirp_rev_plain (rp : list string) :
  forall (pending : bool) (fs : node),
    normalized (rev rp) = true -> dirs_along fs (rev rp) = true ->
    mkdirp_rev fs rp pending = Ok (mkdirs fs (rev rp)).
Proof.
  induction rp as [|s rq IH]; intros pending fs Hn Hd.
  - destruct (dirs_along_dir _ _ Hd) as [es ->]. reflexivity.
  - simpl rev in *. set (q := rev rq) in *.
    destruct (normalized_snoc _ _ Hn) as [Hq Hs].
    pose proof (dirs_along_prefix _ _ _ Hd) as Hdq.
    simpl mkdirp_rev. fold q. unfold mkdir1.
    destruct (get fs q) as [m|] eqn:Eq.
    + destruct (dirs_along_get _ _ _ Hdq Eq) as [es ->].
      rewrite (namei_nofollow_plain fs q s es Hn Eq).
      destruct (lookup s es) as [n|] eqn:El.
      * assert (Hg : get fs (q ++ [s]) = Some n)
          by now rewrite (get_snoc_dir _ _ _ _ Eq).
        destruct (dirs_along_get _ _ _ Hd Hg) as [es1 ->].
        unfold mkdir_exists.
        rewrite (statSync_get fs _ _ Hn Hg eq_refl).
        now rewrite (mkdirs_existing _ _ _ Hg).
      * assert (Hg : get fs (q ++ [s]) = None)
          by now rewrite (get_snoc_dir _ _ _ _ Eq).
        rewrite (mkdirs_snoc _ _ _ Hd Hg).
        now rewrite (mkdirs_existing _ _ _ Eq).
    + rewrite (namei_parent_missing fs false q s Hq Hdq Eq).
      unfold q at 1. rewrite (IH true fs Hq Hdq). fold q.
      pose proof (get_mkdirs_same _ _ Hdq Eq) as Hm.
      rewrite (namei_nofollow_plain (mkdirs fs q) q s [] Hn Hm). simpl.
      rewrite mkdirs_snoc; [reflexivity | exact Hd |].
      now apply get_none_below.
Qed.

Lemma mkdirSync_recursive_plain (fs : node) (p : Path) :
  normalized p = true -> dirs_along fs p = true ->
  mkdirSync_recursive fs p = Ok (mkdirs fs p).
Proof.
  intros Hn Hd. unfold mkdirSync_recursive.
  rewrite <- (rev_involutive p) at 2.
  apply mkdirp_rev_plain; now rewrite rev_involutive.
Qed.

(** A child of an existing directory is made by one [mkdir]. *)
Lemma mkdirSync_recursive_child (fs : node) (q : Path) (s : string)
  (es : list (string * node)) :
  normalized (q ++ [s]) = true ->
  get fs q = Some (Dir es) -> lookup s es = None ->
  mkdirSync_recursive fs (q ++ [s]) = Ok (put fs (q ++ [s]) (Dir [])).
Proof.
  intros Hn Hg El. unfold mkdirSync_recursive.
  rewrite rev_app_distr. simpl. unfold mkdir1.
  rewrite rev_involutive.
  now rewrite (namei_vacant fs false q s es Hn Hg El).
Qed.

(** *** The trees the statements speak of *)

Lemma materialize_dir (fs : node) (at_ : Path) (es : list (string * node)) :
  materialize fs at_ (Dir es)
  = option_map (fun l => Dir (sort_entries l)) (materialize_all fs at_ es).
Proof.
  simpl. f_equal. induction es as [|e r IH]; simpl; [reflexivity|].
  now rewrite IH.
Qed.

Lemma wf_tree_dir (es : list (string * node)) :
  wf_tree (Dir es) = true ->
  forallb valid_name (map fst es) = true /\ nodupb (map fst es) = true /\
  forall e, In e es -> wf_tree (snd e) = true.
Proof.
  simpl. intros H. apply andb_true_iff in H. destruct H as [H Hall].
  apply andb_true_iff in H. destruct H as [Hv Hnd].
  repeat split; auto.
  clear Hv Hnd. induction es as [|e r IH]; intros x Hx; [contradiction|].
  apply andb_true_iff in Hall. destruct Hall as [He Hr].
  destruct Hx as [<-|Hx]; auto.
Qed.

Lemma depth_dir (es : list (string * node)) : depth (Dir es) = deepest es.
Proof.
  induction es as [|e r IH]; [reflexivity|].
  change (depth (Dir (e :: r)))
    with (Nat.max (S (depth (snd e))) (depth (Dir r))).
  now rewrite IH.
Qed.

Lemma depth_child (es : list (string * node)) (e : string * node) :
  In e es -> depth (snd e) < depth (Dir es).
Proof.
  rewrite depth_dir. induction es as [|x r IH]; intros H; [contradiction|].
  cbn [deepest]. destruct H as [->|H].
  - lia.
  - specialize (IH H). lia.
Qed.

Lemma existsb_eqb_in (x : string) (l : list string) :
  existsb (String.eqb x) l = false -> ~ In x l.
Proof.
  induction l as [|y l IH]; simpl; intros H; [tauto|].
  apply orb_false_iff in H. destruct H as [Hxy Hl].
  apply String.eqb_neq in Hxy. intros [->|Hin]; [congruence | now apply IH].
Qed.

Lemma lookup_in_nodup (es : list (string * node)) (e : string * node) :
  nodupb (map fst es) = true -> In e es -> lookup (fst e) es = Some (snd e).
Proof.
  induction es as [|[k n] r IH]; intros Hnd Hin; [contradiction|].
  simpl in Hnd. apply andb_true_iff in Hnd. destruct Hnd as [Hk Hr].
  apply negb_true_iff in Hk. apply existsb_eqb_in in Hk.
  simpl. destruct Hin as [<-|Hin].
  - simpl. now rewrite String.eqb_refl.
  - destruct (String.eqb_spec k (fst e)) as [->|Hne].
    + exfalso. apply Hk. now apply in_map.
    + now apply IH.
Qed.

Lemma incomparable_app (p q a b : Path) :
  is_prefix p q = false -> is_prefix q p = false ->
  is_prefix (p ++ a) (q ++ b) = false.
Proof.
  revert q. induction p as [|x p IH]; intros q Hpq Hqp.
  - discriminate.
  - destruct q as [|y q]; [discriminate|].
    simpl in *. destruct (x =? y) eqn:E; [|reflexivity].
    rewrite String.eqb_sym, E in Hqp. simpl in *. now apply IH.
Qed.

Lemma incomparable_below (p q b : Path) :
  is_prefix p q = false -> is_prefix q p = false ->
  is_prefix p (q ++ b) = false.
Proof.
  intros H1 H2. pose proof (incomparable_app p q [] b H1 H2) as H.
  now rewrite app_nil_r in H.
Qed.

Lemma incomparable_above (p q a : Path) :
  is_prefix p q = false -> is_prefix q p = false ->
  is_prefix (p ++ a) q = false.
Proof.
  intros H1 H2. pose proof (incomparable_app p q a [] H1 H2) as H.
  now rewrite app_nil_r in H.
Qed.

Lemma is_prefix_app_r (t d a : Path) :
  is_prefix t d = true -> is_prefix t (d ++ a) = true.
Proof.
  intros H. eapply is_prefix_trans; [exact H | apply is_prefix_app].
Qed.

Lemma put_child (fs : node) (dest : Path) (k : string) (v : node)
  (done : list (string * node)) :
  get fs dest = Some (Dir done) -> lookup k done = None ->
  put fs (dest ++ [k]) v = put fs dest (Dir (done ++ [(k, v)])).
Proof.
  intros Hg El. rewrite (put_app _ _ _ _ _ Hg). simpl.
  now rewrite set_entry_fresh.
Qed.

(** *** The loop of [copyDirRecursive] *)

Lemma copyDirRecursive_S (fuel : nat) (src dest : Path) :
  copyDirRecursive (S fuel) src dest =
  (fsop (fun fs => mkdirSync_recursive fs dest) ;;
   entries <- fsread (fun fs => readdirSync fs src) ;;
   forEach entries (copy_entry fuel src dest)).
Proof. reflexivity. Qed.

Section Copy.
Variable fs0 : node.
Variable top : Path.
Hypothesis Htop : get fs0 top = None.

Lemma copy_entry_spec (fuel : nat) (IHn : copy_ok fs0 top fuel) (src dest : Path)
  (e : string * node) (v : node) (done es0 : list (string * node))
  (s : state) :
  normalized src = true -> normalized dest = true ->
  is_prefix src dest = false -> is_prefix dest src = false ->
  is_prefix top dest = true -> extends fs0 (files s) ->
  valid_name (fst e) = true ->
  wf_tree (snd e) = true -> depth (snd e) < fuel ->
  get (files s) (src ++ [fst e]) = Some (snd e) ->
  get (files s) (dirname dest) = Some (Dir es0) ->
  get (files s) dest = Some (Dir done) ->
  lookup (fst e) done = None ->
  materialize fs0 (src ++ [fst e]) (snd e) = Some v ->
  copy_entry fuel src dest e s
  = Ret tt (mkState (put (files s) dest (Dir (done ++ [(fst e, v)]))) (logged s)).
Proof.
  intros Hns Hnd Hsd Hds Htd Hext Hk Hwf Hdep Hsrc Hpar Hdst Hfresh Hmat.
  destruct e as [k c]. simpl in *.
  assert (Hk1 : normalized [k] = true) by (simpl; now rewrite Hk).
  assert (Hnsk : normalized (src ++ [k]) = true)
    by now rewrite normalized_app, Hns, Hk1.
  assert (Hndk : normalized (dest ++ [k]) = true)
    by now rewrite normalized_app, Hnd, Hk1.
  unfold copy_entry. simpl.
  rewrite (join_valid src [k] Hns Hk1), (join_valid dest [k] Hnd Hk1).
  destruct c as [content|esc|t]; simpl.
  - (* a regular file *)
    inversion Hmat; subst v.
    unfold fsdo.
    rewrite (copyFileSync_ok _ _ _ _ _ (readFileSync_get _ _ _ Hnsk Hsrc)
               (writeFileSync_vacant _ _ _ _ _ Hndk Hdst Hfresh)).
    now rewrite (put_child _ _ _ _ _ Hdst Hfresh).
  - (* a directory *)
    rewrite materialize_dir in Hmat.
    destruct (materialize_all fs0 (src ++ [k]) esc) as [esc'|] eqn:Em;
      [|discriminate].
    simpl in Hmat. inversion Hmat; subst v.
    rewrite (IHn (src ++ [k]) (dest ++ [k]) esc esc' done s); auto.
    + now rewrite (put_child _ _ _ _ _ Hdst Hfresh).
    + now apply incomparable_app.
    + now apply incomparable_app.
    + now apply is_prefix_app_r.
    + now rewrite dirname_snoc.
    + now rewrite (get_snoc_dir _ _ _ _ Hdst).
  - (* a link: what is copied is what is read through it *)
    simpl in Hmat.
    destruct (readFileSync fs0 (src ++ [k])) as [content|err] eqn:Er;
      [|discriminate].
    inversion Hmat; subst v.
    unfold fsdo.
    rewrite (copyFileSync_ok _ _ _ _ _ (readFileSync_extends _ _ _ _ Hext Er)
               (writeFileSync_vacant _ _ _ _ _ Hndk Hdst Hfresh)).
    now rewrite (put_child _ _ _ _ _ Hdst Hfresh).
Qed.

Lemma lookup_app_none (k : string) (a b : list (string * node)) :
  lookup k a = None -> lookup k b = None -> lookup k (a ++ b) = None.
Proof.
  induction a as [|[x n] a IH]; simpl; intros Ha Hb; [exact Hb|].
  destruct (x =? k); [discriminate | now apply IH].
Qed.

Lemma copy_loop (fuel : nat) (IHn : copy_ok fs0 top fuel) (src dest : Path) :
  normalized src = true -> normalized dest = true ->
  is_prefix src dest = false -> is_prefix dest src = false ->
  is_prefix top dest = true ->
  forall (rest rest' done es0 : list (string * node)) (s : state),
    forallb valid_name (map fst rest) = true ->
    nodupb (map fst rest) = true ->
    (forall e, In e rest ->
       wf_tree (snd e) = true /\ depth (snd e) < fuel /\
       get (files s) (src ++ [fst e]) = Some (snd e) /\
       lookup (fst e) done = None) ->
    extends fs0 (files s) ->
    get (files s) (dirname dest) = Some (Dir es0) ->
    get (files s) dest = Some (Dir done) ->
    materialize_all fs0 src rest = Some rest' ->
    forEach rest (copy_entry fuel src dest) s
    = Ret tt (mkState (put (files s) dest (Dir (done ++ rest'))) (logged s)).
Proof.
  intros Hns Hnd Hsd Hds Htd.
  induction rest as [|e rest IH];
    intros rest' done es0 s Hval Hnodup Hall Hext Hpar Hdst Hmat.
  - simpl in Hmat. inversion Hmat; subst rest'. simpl. unfold ret.
    rewrite app_nil_r.
    destruct s as [fs lg]. simpl in *. f_equal. f_equal.
    (* storing the directory that is already there *)
    clear - Hdst Hpar. revert fs es0 Hdst Hpar.
    induction dest as [|a d IHd]; intros fs es0 Hdst Hpar.
    + simpl in *. now inversion Hdst.
    + destruct (get_cons_inv _ _ _ _ Hdst) as (es & c & -> & El & Hc).
      rewrite put_cons. destruct d as [|b d].
      * simpl in Hc. inversion Hc; subst c. now rewrite set_entry_lookup.
      * rewrite El.
        assert (Hp' : exists es1, get c (dirname (b :: d)) = Some (Dir es1)).
        { change (dirname (a :: b :: d)) with (a :: dirname (b :: d)) in Hpar.
          simpl in Hpar. rewrite El in Hpar. eauto. }
        destruct Hp' as [es1 Hp'].
        rewrite <- (IHd c es1 Hc Hp'). now rewrite set_entry_lookup.
  - simpl in Hmat.
    destruct (materialize fs0 (src ++ [fst e]) (snd e)) as [v|] eqn:Ev;
      [|discriminate].
    destruct (materialize_all fs0 src rest) as [r'|] eqn:Er; [|discriminate].
    inversion Hmat; subst rest'. clear Hmat.
    simpl in Hval. apply andb_true_iff in Hval. destruct Hval as [Hk Hval].
    simpl in Hnodup. apply andb_true_iff in Hnodup.
    destruct Hnodup as [Hknew Hnodup].
    apply negb_true_iff in Hknew. apply existsb_eqb_in in Hknew.
    destruct (Hall e (or_introl eq_refl)) as (Hwf & Hdep & Hsrc & Hfresh).
    simpl forEach. unfold bind at 1.
    rewrite (copy_entry_spec fuel IHn src dest e v done es0 s); auto.
    set (s1 := mkState (put (files s) dest (Dir (done ++ [(fst e, v)]))) (logged s)).
    assert (Hdst1 : get (files s1) dest = Some (Dir (done ++ [(fst e, v)])))
      by (simpl; now apply get_put_same with es0).
    assert (Hpar1 : exists es1, get (files s1) (dirname dest) = Some (Dir es1)).
    { simpl. destruct (snoc_cases dest) as [-> | (q & k & ->)].
      - discriminate.
      - rewrite dirname_snoc in *.
        rewrite (get_put_above _ _ _ _ _ Hpar). simpl. eauto. }
    destruct Hpar1 as [es1 Hpar1].
    rewrite (IH r' (done ++ [(fst e, v)]) es1 s1); auto.
    + simpl. rewrite put_put_same, <- app_assoc. reflexivity.
    + intros x Hx. destruct (Hall x (or_intror Hx)) as (Hw & Hd & Hs & Hf).
      repeat split; auto.
      * simpl. rewrite get_put_other; auto.
        -- now apply incomparable_below.
        -- now apply incomparable_above.
      * apply lookup_app_none; auto. simpl.
        destruct (String.eqb_spec (fst e) (fst x)) as [E|_]; [|reflexivity].
        exfalso. apply Hknew. rewrite E. now apply in_map.
    + simpl. now apply extends_put with top.
Qed.

End Copy.

End CopyFacts.

(* ===================================================================== *)
(** ** [copyDirRecursive] and [deployCopy] *)
(* ===================================================================== *)

Module CopyTop.
Import PathLib Fs Deploy PathFacts TreeFacts Shape WalkFacts GrowFacts
  SortFacts CopyFacts.

Lemma node_induction (P : node -> Prop) :
  (forall c, P (File c)) ->
  (forall t, P (Symlink t)) ->
  (forall es, (forall e, In e es -> P (snd e)) -> P (Dir es)) ->
  forall n, P n.
Proof.
  intros HF HS HD. fix IH 1. intros [c|es|t]; [apply HF | | apply HS].
  apply HD. induction es as [|[k c] r IHr]; intros x Hx; [contradiction|].
  destruct Hx as [<-|Hx]; [apply IH | now apply IHr].
Qed.

Lemma get_dirname_dir (fs : node) (p : Path) (n : node) :
  p <> [] -> get fs p = Some n -> exists es, get fs (dirname p) = Some (Dir es).
Proof.
  intros Hp Hg. destruct (snoc_cases p) as [-> | (q & s & ->)]; [congruence|].
  rewrite dirname_snoc. rewrite get_app in Hg.
  destruct (get fs q) as [m|]; [|discriminate].
  destruct (get_cons_inv _ _ _ _ Hg) as (es & c & -> & _). eauto.
Qed.

Lemma not_prefix_nonempty (p q : Path) : is_prefix p q = false -> p <> [].
Proof. intros H ->. discriminate. Qed.

(** Every call with enough budget does what [copy_ok] says. *)
Lemma copy_all (fs0 : node) (top : Path) :
  get fs0 top = None -> forall fuel, copy_ok fs0 top fuel.
Proof.
  intros Htop. induction fuel as [|n IHn];
    intros src dest es es' es0 s Hns Hnd Hsrc Hwf Hdep Hsd Hds Htd Hext
      Hpar Hdst Hmat.
  - lia.
  - destruct (wf_tree_dir _ Hwf) as (Hval & Hnodup & Hchildren).
    destruct (snoc_cases dest) as [-> | (q & k & ->)]; [discriminate|].
    rewrite dirname_snoc in Hpar.
    assert (Hk : lookup k es0 = None)
      by now rewrite <- (get_snoc_dir _ _ _ _ Hpar).
    rewrite copyDirRecursive_S. unfold bind at 1. unfold fsop at 1.
    rewrite (mkdirSync_recursive_child _ _ _ _ Hnd Hpar Hk).
    unfold bind at 1. unfold fsread at 1. simpl files.
    rewrite (readdirSync_get _ _ es Hns)
      by now rewrite get_put_other.
    assert (Hpar' : get (put (files s) (q ++ [k]) (Dir [])) (dirname (q ++ [k]))
                    = Some (Dir (set_entry k (Dir []) es0))).
    { rewrite dirname_snoc. now rewrite (get_put_above _ _ _ _ _ Hpar). }
    rewrite (copy_loop fs0 top Htop n IHn src (q ++ [k]) Hns Hnd Hsd Hds Htd
               (sort_entries es) (sort_entries es') []
               (set_entry k (Dir []) es0));
      [ | now apply sort_entries_valid | now apply sort_entries_nodup
        | | | exact Hpar' | | now apply materialize_all_sort ].
    + simpl. now rewrite put_put_same.
    + intros e He. apply (proj1 (sort_entries_in _ _)) in He. repeat split.
      * now apply Hchildren.
      * pose proof (depth_child es e He). lia.
      * simpl. rewrite get_put_other;
          [ | now apply incomparable_below | now apply incomparable_above ].
        rewrite (get_snoc_dir _ _ _ _ Hsrc). now apply lookup_in_nodup.
    + simpl. now apply extends_put with top.
    + simpl. apply get_put_same with es0. now rewrite dirname_snoc.
Qed.

(** The outermost call, which may have to make the directories above the
    target as well. *)
Lemma copy_top (fuel : nat) (src dest : Path) (es es' : list (string * node))
  (s : state) :
  normalized src = true -> normalized dest = true ->
  get (files s) src = Some (Dir es) ->
  wf_tree (Dir es) = true -> depth (Dir es) < fuel ->
  is_prefix src dest = false -> is_prefix dest src = false ->
  dirs_along (files s) dest = true -> get (files s) dest = None ->
  materialize_all (files s) src es = Some es' ->
  copyDirRecursive fuel src dest s
  = Ret tt (mkState (put (mkdirs (files s) dest) dest (Dir (sort_entries es')))
              (logged s)).
Proof.
  intros Hns Hnd Hsrc Hwf Hdep Hsd Hds Hdirs Hdst Hmat.
  destruct fuel as [|n]; [lia|].
  destruct (wf_tree_dir _ Hwf) as (Hval & Hnodup & Hchildren).
  destruct (snoc_cases dest) as [-> | (q & k & ->)]; [discriminate|].
  rewrite copyDirRecursive_S. unfold bind at 1. unfold fsop at 1.
  rewrite (mkdirSync_recursive_plain _ _ Hnd Hdirs).
  unfold bind at 1. unfold fsread at 1. simpl files.
  rewrite (readdirSync_get _ _ es Hns) by now rewrite get_mkdirs_other.
  destruct (get_mkdirs_parent _ _ _ Hdirs) as [esq Hq].
  assert (Hpar : get (mkdirs (files s) (q ++ [k])) (dirname (q ++ [k]))
                 = Some (Dir (set_entry k (Dir []) esq))).
  { rewrite dirname_snoc, (mkdirs_snoc _ _ _ Hdirs Hdst).
    now rewrite (get_put_above _ _ _ _ _ Hq). }
  rewrite (copy_loop (files s) (q ++ [k]) Hdst n
             (copy_all (files s) (q ++ [k]) Hdst n)
             src (q ++ [k]) Hns Hnd Hsd Hds (is_prefix_refl _)
             (sort_entries es) (sort_entries es') []
             (set_entry k (Dir []) esq));
    [ | now apply sort_entries_valid | now apply sort_entries_nodup
      | | | exact Hpar | | now apply materialize_all_sort ].
  - reflexivity.
  - intros e He. apply (proj1 (sort_entries_in _ _)) in He. repeat split.
    + now apply Hchildren.
    + pose proof (depth_child es e He). lia.
    + simpl. rewrite get_mkdirs_other;
        [ | now apply incomparable_below | now apply incomparable_above ].
      rewrite (get_snoc_dir _ _ _ _ Hsrc). now apply lookup_in_nodup.
  - simpl. now apply extends_mkdirs.
  - simpl. now apply get_mkdirs_same.
Qed.

End CopyTop.

(* ===================================================================== *)
(** ** Copy mode *)
(* ===================================================================== *)

Module CopyMode.
Import PathLib Fs Deploy PathFacts TreeFacts Shape WalkFacts GrowFacts
  CopyFacts CopyTop Scenarios
  SortFacts.

Lemma target_normalized (vaultPath : Path) (pluginId : string) :
  normalized vaultPath = true ->
  normalized (targetPluginDir vaultPath pluginId) = true.
Proof. intros H. unfold targetPluginDir. now apply join_normalized. Qed.

Lemma dist_normalized (h : host) :
  normalized (projectRoot h) = true -> normalized (distDir h) = true.
Proof. intros H. unfold distDir. now apply join_normalized. Qed.

Lemma del_entry_absent (s : string) (es : list (string * node)) :
  lookup s es = None -> del_entry s es = es.
Proof.
  induction es as [|[k n] r IH]; simpl; [reflexivity|].
  destruct (k =? s); [discriminate|]. intros H. now rewrite IH.
Qed.

Lemma del_absent (n : node) (p : Path) : get n p = None -> del n p = n.
Proof.
  revert n. induction p as [|s p IH]; intros n H; [reflexivity|].
  destruct n as [c|es|t]; try reflexivity.
  rewrite del_cons. simpl in H. destruct p as [|s' p].
  - destruct (lookup s es) eqn:E; [discriminate|].
    now rewrite del_entry_absent.
  - destruct (lookup s es) as [c|] eqn:E; [|reflexivity].
    rewrite (IH c H). now rewrite set_entry_lookup.
Qed.

Lemma dirs_along_del (n : node) (q : Path) (s : string) :
  dirs_along n q = true -> dirs_along (del n (q ++ [s])) (q ++ [s]) = true.
Proof.
  revert n. induction q as [|a q IH]; intros n Hd.
  - destruct (dirs_along_dir _ _ Hd) as [es ->]. simpl.
    now rewrite lookup_del_entry_same.
  - destruct (dirs_along_dir _ _ Hd) as [es ->].
    change ((a :: q) ++ [s]) with (a :: (q ++ [s])). rewrite del_cons.
    case_eq (q ++ [s]); [intros Eq; now apply app_eq_nil in Eq|].
    intros s0 l Eq. rewrite <- Eq. simpl in Hd.
    destruct (lookup a es) as [c|] eqn:El.
    + simpl. rewrite lookup_set_entry_same. now apply IH.
    + simpl. now rewrite El.
Qed.

Lemma incomparable_neq (p q : Path) : is_prefix p q = false -> p <> q.
Proof. intros H ->. now rewrite is_prefix_refl in H. Qed.

(** After [rmSync] of the target (when [existsSync] sees it) the target is
    free, the directories above it are untouched, and [dist] is as before. *)
Lemma clear_target (fs : node) (target : Path) :
  normalized target = true -> target <> [] ->
  dirs_along fs (dirname target) = true ->
  replaceable fs target = true ->
  (if existsSync fs target then rmSync_rf fs target else Ok fs)
  = Ok (del fs target).
Proof.
  intros Hn Hne Hd Hr. unfold replaceable in Hr.
  destruct (snoc_cases target) as [-> | (q & k & ->)]; [congruence|].
  rewrite dirname_snoc in Hd.
  destruct (get fs (q ++ [k])) as [n|] eqn:Eg.
  - rewrite Hr. now apply rmSync_rf_get with n.
  - rewrite (del_absent _ _ Eg).
    rewrite existsSync_absent; auto.
    rewrite <- (del_absent _ _ Eg). now apply dirs_along_del.
Qed.

(** What was stored at the target is found there. *)
Lemma stored_at_target (fs : node) (target : Path) (copy : node) :
  target <> [] -> dirs_along fs (dirname target) = true ->
  get (put (mkdirs (del fs target) target) target copy) target = Some copy.
Proof.
  intros Hne Hdirs.
  destruct (snoc_cases target) as [E | (q & k & E)]; [congruence|]. subst.
  rewrite dirname_snoc in Hdirs.
  assert (Hfree : get (del fs (q ++ [k])) (q ++ [k]) = None)
    by (apply get_del_same; now destruct q).
  pose proof (dirs_along_del _ _ k Hdirs) as Hdirs0.
  destruct (get_mkdirs_parent _ _ _ Hdirs0) as [esq Hq].
  apply get_put_same with (set_entry k (Dir []) esq).
  rewrite dirname_snoc, (mkdirs_snoc _ _ _ Hdirs0 Hfree).
  now rewrite (get_put_above _ _ _ _ _ Hq).
Qed.

(** What [deployCopy] does when the source and the target are apart and
    the directories on the way to them are real directories. *)
Theorem deployCopy_spec (h : host) (fuel : nat) (vaultPath : Path)
  (pluginId : string) (s : state) (es : list (string * node)) (copy : node) :
  let target := targetPluginDir vaultPath pluginId in
  normalized vaultPath = true -> normalized (projectRoot h) = true ->
  is_prefix (distDir h) target = false ->
  is_prefix target (distDir h) = false ->
  get (files s) (distDir h) = Some (Dir es) ->
  wf_tree (Dir es) = true -> depth (Dir es) < fuel ->
  dirs_along (files s) (dirname target) = true ->
  replaceable (files s) target = true ->
  materialize (del (files s) target) (distDir h) (Dir es) = Some copy ->
  deployCopy h fuel vaultPath pluginId s
  = Ret tt
      (mkState (put (mkdirs (del (files s) target) target) target copy)
               (logged s ++ [(Success, MsgCopied (List.length es) pluginId)])).
Proof.
  intros target Hv Hroot Hdt Htd Hdist Hwf Hdep Hdirs Hrep Hmat.
  pose proof (target_normalized _ pluginId Hv) as Hnt. fold target in Hnt.
  pose proof (dist_normalized h Hroot) as Hnd.
  pose proof (not_prefix_nonempty _ _ Htd) as Hne.
  unfold deployCopy. fold target.
  rewrite (resolve_nil _ Hnt), (resolve_nil _ Hnd).
  assert (Hpe : path_eqb target (distDir h) = false)
    by (apply path_eqb_neq; now apply incomparable_neq).
  rewrite Hpe.
  unfold bind at 1. unfold existsM at 1.
  rewrite (existsSync_get _ _ _ Hnd Hdist eq_refl).
  change (negb true) with false. cbv beta iota.
  unfold bind at 1. unfold existsM at 1.
  unfold bind at 1.
  pose proof (clear_target _ _ Hnt Hne Hdirs Hrep) as Hclear.
  assert (Hrm : (if existsSync (files s) target
                 then fsop (fun fs => rmSync_rf fs target)
                 else ret tt) s
                = Ret tt (mkState (del (files s) target) (logged s))).
  { destruct (existsSync (files s) target).
    - unfold fsop. now rewrite Hclear.
    - unfold ret. injection Hclear as Hdel.
      destruct s as [fs lg]. simpl in *. now rewrite <- Hdel. }
  rewrite Hrm. clear Hrm Hclear.
  set (fs0 := del (files s) target) in *.
  rewrite materialize_dir in Hmat.
  destruct (materialize_all fs0 (distDir h) es) as [es'|] eqn:Em;
    [|discriminate].
  simpl in Hmat. inversion Hmat; subst copy. clear Hmat.
  assert (Hdist0 : get fs0 (distDir h) = Some (Dir es))
    by (unfold fs0; now rewrite get_del_other).
  assert (Hfree : get fs0 target = None)
    by (unfold fs0; now apply get_del_same).
  assert (Hdirs0 : dirs_along fs0 target = true).
  { unfold fs0. destruct (snoc_cases target) as [E | (q & k & E)];
      [congruence|]. rewrite E in *. rewrite dirname_snoc in Hdirs.
    now apply dirs_along_del. }
  unfold try_catch. unfold bind at 1.
  rewrite (copy_top fuel (distDir h) target es es' (mkState fs0 (logged s)));
    auto.
  unfold bind at 1. unfold fsread at 1. simpl files.
  rewrite (readdirSync_get _ _ es Hnd).
  - unfold log. now rewrite sort_entries_length.
  - rewrite get_put_other by assumption.
    now rewrite get_mkdirs_other.
Qed.

End CopyMode.

Module CopyClaims.
Import PathLib Fs Deploy PathFacts TreeFacts Shape WalkFacts GrowFacts
  SortFacts CopyFile CopyFacts CopyTop CopyMode Scenarios.



(** *** The numbers of files and of directories *)






Lemma lookup_materialize_all (fs : node) (at_ : Path) (k : string) (c : node) :
  forall es es',
    lookup k es = Some c -> materialize_all fs at_ es = Some es' ->
    exists c', materialize fs (at_ ++ [k]) c = Some c' /\ lookup k es' = Some c'.
Proof.
  induction es as [|[k0 c0] r IH]; intros es' Hl Hm; [discriminate|].
  simpl in Hm.
  destruct (materialize fs (at_ ++ [k0]) c0) as [v|] eqn:Ev; [|discriminate].
  destruct (materialize_all fs at_ r) as [r'|] eqn:Er; [|discriminate].
  inversion Hm; subst es'. simpl in *.
  destruct (String.eqb_spec k0 k) as [->|Hne].
  - inversion Hl; subst c0. eauto.
  - now apply IH.
Qed.

(** In the expected copy, where the source has a link there is a regular
    file, and it holds what is read through the link. *)
Lemma materialize_link (fs : node) (rel : Path) :
  forall (n n' : node) (at_ : Path) (t : string),
    materialize fs at_ n = Some n' ->
    get n rel = Some (Symlink t) ->
    exists c, readFileSync fs (at_ ++ rel) = Ok c /\ get n' rel = Some (File c).
Proof.
  induction rel as [|k r IH]; intros n n' at_ t Hm Hg.
  - simpl in Hg. inversion Hg; subst n. simpl in Hm.
    rewrite app_nil_r.
    destruct (readFileSync fs at_) as [c|e]; [|discriminate].
    inversion Hm. exists c. auto.
  - destruct (get_cons_inv _ _ _ _ Hg) as (es & c & -> & El & Hc).
    rewrite materialize_dir in Hm.
    destruct (materialize_all fs at_ es) as [es'|] eqn:Em; [|discriminate].
    simpl in Hm. inversion Hm; subst n'.
    destruct (lookup_materialize_all _ _ _ _ _ _ El Em) as (c' & Hc' & El').
    destruct (IH c c' (at_ ++ [k]) t Hc' Hc) as (x & Hx & Hgx).
    exists x. split.
    + now rewrite <- app_assoc in Hx.
    + simpl. now rewrite lookup_sort_entries, El'.
Qed.

(** *** More budget changes nothing once an outcome is reached *)





(** *** Copies that cannot return *)

Lemma mkdirSync_recursive_unseen (fs : node) (p : Path) (n : node) :
  normalized p = true -> get fs p = Some n -> existsSync fs p = false ->
  exists e, mkdirSync_recursive fs p = Err e.
Proof.
  intros Hn Hg Hex. unfold mkdirSync_recursive.
  assert (E : mkdir1 fs p = Err EEXIST).
  { unfold mkdir1. now rewrite (namei_get fs false p _ Hn Hg (or_intror eq_refl)). }
  assert (X : exists e, mkdir_exists fs p false = Err e).
  { unfold mkdir_exists. unfold existsSync in Hex.
    destruct (statSync fs p); [discriminate | eauto]. }
  destruct X as [e X]. exists e.
  destruct (rev p) eqn:Er.
  - apply (f_equal (@rev string)) in Er. rewrite rev_involutive in Er.
    subst p. change (rev []) with (@nil string) in *.
    cbn [mkdirp_rev rev]. rewrite E. exact X.
  - assert (Ep : rev l ++ [s] = p)
      by (rewrite <- (rev_involutive p), Er; reflexivity).
    simpl. rewrite Ep, E. exact X.
Qed.


Section Fails.
Variable h : host.
Variable fuel : nat.
Variable vaultPath : Path.
Variable pluginId : string.
Variable s : state.
Variable es : list (string * node).

Let target : Path := targetPluginDir vaultPath pluginId.
Let dist : Path := distDir h.

Hypothesis Hvault : normalized vaultPath = true.
Hypothesis Hroot : normalized (projectRoot h) = true.
Hypothesis Hdist : get (files s) dist = Some (Dir es).
Hypothesis Hdirs : dirs_along (files s) (dirname target) = true.
Hypothesis Hdt : is_prefix dist target = false.

Let Hnt : normalized target = true := target_normalized _ pluginId Hvault.
Let Hnd : normalized dist = true := dist_normalized h Hroot.





End Fails.




(** C8, as amended: [dist] and the target are apart, neither inside the
    other, [dist] and the directories on the way to the target are real
    directories, the target is free or seen by [existsSync], the budget of
    the recursion exceeds the depth of the source tree, and in the tree as
    it is once the old target is removed every link of the source tree
    leads to a regular file.  Then copy mode returns and each link of the
    source is, at the same relative path of the target, a regular file
    that holds the content read through the link. *)
Theorem links_are_materialized (h : host) (fuel : nat) (vaultPath : Path)
  (pluginId : string) (s : state) (es : list (string * node)) (copy : node) :
  let target := targetPluginDir vaultPath pluginId in
  normalized vaultPath = true -> normalized (projectRoot h) = true ->
  is_prefix (distDir h) target = false ->
  is_prefix target (distDir h) = false ->
  get (files s) (distDir h) = Some (Dir es) ->
  wf_tree (Dir es) = true -> depth (Dir es) < fuel ->
  dirs_along (files s) (dirname target) = true ->
  replaceable (files s) target = true ->
  materialize (del (files s) target) (distDir h) (Dir es) = Some copy ->
  exists s',
    deployCopy h fuel vaultPath pluginId s = Ret tt s' /\
    get (files s') target = Some copy /\
    forall rel t,
      get (files s) (distDir h ++ rel) = Some (Symlink t) ->
      exists c,
        readFileSync (del (files s) target) (distDir h ++ rel) = Ok c /\
        get (files s') (target ++ rel) = Some (File c).
Proof.
  intros target Hv Hroot Hdt Htd Hdist Hwf Hdep Hdirs Hrep Hmat.
  pose proof (deployCopy_spec h fuel vaultPath pluginId s es copy
                Hv Hroot Hdt Htd Hdist Hwf Hdep Hdirs Hrep Hmat) as Hrun.
  fold target in Hrun.
  pose proof (stored_at_target (files s) target copy
                (not_prefix_nonempty _ _ Htd) Hdirs) as Htarget.
  eexists. split; [exact Hrun|]. simpl files. split; [exact Htarget|].
  intros rel t Hlink. rewrite get_app, Hdist in Hlink.
  destruct (materialize_link _ rel (Dir es) copy (distDir h) t Hmat Hlink)
    as (c & Hread & Hc).
  exists c. split; [exact Hread|]. now rewrite get_app, Htarget.
Qed.

Lemma links_are_materialized_witness :
  exists s',
    deployCopy hostProj 5 ["v"] "myplug" (mkState fsTree []) = Ret tt s' /\
    lstatSync fsTree ["proj"; "dist"; "alias.js"] = Ok (Symlink "main.js") /\
    exists c,
      readFileSync (del fsTree ["v"; ".obsidian"; "plugins"; "myplug"])
        ["proj"; "dist"; "alias.js"] = Ok c /\
      get (files s') ["v"; ".obsidian"; "plugins"; "myplug"; "alias.js"]
      = Some (File c).
Proof.
  destruct (links_are_materialized hostProj 5 ["v"] "myplug" (mkState fsTree [])
              [("main.js", File "code"); ("alias.js", Symlink "main.js");
               ("assets", Dir [("empty", Dir []); ("a.css", File "css")])]
              (Dir [("alias.js", File "code");
                    ("assets", Dir [("a.css", File "css"); ("empty", Dir [])]);
                    ("main.js", File "code")]))
    as (s' & Hrun & _ & Hlinks);
    try reflexivity.
  - simpl. lia.
  - exists s'. split; [exact Hrun|]. split; [reflexivity|].
    exact (Hlinks ["alias.js"] "main.js" eq_refl).
Defined.

(** An entry that is a link which leads nowhere when its turn comes stops
    the loop, and nothing is written. *)
Lemma link_entry_fails (fuel : nat) (src dest : Path) (k t : string)
  (s : state) (e : errno) :
  statSync (files s) (join src [k]) = Err e ->
  copy_entry fuel src dest (k, Symlink t) s = Throw (FsError e) s.
Proof.
  intros H. unfold copy_entry, fsdo. simpl.
  rewrite (copyFileSync_no_source _ _ _ _ H). now destruct s.
Qed.

(** C8 as stated fails: the build holds [libs], a link to a directory.
    The entries are taken in the order of their names: [alias.js], a link
    to a file, is copied; on [libs] [copyFileSync] fails with [EISDIR] and
    removes the file it had made for it; [main.js] is never reached.  The
    run stops with status 1 and there is nothing at [libs] in the
    target. *)
Lemma link_to_directory_stops_copy :
  lstatSync fsLinks ["proj"; "dist"; "libs"] = Ok (Symlink "../lib") /\
  statSync fsLinks ["proj"; "dist"; "libs"] = Ok (Dir [("a.js", File "A")]) /\
  exists fs',
    deployCopy hostProj 5 ["v"] "myplug" (mkState fsLinks [])
    = Exit 1 (mkState fs' [(Failure, MsgCopyFailed (FsError EISDIR))]) /\
    get fs' ["v"; ".obsidian"; "plugins"; "myplug"]
    = Some (Dir [("alias.js", File "code")]) /\
    get fs' ["v"; ".obsidian"; "plugins"; "myplug"; "libs"] = None.
Proof.
  split; [reflexivity|]. split; [reflexivity|].
  eexists. split; [vm_compute; reflexivity|]. split; reflexivity.
Qed.

End CopyClaims.

(* ===================================================================== *)
(** ** Link mode *)
(* ===================================================================== *)

Module LinkMode.
Import PathLib Fs Deploy PathFacts TreeFacts Shape WalkFacts GrowFacts
  CopyFacts CopyTop CopyMode Scenarios.

(** *** The text of the link and its way back to [dist] *)

Lemma append_empty (s : string) : (s ++ "")%string = s.
Proof. induction s as [|a s IH]; simpl; [reflexivity | now rewrite IH]. Qed.

Lemma split_on_app (c : ascii) (s t : string) :
  has_char c s = false ->
  split_on c (s ++ t) =
  match split_on c t with
  | x :: xs => (s ++ x)%string :: xs
  | [] => [s]
  end.
Proof.
  induction s as [|a s IH]; simpl; intros H.
  - destruct (split_on c t) eqn:E; [|reflexivity].
    destruct t; simpl in E; [discriminate|].
    destruct (Ascii.eqb a c); [discriminate|].
    destruct (split_on c t); discriminate.
  - apply orb_false_iff in H. destruct H as [Ha Hs].
    rewrite Ha, (IH Hs). destruct (split_on c t); reflexivity.
Qed.

Lemma segments_render_segs (p : Path) :
  normalized p = true -> segments (render_segs p) = "" :: p.
Proof.
  unfold segments. induction p as [|s p IH]; intros H; [reflexivity|].
  simpl in H. apply andb_true_iff in H. destruct H as [Hs Hp].
  apply valid_name_parts in Hs. destruct Hs as (_ & _ & _ & Hs).
  simpl. rewrite (split_on_app _ _ _ Hs), (IH Hp).
  now rewrite append_empty.
Qed.

Lemma render_absolute (p : Path) : isAbsolute (render p) = true.
Proof. destruct p; reflexivity. Qed.

Lemma render_not_empty (p : Path) : (render p =? "") = false.
Proof. destruct p; reflexivity. Qed.

Lemma normalize_segments_render (p : Path) :
  normalized p = true -> normalize_from [] (segments (render p)) = p.
Proof.
  intros H. destruct p as [|s p]; [reflexivity|].
  change (render (s :: p)) with (render_segs (s :: p)).
  rewrite (segments_render_segs _ H).
  unfold normalize_from. simpl fold_left at 1.
  change (step [] "") with (@nil string).
  now apply (normalize_from_valid (s :: p) []).
Qed.

(** [path.resolve(dir, text)] of the text stored by the script is [dist]. *)
Lemma resolve_render (base p : Path) :
  normalized p = true -> resolve base [render p] = p.
Proof.
  intros H. unfold resolve. simpl. unfold resolve_step.
  rewrite render_absolute. now apply normalize_segments_render.
Qed.

Lemma descend_get (fs : node) (follow : bool) (p : Path) (n : node) :
  normalized p = true -> get fs p = Some n ->
  isSymbolicLink n = false \/ follow = false ->
  descend fs follow [] p = Done (Found p n).
Proof.
  intros Hn Hg Hk.
  destruct (snoc_cases p) as [-> | (q & s & ->)].
  - simpl in *. now inversion Hg.
  - destruct (normalized_snoc _ _ Hn) as [Hq Hs].
    destruct (get_dirname_dir fs (q ++ [s]) n) as [es Hd]; auto.
    { now destruct q. }
    rewrite dirname_snoc in Hd.
    rewrite (descend_app fs follow q [] [s] es Hq Hd).
    simpl app at 1. rewrite (descend_last fs follow q s es Hs Hd).
    rewrite (get_snoc_dir _ _ _ _ Hd) in Hg. rewrite Hg.
    destruct n as [c|es1|t]; try reflexivity.
    destruct Hk as [Hk | ->]; [discriminate | reflexivity].
Qed.

(** [stat] of a link whose text is the path of an existing directory or
    file. *)
Lemma statSync_link (fs : node) (q : Path) (k : string) (d : Path) (n : node)
  (es : list (string * node)) :
  normalized (q ++ [k]) = true -> normalized d = true -> d <> [] ->
  get fs q = Some (Dir es) -> lookup k es = Some (Symlink (render d)) ->
  get fs d = Some n -> isSymbolicLink n = false ->
  statSync fs (q ++ [k]) = Ok n.
Proof.
  intros Hn Hd Hdne Hq El Hg Hk.
  destruct (normalized_snoc _ _ Hn) as [Hnq Hs].
  unfold statSync, namei, max_hops.
  cbn [namei_from].
  rewrite (descend_app fs true q [] [k] es Hnq Hq). simpl app at 1.
  rewrite (descend_last fs true q k es Hs Hq), El.
  rewrite render_not_empty, render_absolute, app_nil_r.
  destruct d as [|a d]; [congruence|].
  - change (render (a :: d)) with (render_segs (a :: d)).
    rewrite (segments_render_segs _ Hd).
    assert (E : descend fs true [] ("" :: a :: d)
                = descend fs true [] (a :: d)).
    { simpl. destruct fs as [c|es0|t]; try discriminate; reflexivity. }
    cbn [namei_from]. rewrite E.
    now rewrite (descend_get fs true (a :: d) n Hd Hg (or_introl Hk)).
Qed.

(** *** The pieces of [deployLink] *)

Lemma mkdirSync_recursive_existing (fs : node) (p : Path)
  (es : list (string * node)) :
  normalized p = true -> get fs p = Some (Dir es) ->
  mkdirSync_recursive fs p = Ok fs.
Proof.
  intros Hn Hg. unfold mkdirSync_recursive.
  assert (E : mkdir1 fs p = Err EEXIST).
  { unfold mkdir1. now rewrite (namei_get fs false p _ Hn Hg (or_intror eq_refl)). }
  assert (X : mkdir_exists fs p false = Ok fs).
  { unfold mkdir_exists. now rewrite (statSync_get fs p _ Hn Hg eq_refl). }
  destruct (rev p) eqn:Er; simpl; rewrite <- ?Er, ?rev_involutive;
    rewrite ?E.
  - apply (f_equal (@rev string)) in Er. rewrite rev_involutive in Er.
    subst p. simpl in *. exact X.
  - replace (rev l ++ [s]) with p.
    + now rewrite E.
    + rewrite <- (rev_involutive p), Er. reflexivity.
Qed.

Lemma dirs_along_absent (n : node) (q : Path) (s : string) :
  dirs_along n q = true -> get n (q ++ [s]) = None ->
  dirs_along n (q ++ [s]) = true.
Proof.
  intros Hd Hg. rewrite <- (del_absent _ _ Hg). now apply dirs_along_del.
Qed.

(** Making the link where nothing is: the directories above are made when
    they are missing. *)
Lemma createLink_free (h : host) (target : Path) (pluginId : string)
  (s : state) :
  normalized target = true -> target <> [] ->
  dirs_along (files s) (dirname target) = true ->
  get (files s) target = None ->
  createLink h target pluginId s
  = Ret tt
      (mkState (put (mkdirs (files s) (dirname target)) target
                  (Symlink (render (distDir h))))
               (logged s ++ [(Success, MsgLinkCreated pluginId)])).
Proof.
  intros Hn Hne Hd Hg.
  destruct (snoc_cases target) as [-> | (q & k & ->)]; [congruence|].
  rewrite dirname_snoc in *.
  destruct (normalized_snoc _ _ Hn) as [Hq Hk].
  unfold createLink. rewrite dirname_snoc.
  unfold bind at 1. unfold fsop at 1.
  rewrite (mkdirSync_recursive_plain _ _ Hq Hd).
  unfold try_catch, bind, fsop. simpl files.
  pose proof (dirs_along_absent _ _ _ Hd Hg) as Hdk.
  destruct (get_mkdirs_parent _ _ _ Hdk) as [esq Hmq].
  assert (El : lookup k esq = None).
  { destruct (get (files s) q) as [m|] eqn:Eq.
    - rewrite (mkdirs_existing _ _ _ Eq), Eq in Hmq. inversion Hmq; subst m.
      now rewrite <- (get_snoc_dir _ _ _ _ Eq).
    - rewrite (get_mkdirs_same _ _ Hd Eq) in Hmq. now inversion Hmq. }
  rewrite (symlinkSync_vacant _ _ _ _ _ Hn Hmq El). reflexivity.
Qed.

(** The link to [dist] is there and [dist] can be reached: nothing is
    done. *)
Theorem link_present_noop (h : host) (vaultPath : Path) (pluginId : string)
  (s : state) (t : string) :
  let target := targetPluginDir vaultPath pluginId in
  resolve target [] <> resolve (distDir h) [] ->
  existsSync (files s) target = true ->
  lstatSync (files s) target = Ok (Symlink t) ->
  resolve (dirname target) [t] = resolve (distDir h) [] ->
  deployLink h vaultPath pluginId s
  = Ret tt (mkState (files s) (logged s ++ [(Success, MsgLinkPresent pluginId)])).
Proof.
  intros target Hne Hex Hl Hres. unfold deployLink. fold target.
  apply path_eqb_neq in Hne. rewrite Hne.
  unfold bind at 1. unfold existsM at 1. rewrite Hex.
  unfold bind at 1. unfold fsread at 1. rewrite Hl.
  change (isSymbolicLink (Symlink t)) with true. cbv iota.
  unfold bind at 1. unfold fsread at 1. unfold readlinkSync. rewrite Hl.
  rewrite Hres, path_eqb_refl. reflexivity.
Qed.


Lemma dirs_along_of_get (n : node) (p : Path) (es : list (string * node)) :
  get n p = Some (Dir es) -> dirs_along n p = true.
Proof.
  revert n. induction p as [|s p IH]; intros n Hg.
  - simpl in Hg. inversion Hg. reflexivity.
  - destruct (get_cons_inv _ _ _ _ Hg) as (es0 & c & -> & El & Hc).
    simpl. rewrite El. now apply IH.
Qed.

(** Removing what is at the target, then making the link. *)
Lemma removeThenLink_spec (h : host) (target : Path) (pluginId : string)
  (s : state) (n : node) :
  normalized target = true -> target <> [] ->
  get (files s) target = Some n ->
  removeThenLink h target pluginId s
  = Ret tt
      (mkState (put (del (files s) target) target
                  (Symlink (render (distDir h))))
               (logged s ++ [(Success, MsgLinkCreated pluginId)])).
Proof.
  intros Hn Hne Hg.
  destruct (snoc_cases target) as [E | (q & k & E)]; [congruence|].
  unfold removeThenLink. unfold bind at 1. unfold fsop at 1.
  rewrite E in Hn, Hg |- *.
  rewrite (rmSync_rf_get _ _ _ _ Hn Hg).
  assert (Hqk : q ++ [k] <> []) by now destruct q.
  destruct (get_dirname_dir _ _ _ Hqk Hg) as [es Hq].
  rewrite dirname_snoc in Hq.
  assert (Hq' : get (del (files s) (q ++ [k])) q
                = Some (Dir (del_entry k es))).
  { rewrite (get_del_above _ q [k] (Dir es)); [reflexivity | discriminate | exact Hq]. }
  rewrite createLink_free; simpl files.
  - rewrite dirname_snoc. now rewrite (mkdirs_existing _ _ _ Hq').
  - exact Hn.
  - now destruct q.
  - rewrite dirname_snoc. now apply dirs_along_of_get with (del_entry k es).
  - apply get_del_same. now destruct q.
Qed.

Lemma get_del_parent (fs : node) (p : Path) (n : node) :
  p <> [] -> get fs p = Some n ->
  exists es, get (del fs p) (dirname p) = Some (Dir es).
Proof.
  intros Hp Hg. destruct (get_dirname_dir _ _ _ Hp Hg) as [esq Hq].
  destruct (snoc_cases p) as [E | (q & k & E)]; [congruence|]. subst p.
  rewrite dirname_snoc in *.
  rewrite (get_del_above _ q [k] (Dir esq)); [simpl; eauto | discriminate | auto].
Qed.

Lemma statSync_through_link (fs : node) (p d : Path) (n : node) :
  normalized p = true -> normalized d = true -> d <> [] ->
  get fs p = Some (Symlink (render d)) ->
  get fs d = Some n -> isSymbolicLink n = false ->
  statSync fs p = Ok n.
Proof.
  intros Hn Hd Hdne Hg Hgd Hk.
  assert (Hp : p <> []).
  { intros ->. simpl in Hg. inversion Hg; subst fs.
    destruct d; [congruence | discriminate]. }
  destruct (get_dirname_dir _ _ _ Hp Hg) as [esq Hq].
  destruct (snoc_cases p) as [E | (q & k & E)]; [congruence|]. subst p.
  rewrite dirname_snoc in Hq.
  apply (statSync_link fs q k d n esq); auto.
  now rewrite <- (get_snoc_dir _ _ _ _ Hq).
Qed.

Section Converged.
Variable h : host.
Variable vaultPath : Path.
Variable pluginId : string.
Hypothesis Hvault : normalized vaultPath = true.
Hypothesis Hroot : normalized (projectRoot h) = true.

Let target : Path := targetPluginDir vaultPath pluginId.
Let dist : Path := distDir h.

Hypothesis Hdt : is_prefix dist target = false.
Hypothesis Htd : is_prefix target dist = false.

Lemma target_norm : normalized target = true.
Proof. apply (target_normalized _ _ Hvault). Qed.

Lemma target_nonempty : target <> [].
Proof. apply (not_prefix_nonempty _ _ Htd). Qed.

Lemma dist_norm : normalized dist = true.
Proof. apply (dist_normalized h Hroot). Qed.

Lemma dist_nonempty : dist <> [].
Proof. apply (not_prefix_nonempty _ _ Hdt). Qed.

Lemma guard_passes :
  path_eqb (resolve target []) (resolve dist []) = false.
Proof.
  rewrite (resolve_nil _ target_norm), (resolve_nil _ dist_norm).
  apply path_eqb_neq. now apply incomparable_neq.
Qed.

Lemma converged_seen (fs : node) :
  converged h vaultPath pluginId fs ->
  existsSync fs target = true /\
  lstatSync fs target = Ok (Symlink (render dist)).
Proof.
  intros [Hlink [es Hdist]]. split.
  - unfold existsSync.
    now rewrite (statSync_through_link fs target dist (Dir es) target_norm
                   dist_norm dist_nonempty Hlink Hdist eq_refl).
  - apply lstatSync_get; [apply target_norm | exact Hlink].
Qed.

(** On the state aimed at, [deployLink] changes nothing. *)
Lemma converged_noop (s : state) :
  converged h vaultPath pluginId (files s) ->
  deployLink h vaultPath pluginId s
  = Ret tt (mkState (files s) (logged s ++ [(Success, MsgLinkPresent pluginId)])).
Proof.
  intros Hc. destruct (converged_seen _ Hc) as [Hex Hl].
  apply link_present_noop with (t := render dist); fold target; auto.
  - apply path_eqb_neq, guard_passes.
  - fold dist. rewrite (resolve_render _ _ dist_norm).
    now rewrite (resolve_nil _ dist_norm).
Qed.

(** Storing the link at the free target of a tree where [dist] is a
    directory gives the state aimed at. *)
Lemma put_link_converged (fs : node) (es esq : list (string * node)) :
  get fs dist = Some (Dir es) ->
  get fs (dirname target) = Some (Dir esq) ->
  converged h vaultPath pluginId (put fs target (Symlink (render dist))).
Proof.
  intros Hdist Hq. split.
  - now apply get_put_same with esq.
  - exists es. now rewrite get_put_other.
Qed.

End Converged.

End LinkMode.

Module LinkClaims.
Import PathLib Fs Deploy PathFacts TreeFacts Shape WalkFacts GrowFacts
  CopyFile CopyFacts CopyTop CopyMode LinkMode Scenarios.

Lemma writeFileSync_child (fs : node) (q : Path) (k data : string)
  (es : list (string * node)) :
  normalized (q ++ [k]) = true ->
  get fs q = Some (Dir es) ->
  match lookup k es with
  | None => True
  | Some (File _) => True
  | Some _ => False
  end ->
  writeFileSync fs (q ++ [k]) data = Ok (put fs (q ++ [k]) (File data)).
Proof.
  intros Hn Hq Hk. destruct (lookup k es) as [[c|es1|t]|] eqn:El;
    try contradiction.
  - apply writeFileSync_over with c; auto.
    now rewrite (get_snoc_dir _ _ _ _ Hq).
  - now apply writeFileSync_vacant with es.
Qed.

(** Link mode over an installed copy, when [dist] and the target are
    apart: the backup is written into [dist], the directory is removed and
    the link is made. *)
Theorem link_keeps_backup (h : host) (vaultPath : Path) (pluginId : string)
  (s : state) (tes des : list (string * node)) (X : string) :
  let target := targetPluginDir vaultPath pluginId in
  let dist := distDir h in
  normalized vaultPath = true -> normalized (projectRoot h) = true ->
  is_prefix dist target = false -> is_prefix target dist = false ->
  get (files s) target = Some (Dir tes) ->
  lookup backup tes = Some (File X) ->
  get (files s) dist = Some (Dir des) ->
  stale_backup_ok des = true ->
  exists s',
    deployLink h vaultPath pluginId s = Ret tt s' /\
    get (files s') (dist ++ [backup]) = Some (File X) /\
    get (files s') target = Some (Symlink (render dist)) /\
    statSync (files s') target = Ok (Dir (set_entry backup (File X) des)).
Proof.
  intros target dist Hv Hroot Hdt Htd Htarget Hdata Hdist Hstale.
  pose proof (target_norm vaultPath pluginId Hv) as Hnt.
  pose proof (target_nonempty h vaultPath pluginId Htd) as Hne.
  pose proof (dist_norm h Hroot) as Hnd.
  fold target in Hnt, Hne. fold dist in Hnd.
  assert (Hb : normalized [backup] = true) by reflexivity.
  assert (Hntb : normalized (target ++ [backup]) = true)
    by now rewrite normalized_app, Hnt.
  assert (Hndb : normalized (dist ++ [backup]) = true)
    by now rewrite normalized_app, Hnd.
  set (fs1 := put (files s) (dist ++ [backup]) (File X)).
  set (fs2 := del fs1 target).
  set (fs3 := put fs2 target (Symlink (render dist))).
  assert (Hrun : deployLink h vaultPath pluginId s
                 = Ret tt (mkState fs3 ((logged s ++ [(Info, MsgBackedUp)])
                                        ++ [(Success, MsgLinkCreated pluginId)]))).
  { unfold deployLink. fold target. fold dist.
    pose proof (guard_passes h vaultPath pluginId Hv Hroot Htd) as Hguard.
    fold target in Hguard. fold dist in Hguard. rewrite Hguard.
    unfold bind at 1. unfold existsM at 1.
    rewrite (existsSync_get _ _ _ Hnt Htarget eq_refl).
    unfold bind at 1. unfold fsread at 1.
    rewrite (lstatSync_get _ _ _ Hnt Htarget).
    change (isSymbolicLink (Dir tes)) with false.
    change (isDirectory (Dir tes)) with true. cbv iota.
    rewrite (join_valid target ["data.json"] Hnt Hb).
    rewrite (join_valid dist ["data.json"] Hnd Hb).
    unfold bind at 1. unfold bind at 1. unfold existsM at 1.
    assert (Hsrc : get (files s) (target ++ [backup]) = Some (File X))
      by now rewrite (get_snoc_dir _ _ _ _ Htarget).
    fold backup.
    rewrite (existsSync_get _ _ _ Hntb Hsrc eq_refl).
    assert (Hw : writeFileSync (files s) (dist ++ [backup]) X = Ok fs1).
    { apply (writeFileSync_child _ _ _ X des Hndb Hdist).
      unfold stale_backup_ok in Hstale.
      destruct (lookup backup des) as [[c|x|x]|]; try discriminate; exact I. }
    unfold bind at 1. unfold fsdo at 1.
    rewrite (copyFileSync_ok _ _ _ _ _ (readFileSync_get _ _ _ Hntb Hsrc) Hw).
    unfold log at 1.
    rewrite (removeThenLink_spec h target pluginId _ (Dir tes) Hnt Hne).
    - reflexivity.
    - simpl files. unfold fs1. rewrite get_put_other; auto.
      + now apply incomparable_above.
      + now apply incomparable_below. }
  assert (Htarget1 : get fs1 target = Some (Dir tes)).
  { unfold fs1. rewrite get_put_other; auto.
    - now apply incomparable_above.
    - now apply incomparable_below. }
  destruct (get_del_parent fs1 target _ Hne Htarget1) as [esq' Hq2].
  fold fs2 in Hq2.
  assert (Hdist1 : get fs1 dist = Some (Dir (set_entry backup (File X) des))).
  { unfold fs1. now rewrite (get_put_above _ _ _ _ _ Hdist). }
  assert (Hdist3 : get fs3 dist = Some (Dir (set_entry backup (File X) des))).
  { unfold fs3, fs2. rewrite get_put_other by assumption.
    now rewrite get_del_other. }
  assert (Hlink : get fs3 target = Some (Symlink (render dist)))
    by (unfold fs3; now apply get_put_same with esq').
  eexists. split; [exact Hrun|]. simpl files. repeat split.
  - rewrite (get_snoc_dir _ _ _ _ Hdist3). apply lookup_set_entry_same.
  - exact Hlink.
  - apply (statSync_through_link fs3 target dist); auto.
    apply (dist_nonempty h vaultPath pluginId Hdt).
Qed.


Lemma deployLink_after_guard (h : host) (vaultPath : Path)
  (pluginId : string) (s : state) :
  normalized vaultPath = true -> normalized (projectRoot h) = true ->
  path_eqb (resolve (targetPluginDir vaultPath pluginId) [])
           (resolve (distDir h) []) = false ->
  deployLink h vaultPath pluginId s = deployLink_tail h vaultPath pluginId s.
Proof.
  intros Hv Hroot Hg.
  pose proof (target_normalized vaultPath pluginId Hv) as Hnt.
  pose proof (dist_normalized h Hroot) as Hnd.
  unfold deployLink, deployLink_tail. rewrite Hg.
  set (target := targetPluginDir vaultPath pluginId) in *.
  set (dist := distDir h) in *.
  unfold bind at 1. unfold existsM at 1.
  destruct (existsSync (files s) target); [|reflexivity].
  unfold bind at 1. unfold fsread at 1.
  destruct (lstatSync (files s) target) as [[c|es|t]|e] eqn:El;
    try reflexivity.
  - change (isSymbolicLink (Dir es)) with false.
    change (isDirectory (Dir es)) with true. cbv iota.
    rewrite (join_valid target ["data.json"] Hnt eq_refl).
    rewrite (join_valid dist ["data.json"] Hnd eq_refl).
    reflexivity.
  - change (isSymbolicLink (Symlink t)) with true. cbv iota.
    unfold bind at 1. unfold fsread at 1. unfold readlinkSync.
    rewrite El.
    destruct (path_eqb (resolve (dirname target) [t]) (resolve dist []));
      reflexivity.
Qed.

Section Twice.
Variable h : host.
Variable vaultPath : Path.
Variable pluginId : string.
Hypothesis Hvault : normalized vaultPath = true.
Hypothesis Hroot : normalized (projectRoot h) = true.

Let target : Path := targetPluginDir vaultPath pluginId.
Let dist : Path := distDir h.

Hypothesis Hdt : is_prefix dist target = false.
Hypothesis Htd : is_prefix target dist = false.

Let Hnt : normalized target = true := target_norm vaultPath pluginId Hvault.
Let Hne : target <> [] := target_nonempty h vaultPath pluginId Htd.
Let Hnd : normalized dist = true := dist_norm h Hroot.

Lemma deployLink_past_guard (s : state) :
  deployLink h vaultPath pluginId s =
  deployLink_tail h vaultPath pluginId s.
Proof.
  apply deployLink_after_guard; auto.
  apply (guard_passes h vaultPath pluginId Hvault Hroot Htd).
Qed.

Lemma removeThenLink_converges (s s1 : state) (n : node)
  (es : list (string * node)) :
  get (files s) target = Some n ->
  get (files s) dist = Some (Dir es) ->
  removeThenLink h target pluginId s = Ret tt s1 ->
  converged h vaultPath pluginId (files s1).
Proof.
  intros Ht Hd Hrun.
  rewrite (removeThenLink_spec h target pluginId s n Hnt Hne Ht) in Hrun.
  inversion Hrun; subst s1. simpl files.
  destruct (get_del_parent _ _ _ Hne Ht) as [esq Hq].
  apply put_link_converged with (es := es) (esq := esq); auto.
  fold dist. now rewrite get_del_other.
Qed.

(** A first run that returns leaves the state aimed at, or has found the
    link in place and changed nothing. *)
Lemma first_run_outcome (s s1 : state) (des : list (string * node)) :
  get (files s) dist = Some (Dir des) ->
  dirs_along (files s) (dirname target) = true ->
  backups_plain (files s) target dist = true ->
  deployLink h vaultPath pluginId s = Ret tt s1 ->
  converged h vaultPath pluginId (files s1) \/
  (files s1 = files s /\
   existsSync (files s) target = true /\
   exists t, lstatSync (files s) target = Ok (Symlink t) /\
             resolve (dirname target) [t] = resolve dist []).
Proof.
  intros Hdist Hdirs Hplain Hrun.
  rewrite deployLink_past_guard in Hrun.
  unfold deployLink_tail in Hrun. fold target in Hrun. fold dist in Hrun.
  apply andb_true_iff in Hplain. destruct Hplain as [Hpt Hpd].
  destruct (get (files s) target) as [n|] eqn:Et.
  - (* something is at the target *)
    rewrite (lstatSync_get _ _ _ Hnt Et) in Hrun.
    destruct (existsSync (files s) target) eqn:Eex.
    + destruct n as [c|tes|t].
      * left. now apply removeThenLink_converges with s (File c) des.
      * (* a directory: the backup, then the replacement *)
        left. unfold bind at 1 in Hrun. unfold bind at 1 in Hrun.
        unfold existsM at 1 in Hrun.
        destruct (existsSync (files s) (target ++ [backup])) eqn:Eb.
        -- unfold bind at 1 in Hrun. unfold fsdo at 1 in Hrun.
           assert (Hntb : normalized (target ++ [backup]) = true)
             by now rewrite normalized_app, Hnt.
           assert (Hndb : normalized (dist ++ [backup]) = true)
             by now rewrite normalized_app, Hnd.
           destruct (lookup backup tes) as [[X|x|x]|] eqn:Elb.
           ++ assert (Hsrc : get (files s) (target ++ [backup]) = Some (File X))
                by now rewrite (get_snoc_dir _ _ _ _ Et).
              pose proof (readFileSync_get _ _ _ Hntb Hsrc) as Hread.
              rewrite (get_snoc_dir _ _ _ _ Hdist) in Hpd.
              destruct (lookup backup des) as [[c|x|x]|] eqn:Eld;
                try discriminate.
              ** rewrite (copyFileSync_ok _ _ _ _ _ Hread
                            (writeFileSync_child _ _ _ X des Hndb Hdist
                               ltac:(now rewrite Eld))) in Hrun.
                 unfold log at 1 in Hrun.
                 eapply removeThenLink_converges with (n := Dir tes);
                   [ | | exact Hrun]; simpl files.
                 --- rewrite get_put_other; auto.
                     +++ now apply incomparable_above.
                     +++ now apply incomparable_below.
                 --- now rewrite (get_put_above _ _ _ _ _ Hdist).
              ** rewrite (copyFileSync_no_destination _ _ _ (File X) EISDIR)
                   in Hrun; [discriminate | |].
                 --- now apply statSync_get.
                 --- unfold writeFileSync.
                     rewrite (namei_get _ true _ (Dir x) Hndb);
                       [reflexivity | | now left].
                     now rewrite (get_snoc_dir _ _ _ _ Hdist).
              ** rewrite (copyFileSync_ok _ _ _ _ _ Hread
                            (writeFileSync_child _ _ _ X des Hndb Hdist
                               ltac:(now rewrite Eld))) in Hrun.
                 unfold log at 1 in Hrun.
                 eapply removeThenLink_converges with (n := Dir tes);
                   [ | | exact Hrun]; simpl files.
                 --- rewrite get_put_other; auto.
                     +++ now apply incomparable_above.
                     +++ now apply incomparable_below.
                 --- now rewrite (get_put_above _ _ _ _ _ Hdist).
           ++ assert (Hsrc : get (files s) (target ++ [backup]) = Some (Dir x))
                by now rewrite (get_snoc_dir _ _ _ _ Et).
              destruct (copyFileSync_dir_source (files s) (target ++ [backup])
                          (dist ++ [backup]) x
                          (statSync_get _ _ _ Hntb Hsrc eq_refl))
                as (e & fs' & Hc).
              rewrite Hc in Hrun. discriminate.
           ++ rewrite (get_snoc_dir _ _ _ _ Et), Elb in Hpt. discriminate.
           ++ rewrite (existsSync_vacant _ _ _ _ Hntb Et Elb) in Eb.
              discriminate.
        -- unfold ret in Hrun.
           now apply removeThenLink_converges with s (Dir tes) des.
      * destruct (path_eqb (resolve (dirname target) [t]) (resolve dist []))
          eqn:Ep.
        -- right. unfold log in Hrun. inversion Hrun; subst s1. simpl.
           repeat split; auto. exists t. split.
           ++ now apply lstatSync_get.
           ++ now apply path_eqb_eq.
        -- left. now apply removeThenLink_converges with s (Symlink t) des.
    + (* a link that leads nowhere is not seen: making the link fails *)
      exfalso. unfold createLink in Hrun.
      destruct (get_dirname_dir _ _ _ Hne Et) as [esq Hq].
      unfold bind at 1 in Hrun. unfold fsop at 1 in Hrun.
      assert (Hnq : normalized (dirname target) = true).
      { destruct (snoc_cases target) as [E | (q & k & E)]; [congruence|].
        rewrite E in *. rewrite dirname_snoc.
        now destruct (normalized_snoc _ _ Hnt). }
      rewrite (mkdirSync_recursive_existing _ _ _ Hnq Hq) in Hrun.
      unfold try_catch, bind, fsop, symlinkSync in Hrun. simpl files in Hrun.
      rewrite (namei_get _ false _ n Hnt Et (or_intror eq_refl)) in Hrun.
      discriminate.
  - (* nothing is at the target *)
    left.
    destruct (snoc_cases target) as [E | (q & k & E)]; [congruence|].
    assert (Hdk : dirs_along (files s) target = true).
    { rewrite E in *. rewrite dirname_snoc in Hdirs.
      now apply dirs_along_absent. }
    rewrite (existsSync_absent _ _ Hnt Hdk Et) in Hrun.
    rewrite (createLink_free h target pluginId s Hnt Hne Hdirs Et) in Hrun.
    inversion Hrun; subst s1. simpl files.
    destruct (extends_mkdirs _ _ Hdirs _ _ Hdist) as (m & Hm & [es' Em]).
    subst m.
    assert (Hq : exists esq, get (mkdirs (files s) (dirname target))
                               (dirname target) = Some (Dir esq)).
    { rewrite E in *. rewrite dirname_snoc in *.
      now apply get_mkdirs_parent with k. }
    destruct Hq as [esq Hq].
    now apply put_link_converged with (es := es') (esq := esq).
Qed.

(** Two runs of link mode in a row: when the first returns, the second
    returns as well, leaves the tree as it found it and only reports that
    the link is in place. *)
Theorem link_twice (s s1 : state) (des : list (string * node)) :
  get (files s) dist = Some (Dir des) ->
  dirs_along (files s) (dirname target) = true ->
  backups_plain (files s) target dist = true ->
  deployLink h vaultPath pluginId s = Ret tt s1 ->
  deployLink h vaultPath pluginId s1
  = Ret tt (mkState (files s1)
              (logged s1 ++ [(Success, MsgLinkPresent pluginId)])).
Proof.
  intros Hdist Hdirs Hplain Hrun.
  destruct (first_run_outcome s s1 des Hdist Hdirs Hplain Hrun)
    as [Hc | (Hsame & Hex & t & Hl & Hres)].
  - now apply converged_noop.
  - apply link_present_noop with (t := t); fold target; rewrite ?Hsame; auto.
    apply path_eqb_neq.
    apply (guard_passes h vaultPath pluginId Hvault Hroot Htd).
Qed.

End Twice.

(** *** [dist] inside the target *)

(** A link whose text is a path through the link itself cannot be
    walked: every hop comes back to it with more left to walk. *)
Lemma link_into_itself (fs : node) (q : Path) (k : string) (r : Path)
  (esq : list (string * node)) :
  normalized (q ++ [k]) = true -> normalized r = true -> r <> [] ->
  get fs q = Some (Dir esq) ->
  lookup k esq = Some (Symlink (render ((q ++ [k]) ++ r))) ->
  forall (hops : nat) (extra : Path),
    namei_from hops fs true [] ((q ++ [k]) ++ r ++ extra) = Err ELOOP.
Proof.
  intros Hn Hnr Hr Hq El.
  destruct (normalized_snoc _ _ Hn) as [Hnq Hk].
  destruct (valid_name_step _ Hk) as [Hk1 Hk2].
  assert (Hnd : normalized ((q ++ [k]) ++ r) = true)
    by now rewrite normalized_app, Hn.
  assert (Hjump : forall extra,
            descend fs true [] ((q ++ [k]) ++ r ++ extra)
            = Jump q (render ((q ++ [k]) ++ r)) (r ++ extra)).
  { intros extra. rewrite <- app_assoc.
    rewrite (descend_app fs true q [] _ esq Hnq Hq).
    change ([] ++ q) with q. change ([k] ++ r ++ extra) with (k :: r ++ extra).
    cbn [descend]. rewrite Hq, Hk1, Hk2, El.
    destruct r as [|a r]; [congruence | reflexivity]. }
  assert (Hroot : exists es0, fs = Dir es0).
  { destruct q as [|a q].
    - simpl in Hq. inversion Hq. now exists esq.
    - destruct (get_cons_inv _ _ _ _ Hq) as (es0 & c & E & _). now exists es0. }
  destruct Hroot as [es0 Eroot].
  induction hops as [|hops IH]; intros extra.
  - cbn [namei_from]. now rewrite Hjump.
  - cbn [namei_from]. rewrite Hjump.
    rewrite render_not_empty, render_absolute.
    assert (Ene : (q ++ [k]) ++ r <> []) by now destruct q.
    destruct ((q ++ [k]) ++ r) as [|a d] eqn:Ed; [congruence|].
    change (render (a :: d)) with (render_segs (a :: d)).
    rewrite (segments_render_segs _ Hnd).
    assert (E : forall rest, namei_from hops fs true [] ("" :: rest)
                             = namei_from hops fs true [] rest).
    { intros rest. destruct hops; cbn [namei_from descend]; subst fs;
        reflexivity. }
    simpl app at 1. rewrite E.
    change (namei_from hops fs true [] ((a :: d) ++ r ++ extra) = Err ELOOP).
    rewrite <- Ed, <- (app_assoc (q ++ [k]) r (r ++ extra)). apply IH.
Qed.

(** The walk through a link at the end of a path goes on from the root
    with the text of the link. *)
Lemma namei_follows_link (fs : node) (q : Path) (k : string) (d : Path)
  (esq : list (string * node)) :
  normalized (q ++ [k]) = true -> normalized d = true -> d <> [] ->
  get fs q = Some (Dir esq) -> lookup k esq = Some (Symlink (render d)) ->
  namei fs true (q ++ [k]) = namei_from 39 fs true [] d.
Proof.
  intros Hnqk Hnd Hdne Hq Hk.
  destruct (normalized_snoc _ _ Hnqk) as [Hnq Hvk].
  unfold namei, max_hops. cbn [namei_from].
  rewrite (descend_app fs true q [] [k] esq Hnq Hq). simpl app at 1.
  rewrite (descend_last fs true q k esq Hvk Hq), Hk.
  rewrite render_not_empty, render_absolute, app_nil_r.
  destruct d as [|a d]; [congruence|].
  change (render (a :: d)) with (render_segs (a :: d)).
  rewrite (segments_render_segs _ Hnd).
  assert (Eroot : exists es0, fs = Dir es0).
  { destruct q as [|b q].
    - simpl in Hq. inversion Hq. now exists esq.
    - destruct (get_cons_inv _ _ _ _ Hq) as (es0 & c & E0 & _).
      now exists es0. }
  destruct Eroot as [es0 Eroot].
  cbn [namei_from descend]. subst fs. reflexivity.
Qed.

Lemma removeThenLink_root (h : host) (pluginId : string) (s : state) :
  removeThenLink h [] pluginId s = Throw (FsError EBUSY) s.
Proof.
  unfold removeThenLink, bind, fsop, rmSync_rf, namei.
  destruct (files s); reflexivity.
Qed.

Section Nested.
Variable h : host.
Variable vaultPath : Path.
Variable pluginId : string.
Hypothesis Hvault : normalized vaultPath = true.
Hypothesis Hroot : normalized (projectRoot h) = true.

Let target : Path := targetPluginDir vaultPath pluginId.
Let dist : Path := distDir h.

Variable r : Path.
Hypothesis Hin : dist = target ++ r.
Hypothesis Hr : r <> [].

Let Hnt : normalized target = true := target_normalized _ pluginId Hvault.
Let Hnd : normalized dist = true := dist_normalized h Hroot.

Lemma nested_guard_passes :
  path_eqb (resolve target []) (resolve dist []) = false.
Proof.
  rewrite (resolve_nil _ Hnt), (resolve_nil _ Hnd).
  apply path_eqb_neq. rewrite Hin. intros E.
  rewrite <- (app_nil_r target) in E at 1.
  apply app_inv_head in E. congruence.
Qed.

(** What [removeThenLink] leaves at the target. *)
Lemma removeThenLink_link_at (s s' : state) (n : node) :
  get (files s) target = Some n ->
  removeThenLink h target pluginId s = Ret tt s' ->
  link_at (files s') target (render dist).
Proof.
  intros Ht Hrun.
  destruct (snoc_cases target) as [E | (q & k & E)].
  - rewrite E, removeThenLink_root in Hrun. discriminate.
  - assert (Hne : target <> []) by (rewrite E; now destruct q).
    rewrite (removeThenLink_spec h target pluginId s n Hnt Hne Ht) in Hrun.
    inversion Hrun; subst s'. simpl files.
    destruct (get_del_parent _ _ _ Hne Ht) as [esq Hq].
    set (fs2 := del (files s) target) in *.
    set (fs3 := put fs2 target (Symlink (render (distDir h)))).
    assert (Hlink : get fs3 target = Some (Symlink (render dist)))
      by (unfold fs3; now apply get_put_same with esq).
    destruct (get_dirname_dir fs3 target _ Hne Hlink) as [esq' Hq'].
    rewrite E, dirname_snoc in Hq'. exists q, k, esq'.
    split; [exact E|]. split; [exact Hq'|].
    rewrite E in Hlink. now rewrite (get_snoc_dir _ _ _ _ Hq') in Hlink.
Qed.

(** A run of link mode over a real directory that holds [dist]: when it
    returns, the link is an entry of the directory above the target. *)
Lemma first_run_link_at (s s' : state) (tes des : list (string * node)) :
  get (files s) target = Some (Dir tes) ->
  get (files s) dist = Some (Dir des) ->
  backups_plain (files s) target dist = true ->
  deployLink h vaultPath pluginId s = Ret tt s' ->
  link_at (files s') target (render dist).
Proof.
  intros Ht Hdist Hplain Hrun.
  rewrite (deployLink_after_guard h vaultPath pluginId s Hvault Hroot
             nested_guard_passes) in Hrun.
  unfold deployLink_tail in Hrun. fold target in Hrun. fold dist in Hrun.
  rewrite (existsSync_get _ _ _ Hnt Ht eq_refl) in Hrun.
  rewrite (lstatSync_get _ _ _ Hnt Ht) in Hrun.
  unfold bind at 1 in Hrun. unfold bind at 1 in Hrun.
  unfold existsM at 1 in Hrun.
  apply andb_true_iff in Hplain. destruct Hplain as [Hpt Hpd].
  assert (Hntb : normalized (target ++ [backup]) = true)
    by now rewrite normalized_app, Hnt.
  assert (Hndb : normalized (dist ++ [backup]) = true)
    by now rewrite normalized_app, Hnd.
  destruct (existsSync (files s) (target ++ [backup])) eqn:Eb.
  - unfold bind at 1 in Hrun. unfold fsdo at 1 in Hrun.
    destruct (lookup backup tes) as [[X|x|x]|] eqn:Elb.
    + assert (Hsrc : get (files s) (target ++ [backup]) = Some (File X))
        by now rewrite (get_snoc_dir _ _ _ _ Ht).
      pose proof (readFileSync_get _ _ _ Hntb Hsrc) as Hread.
      rewrite (get_snoc_dir _ _ _ _ Hdist) in Hpd.
      assert (Hw : copyFileSync (files s) (target ++ [backup])
                     (dist ++ [backup])
                   = Completed (put (files s) (dist ++ [backup]) (File X))
                   \/ copyFileSync (files s) (target ++ [backup])
                        (dist ++ [backup])
                      = Aborted EISDIR (files s)).
      { destruct (lookup backup des) as [[c|x|x]|] eqn:Eld;
          try discriminate.
        - left. apply (copyFileSync_ok _ _ _ _ _ Hread).
          apply (writeFileSync_child _ _ _ X des Hndb Hdist).
          now rewrite Eld.
        - right. apply (copyFileSync_no_destination _ _ _ (File X)).
          + now apply statSync_get.
          + unfold writeFileSync.
            rewrite (namei_get _ true _ (Dir x) Hndb);
              [reflexivity| |now left].
            now rewrite (get_snoc_dir _ _ _ _ Hdist).
        - left. apply (copyFileSync_ok _ _ _ _ _ Hread).
          apply (writeFileSync_child _ _ _ X des Hndb Hdist).
          now rewrite Eld. }
      destruct Hw as [Hw | Hw]; rewrite Hw in Hrun; [|discriminate].
      unfold log at 1 in Hrun.
      eapply removeThenLink_link_at; [ | exact Hrun]. simpl files.
      rewrite Hin, <- app_assoc. apply (get_put_above _ _ _ _ _ Ht).
    + assert (Hsrc : get (files s) (target ++ [backup]) = Some (Dir x))
        by now rewrite (get_snoc_dir _ _ _ _ Ht).
      destruct (copyFileSync_dir_source (files s) (target ++ [backup])
                  (dist ++ [backup]) x
                  (statSync_get _ _ _ Hntb Hsrc eq_refl))
        as (e & fs' & Hc).
      rewrite Hc in Hrun. discriminate.
    + rewrite (get_snoc_dir _ _ _ _ Ht), Elb in Hpt. discriminate.
    + rewrite (existsSync_vacant _ _ _ _ Hntb Ht Elb) in Eb. discriminate.
  - unfold ret in Hrun. now apply removeThenLink_link_at with s (Dir tes).
Qed.

(** Behind such a link nothing can be reached. *)
Lemma behind_looping_link (fs : node) :
  link_at fs target (render dist) ->
  forall (hops : nat) (extra : Path),
    namei_from hops fs true [] (dist ++ extra) = Err ELOOP.
Proof.
  intros (q & k & esq & E & Hq & Hk) hops extra.
  assert (Hnr : normalized r = true).
  { pose proof Hnd as H0. rewrite Hin, normalized_app in H0.
    now apply andb_true_iff in H0. }
  rewrite Hin, E, <- app_assoc.
  apply link_into_itself with esq; auto.
  - now rewrite <- E.
  - now rewrite <- E, <- Hin.
Qed.

(** [existsSync] does not see the link. *)
Lemma looping_link_unseen (fs : node) :
  link_at fs target (render dist) -> existsSync fs target = false.
Proof.
  intros Hl. pose proof (behind_looping_link fs Hl) as Hloop.
  destruct Hl as (q & k & esq & E & Hq & Hk).
  assert (Hnqk : normalized (q ++ [k]) = true) by now rewrite <- E.
  assert (Hdne : dist <> []).
  { intros E0. rewrite Hin in E0. apply app_eq_nil in E0. tauto. }
  unfold existsSync, statSync. rewrite E.
  rewrite (namei_follows_link fs q k dist esq Hnqk Hnd Hdne Hq Hk).
  rewrite <- (app_nil_r dist). now rewrite Hloop.
Qed.

(** The layout behind C4 and C5, for every tree: [dist] is inside the
    target and the target is a real directory.  A run of link mode that
    returns has removed [dist] with the target; what it leaves at the target
    is a link that leads into itself, and neither [dist] nor the backup can
    be reached. *)
Theorem link_loses_dist_inside_target (s s' : state)
  (tes des : list (string * node)) :
  get (files s) target = Some (Dir tes) ->
  get (files s) dist = Some (Dir des) ->
  backups_plain (files s) target dist = true ->
  deployLink h vaultPath pluginId s = Ret tt s' ->
  get (files s') target = Some (Symlink (render dist)) /\
  statSync (files s') dist = Err ELOOP /\
  readFileSync (files s') (dist ++ [backup]) = Err ELOOP.
Proof.
  intros Ht Hdist Hplain Hrun.
  pose proof (first_run_link_at s s' tes des Ht Hdist Hplain Hrun) as Hl.
  pose proof (behind_looping_link _ Hl) as Hloop.
  destruct Hl as (q & k & esq & E & Hq & Hk).
  split; [|split].
  - rewrite E. now rewrite (get_snoc_dir _ _ _ _ Hq).
  - unfold statSync, namei. rewrite <- (app_nil_r dist). now rewrite Hloop.
  - unfold readFileSync, statSync, namei. now rewrite Hloop.
Qed.

(** In that layout a second run does not find the first run's link in
    place: it takes the target for missing, fails to make the link and
    stops with status 1. *)
Theorem second_link_run_fails_inside_target (s s' : state)
  (tes des : list (string * node)) :
  get (files s) target = Some (Dir tes) ->
  get (files s) dist = Some (Dir des) ->
  backups_plain (files s) target dist = true ->
  deployLink h vaultPath pluginId s = Ret tt s' ->
  deployLink h vaultPath pluginId s'
  = Exit 1 (mkState (files s')
              (logged s' ++ [(Failure, MsgLinkFailed (FsError EEXIST))])).
Proof.
  intros Ht Hdist Hplain Hrun.
  pose proof (first_run_link_at s s' tes des Ht Hdist Hplain Hrun) as Hl.
  rewrite (deployLink_after_guard h vaultPath pluginId s' Hvault Hroot
             nested_guard_passes).
  unfold deployLink_tail. fold target. fold dist.
  rewrite (looping_link_unseen _ Hl).
  destruct Hl as (q & k & esq & E & Hq & Hk).
  assert (Hnqk : normalized (q ++ [k]) = true) by now rewrite <- E.
  destruct (normalized_snoc _ _ Hnqk) as [Hnq Hvk].
  unfold createLink. unfold bind at 1. unfold fsop at 1.
  rewrite E at 1. rewrite dirname_snoc.
  rewrite (mkdirSync_recursive_existing _ _ _ Hnq Hq).
  unfold try_catch, bind, fsop, symlinkSync. simpl files.
  rewrite (namei_get _ false target (Symlink (render dist)) Hnt);
    [reflexivity | | now right].
  rewrite E. now rewrite (get_snoc_dir _ _ _ _ Hq).
Qed.

End Nested.

(** Link mode over the installed copy of [fsInstalled]: the backup is in
    [dist] and the target leads to [dist]. *)
Example link_keeps_backup_installed :
  exists s',
    deployLink hostProj ["v"] "myplug" (mkState fsInstalled []) = Ret tt s' /\
    get (files s') ["proj"; "dist"; "data.json"] = Some (File "X") /\
    get (files s') ["v"; ".obsidian"; "plugins"; "myplug"]
    = Some (Symlink "/proj/dist").
Proof.
  destruct (link_keeps_backup hostProj ["v"] "myplug" (mkState fsInstalled [])
              [("data.json", File "X"); ("main.js", File "old")]
              [("main.js", File "code")] "X")
    as (s' & H1 & H2 & H3 & _); try reflexivity.
  exists s'. auto.
Defined.

(** A second run on what the first run left of [fsInstalled]. *)
Example link_twice_installed :
  exists s1,
    deployLink hostProj ["v"] "myplug" (mkState fsInstalled []) = Ret tt s1 /\
    deployLink hostProj ["v"] "myplug" s1
    = Ret tt (mkState (files s1)
                (logged s1 ++ [(Success, MsgLinkPresent "myplug")])).
Proof.
  eexists. split; [vm_compute; reflexivity|].
  apply (link_twice hostProj ["v"] "myplug" eq_refl eq_refl eq_refl eq_refl
           (mkState fsInstalled []) _ [("main.js", File "code")]);
    reflexivity.
Defined.

(** The same on the project checked out in the plugin folder
    ([fsInVault]). *)
Example link_loses_dist_in_vault :
  exists s',
    deployLink hostInVault ["v"] "p" (mkState fsInVault []) = Ret tt s' /\
    statSync (files s') (distDir hostInVault) = Err ELOOP /\
    readFileSync (files s') (distDir hostInVault ++ [backup]) = Err ELOOP.
Proof.
  eexists. split; [vm_compute; reflexivity|].
  refine (proj2 (link_loses_dist_inside_target hostInVault ["v"] "p"
                   eq_refl eq_refl ["dist"] eq_refl _
                   (mkState fsInVault []) _
                   [("manifest.json", File "p"); (".env", File "VAULT_PATH=/v");
                    ("scripts", Dir [("deploy.mjs", File "script")]);
                    ("data.json", File "X");
                    ("dist", Dir [("main.js", File "code");
                                  (".hotreload", File "")])]
                   [("main.js", File "code"); (".hotreload", File "")]
                   eq_refl eq_refl eq_refl _)).
  - discriminate.
  - vm_compute. reflexivity.
Defined.

Example second_link_run_fails_in_vault :
  exists s',
    deployLink hostInVault ["v"] "p" (mkState fsInVault []) = Ret tt s' /\
    deployLink hostInVault ["v"] "p" s'
    = Exit 1 (mkState (files s')
                (logged s' ++ [(Failure, MsgLinkFailed (FsError EEXIST))])).
Proof.
  eexists. split; [vm_compute; reflexivity|].
  refine (second_link_run_fails_inside_target hostInVault ["v"] "p"
            eq_refl eq_refl ["dist"] eq_refl _
            (mkState fsInVault []) _
            [("manifest.json", File "p"); (".env", File "VAULT_PATH=/v");
             ("scripts", Dir [("deploy.mjs", File "script")]);
             ("data.json", File "X");
             ("dist", Dir [("main.js", File "code");
                           (".hotreload", File "")])]
            [("main.js", File "code"); (".hotreload", File "")]
            eq_refl eq_refl eq_refl _).
  - discriminate.
  - vm_compute. reflexivity.
Defined.

(** C4 on the code, with the project checked out in the folder of the
    plugin ([/v/.obsidian/plugins/p], so that [dist] is inside the target):
    the target is a real directory that holds [data.json] with content
    [X]; link mode reports the backup and the link, and returns.  The
    backup went into [dist], [dist] went with the target: what is left is
    a link that leads into itself, and there is no [dist/data.json]. *)
Theorem backup_lost_when_dist_in_target :
  get fsInVault (targetPluginDir ["v"] "p" ++ [backup]) = Some (File "X") /\
  is_prefix (targetPluginDir ["v"] "p") (distDir hostInVault) = true /\
  deployLink hostInVault ["v"] "p" (mkState fsInVault [])
  = Ret tt (mkState fsInVaultAfter
              [(Info, MsgBackedUp); (Success, MsgLinkCreated "p")]) /\
  statSync fsInVaultAfter (distDir hostInVault) = Err ELOOP /\
  readFileSync fsInVaultAfter (distDir hostInVault ++ [backup]) = Err ELOOP.
Proof. repeat split; vm_compute; reflexivity. Qed.

(** C5 on the code, same installation: the first run returns with status
    0; the second run, on what the first left, ends with status 1 (in
    [ensureDistReady], [dist] cannot be reached nor made), and
    [deployLink] alone does not see the link and fails to make it. *)
Theorem second_run_fails_when_dist_in_target :
  run hostInVault 5 ["link"] fsInVault = Some (0%Z, fsInVaultAfter) /\
  run hostInVault 5 ["link"] fsInVaultAfter = Some (1%Z, fsInVaultAfter) /\
  main hostInVault 5 ["link"] (mkState fsInVaultAfter [])
  = Exit 1 (mkState fsInVaultAfter
              [(Info, MsgMode "link");
               (Failure, MsgDeployFailed (FsError ELOOP))]) /\
  deployLink hostInVault ["v"] "p" (mkState fsInVaultAfter [])
  = Exit 1 (mkState fsInVaultAfter [(Failure, MsgLinkFailed (FsError EEXIST))]).
Proof. repeat split; vm_compute; reflexivity. Qed.

(** Copy mode on the same installation removes the project and stops with
    status 1. *)
Example copy_fails_when_dist_in_target :
  run hostInVault 5 ["copy"] fsInVault
  = Some (1%Z,
          Dir [("v", Dir [(".obsidian",
                           Dir [("plugins", Dir [("p", Dir [])])])])]).
Proof. vm_compute. reflexivity. Qed.

End LinkClaims.

(* ===================================================================== *)
(** ** Arguments, target path and guards *)
(* ===================================================================== *)

Module Guards.
Import PathLib Fs Deploy PathFacts Scenarios.

(** With nothing at all on the command line the mode is ["link"], and the
    run is the run of [link]: [main] on the empty argument list is [main]
    on [["link"]], for every host, recursion budget and starting state. *)
Lemma default_mode_is_link :
  deployMode [] = "link" /\
  forall (h : host) (fuel : nat) (s : state),
    main h fuel [] s = main h fuel ["link"] s.
Proof.
  split; [reflexivity|].
  intros h fuel s. reflexivity.
Qed.

(** An empty first argument is also replaced by the default. *)
Lemma empty_mode_is_link (rest : list string) : deployMode ("" :: rest) = "link".
Proof. reflexivity. Qed.

(** The option alone, in first position, is taken for the mode. *)
Example option_first_is_unknown_mode :
  deployMode ["--vault-path=/v"] = "--vault-path=/v".
Proof. reflexivity. Qed.

(** C10: the script is called as its usage line allows, with the option
    and no mode.  The mode is what stands first, so the option is taken for
    it: the run does not behave as the run of [link] with the same option,
    which backs up [data.json] and makes the link, but ends with status 1
    on an unknown mode and leaves the installed plugin as it was. *)
Example mode_omitted_before_option :
  main hostProj 5 ["--vault-path=/v"] (mkState fsInstalled [])
  = Exit 1
      (mkState
         (Dir [project [("dist", Dir [("main.js", File "code");
                                      (".hotreload", File "")])];
               vault [("myplug", Dir [("data.json", File "X");
                                      ("main.js", File "old")])]])
         [(Info, MsgMode "--vault-path=/v"); (Info, MsgVault ["v"]);
          (Info, MsgPluginId "myplug");
          (Failure, MsgUnknownMode "--vault-path=/v");
          (Info, MsgSupportedModes)]) /\
  main hostProj 5 ["link"; "--vault-path=/v"] (mkState fsInstalled [])
  = Ret tt
      (mkState
         (Dir [project [("dist", Dir [("main.js", File "code");
                                      (".hotreload", File "");
                                      ("data.json", File "X")])];
               vault [("myplug", Symlink "/proj/dist")]])
         [(Info, MsgMode "link"); (Info, MsgVault ["v"]);
          (Info, MsgPluginId "myplug"); (Info, MsgBackedUp);
          (Success, MsgLinkCreated "myplug")]) /\
  run hostProj 5 ["--vault-path=/v"] fsInstalled
  <> run hostProj 5 ["link"; "--vault-path=/v"] fsInstalled.
Proof.
  split; [vm_compute; reflexivity|]. split; [vm_compute; reflexivity|].
  vm_compute. discriminate.
Qed.

Lemma targetPluginDir_valid (base : Path) (id : string) :
  normalized base = true -> valid_name id = true ->
  targetPluginDir base id = base ++ [".obsidian"; "plugins"; id].
Proof.
  intros Hb Hi. unfold targetPluginDir. apply join_valid; [exact Hb|].
  simpl. now rewrite Hi.
Qed.

(** C9, as amended: for a normalised absolute base path and a plugin id
    that is one path segment (not empty, no ['/'], neither ["."] nor
    [".."]), the target is [<base>/.obsidian/plugins/<pluginId>], the parent
    of its parent is [path.join(base, ".obsidian")], and equal inputs give
    equal targets. *)
Theorem target_path_layout (base : Path) (id : string) :
  normalized base = true -> valid_name id = true ->
  targetPluginDir base id = base ++ [".obsidian"; "plugins"; id] /\
  dirname (dirname (targetPluginDir base id)) = join base [".obsidian"] /\
  (forall base' id', base' = base -> id' = id ->
     targetPluginDir base' id' = targetPluginDir base id).
Proof.
  intros Hb Hi.
  split; [now apply targetPluginDir_valid|]. split.
  - rewrite (targetPluginDir_valid _ _ Hb Hi).
    rewrite (join_valid base [".obsidian"] Hb eq_refl).
    change (base ++ [".obsidian"; "plugins"; id])
      with (base ++ [".obsidian"] ++ ["plugins"] ++ [id]).
    rewrite !app_assoc. rewrite !dirname_snoc. reflexivity.
  - intros base' id' -> ->. reflexivity.
Qed.

Lemma target_path_layout_witness :
  targetPluginDir ["v"] "myplug" = ["v"; ".obsidian"; "plugins"; "myplug"] /\
  dirname (dirname (targetPluginDir ["v"] "myplug")) = join ["v"] [".obsidian"].
Proof.
  destruct (target_path_layout ["v"] "myplug" eq_refl eq_refl) as (H1 & H2 & _).
  split; [exact H1 | exact H2].
Defined.

(** C9 as stated fails: the plugin id [".."] has no separator, yet the
    target is then [/v/.obsidian] and the parent of its parent is the
    root, not [/v/.obsidian]. *)
Lemma target_path_dotdot :
  targetPluginDir ["v"] ".." = ["v"; ".obsidian"] /\
  dirname (dirname (targetPluginDir ["v"] "..")) <> join ["v"] [".obsidian"].
Proof. split; [reflexivity | discriminate]. Qed.

(** The guard of the two functions: when the target path and the [dist]
    path resolve to the same path, [deployLink] and [deployCopy] stop with
    [process.exit(0)]; the file tree is the one they were given, and only
    the informational line is added to the log. *)
Lemma self_target_guard (h : host) (fuel : nat) (vaultPath : Path)
  (pluginId : string) (s : state) :
  resolve (targetPluginDir vaultPath pluginId) [] = resolve (distDir h) [] ->
  deployLink h vaultPath pluginId s
    = Exit 0 (mkState (files s) (logged s ++ [(Info, MsgSameAsDistLink)])) /\
  deployCopy h fuel vaultPath pluginId s
    = Exit 0 (mkState (files s) (logged s ++ [(Info, MsgSameAsDistCopy)])).
Proof.
  intros H. unfold deployLink, deployCopy. rewrite H, path_eqb_refl.
  split; reflexivity.
Qed.

Lemma self_target_guard_witness :
  deployLink hostSelf ["v"] "dist" (mkState fsSelf [])
    = Exit 0 (mkState fsSelf [(Info, MsgSameAsDistLink)]) /\
  deployCopy hostSelf 5 ["v"] "dist" (mkState fsSelf [])
    = Exit 0 (mkState fsSelf [(Info, MsgSameAsDistCopy)]).
Proof.
  exact (self_target_guard hostSelf 5 ["v"] "dist" (mkState fsSelf []) eq_refl).
Defined.

(** The test of [deployCopy] itself: entered with a target that is not
    the [dist] path and without [dist], the function stops with
    [process.exit(1)]; the file tree is untouched (nothing was removed or
    copied) and the log gains the one error line. *)
Lemma copy_without_dist_fails (h : host) (fuel : nat) (vaultPath : Path)
  (pluginId : string) (s : state) :
  resolve (targetPluginDir vaultPath pluginId) [] <> resolve (distDir h) [] ->
  existsSync (files s) (distDir h) = false ->
  deployCopy h fuel vaultPath pluginId s
    = Exit 1 (mkState (files s) (logged s ++ [(Failure, MsgNoDist)])).
Proof.
  intros Hne Hex. unfold deployCopy.
  apply path_eqb_neq in Hne. rewrite Hne.
  unfold bind, existsM. rewrite Hex. reflexivity.
Qed.

Lemma copy_without_dist_fails_witness :
  deployCopy hostProj 5 ["v"] "myplug" (mkState fsNotBuilt [])
    = Exit 1 (mkState fsNotBuilt [(Failure, MsgNoDist)]).
Proof.
  apply (copy_without_dist_fails hostProj 5 ["v"] "myplug" (mkState fsNotBuilt [])).
  - discriminate.
  - reflexivity.
Defined.

(** The guard comes before that test: with no [dist] and a target that is
    the [dist] path, copy mode stops with status 0, in [deployCopy] and in
    the whole run. *)
Lemma copy_without_dist_self_target :
  existsSync fsSelf (distDir hostSelf) = false /\
  deployCopy hostSelf 5 ["v"] "dist" (mkState fsSelf [])
    = Exit 0 (mkState fsSelf [(Info, MsgSameAsDistCopy)]) /\
  exists fs', run hostSelf 5 ["copy"] fsSelf = Some (0%Z, fs').
Proof.
  split; [reflexivity|]. split; [reflexivity|].
  eexists. vm_compute. reflexivity.
Qed.

(** C1: the project was never built and the plugin is installed in the
    vault.  In a whole run the test of [deployCopy] cannot fire, because
    [ensureDistReady] has made [dist] before it.  The run in copy mode does
    not end with status 1: it removes the installed plugin, copies the lone
    marker file, reports one copied file and returns. *)
Example copy_run_makes_missing_dist :
  existsSync fsNotBuilt (distDir hostProj) = false /\
  get fsNotBuilt (targetPluginDir ["v"] "myplug")
  = Some (Dir [("main.js", File "old")]) /\
  main hostProj 5 ["copy"] (mkState fsNotBuilt [])
  = Ret tt
      (mkState
         (Dir [project [("dist", Dir [(".hotreload", File "")])];
               vault [("myplug", Dir [(".hotreload", File "")])]])
         [(Info, MsgMode "copy"); (Info, MsgVault ["v"]);
          (Info, MsgPluginId "myplug"); (Success, MsgCopied 1 "myplug")]) /\
  run hostProj 5 ["copy"] fsNotBuilt
  = Some (0%Z,
          Dir [project [("dist", Dir [(".hotreload", File "")])];
               vault [("myplug", Dir [(".hotreload", File "")])]]).
Proof.
  split; [reflexivity|]. split; [reflexivity|].
  split; vm_compute; reflexivity.
Qed.

End Guards.

(* ===================================================================== *)
(** ** The run before the mode is looked at *)
(* ===================================================================== *)

Module Dispatch.
Import PathLib Fs Deploy PathFacts Shape Scenarios.

(** [loadVaultPath] only reads: it returns a path, or exits with 1, or
    exits with 0 when there is neither option nor [.env] file. *)
Lemma loadVaultPath_cases (h : host) (args : list string) (s : state) :
  (exists v l, loadVaultPath h args s = Ret v (mkState (files s) l)) \/
  (exists l, loadVaultPath h args s = Exit 1 (mkState (files s) l)) \/
  (exists l, loadVaultPath h args s = Exit 0 (mkState (files s) l) /\
             truthy (customVaultPath args) = None /\
             existsSync (files s) (envPath h) = false).
Proof.
  unfold loadVaultPath.
  destruct (truthy (customVaultPath args)) as [c|] eqn:Hc.
  - left. destruct s. eexists _, _. reflexivity.
  - unfold bind, existsM.
    destruct (existsSync (files s) (envPath h)) eqn:Hex; simpl.
    + match goal with
      | |- context [match truthy ?x with _ => _ end] =>
          destruct (truthy x) as [v|]
      end.
      * left. destruct s. eexists _, _. reflexivity.
      * right. left. eexists. reflexivity.
    + right. right. eexists. repeat split; reflexivity.
Qed.

(** [getPluginId] only reads: it returns an id or exits with 1. *)
Lemma getPluginId_cases (h : host) (s : state) :
  (exists id l, getPluginId h s = Ret id (mkState (files s) l)) \/
  (exists l, getPluginId h s = Exit 1 (mkState (files s) l)).
Proof.
  unfold getPluginId, bind, existsM.
  destruct (existsSync (files s) (if existsSync _ _ then _ else _)); simpl.
  - unfold try_catch, readJsonSync, bind, fsread.
    destruct (readFileSync _ _) as [c|e]; simpl.
    + destruct (jsonId h c) as [o|]; simpl.
      * unfold ret. destruct (truthy o) as [i|]; simpl.
        -- left. destruct s. eexists _, _. reflexivity.
        -- right. eexists. reflexivity.
      * right. eexists. reflexivity.
    + right. eexists. reflexivity.
  - right. eexists. reflexivity.
Qed.

(** [ensureDistReady] returns or throws; it never exits. *)
Lemma ensureDistReady_cases (h : host) (s : state) :
  (exists s', ensureDistReady h s = Ret tt s') \/
  (exists e s', ensureDistReady h s = Throw e s').
Proof.
  unfold ensureDistReady, bind, existsM, fsop, ret.
  destruct (existsSync (files s) (distDir h)); simpl.
  - destruct (existsSync (files s) _); simpl.
    + left. eexists. reflexivity.
    + destruct (writeFileSync _ _ _); [left | right]; repeat eexists.
  - destruct (mkdirSync_recursive _ _); simpl.
    + destruct (existsSync _ _); simpl.
      * left. eexists. reflexivity.
      * destruct (writeFileSync _ _ _); [left | right]; repeat eexists.
    + right. repeat eexists.
Qed.

(** When [dist] and its marker file are there, [ensureDistReady] does
    nothing. *)
Lemma ensureDistReady_ready (h : host) (s : state) :
  existsSync (files s) (distDir h) = true ->
  existsSync (files s) (join (distDir h) [".hotreload"]) = true ->
  ensureDistReady h s = Ret tt s.
Proof.
  intros H1 H2. unfold ensureDistReady, bind, existsM, ret.
  rewrite H1. simpl. rewrite H2. reflexivity.
Qed.

(** C2, as amended: for a mode other than ["link"] and ["copy"] (the empty
    string counts as no mode) the run never returns normally.  It exits
    with status 1, except that without [--vault-path] and without [.env]
    file it exits with status 0 before the mode is looked at.  The file
    tree it leaves is the one left by [ensureDistReady], which ran first:
    the given tree when [dist] and its marker file were already there. *)
Theorem unknown_mode_exits (h : host) (fuel : nat) (args : list string)
  (fs : node) :
  deployMode args <> "link" -> deployMode args <> "copy" ->
  let s0 := mkState fs [(Info, MsgMode (deployMode args))] in
  exists code s',
    main h fuel args (mkState fs []) = Exit code s' /\
    (code = 1%Z \/
     (code = 0%Z /\ truthy (customVaultPath args) = None /\
      existsSync (files s') (envPath h) = false)) /\
    files s' = final_files (ensureDistReady h s0) fs /\
    (existsSync fs (distDir h) = true ->
     existsSync fs (join (distDir h) [".hotreload"]) = true ->
     files s' = fs).
Proof.
  intros Hl Hc s0.
  assert (Hready : existsSync fs (distDir h) = true ->
                   existsSync fs (join (distDir h) [".hotreload"]) = true ->
                   final_files (ensureDistReady h s0) fs = fs).
  { intros H1 H2. rewrite (ensureDistReady_ready h s0 H1 H2). reflexivity. }
  apply String.eqb_neq in Hl. apply String.eqb_neq in Hc.
  unfold main, try_catch.
  unfold bind at 1. unfold log at 1. simpl. fold s0.
  unfold bind at 1.
  destruct (ensureDistReady_cases h s0) as [[s1 E] | [e [s1 E]]]; rewrite E in *.
  - simpl in Hready. unfold bind at 1.
    destruct (loadVaultPath_cases h args s1)
      as [[v [l E1]] | [[l E1] | [l [E1 [Hcv Hex]]]]]; rewrite E1.
    + unfold bind at 1.
      destruct (getPluginId_cases h (mkState (files s1) l))
        as [[id [l' E2]] | [l' E2]]; rewrite E2.
      * rewrite Hl, Hc. simpl.
        eexists _, _. split; [reflexivity|]. simpl.
        split; [now left|]. split; [reflexivity | exact Hready].
      * eexists _, _. split; [reflexivity|]. simpl.
        split; [now left|]. split; [reflexivity | exact Hready].
    + eexists _, _. split; [reflexivity|]. simpl.
      split; [now left|]. split; [reflexivity | exact Hready].
    + eexists _, _. split; [reflexivity|]. simpl.
      split; [right; auto|]. split; [reflexivity | exact Hready].
  - simpl in Hready. eexists _, _. split; [reflexivity|]. simpl.
    split; [now left|]. split; [reflexivity | exact Hready].
Qed.

Lemma unknown_mode_exits_witness :
  exists code s',
    main hostProj 5 ["sync"] (mkState fsInstalled []) = Exit code s' /\
    (code = 1%Z \/
     (code = 0%Z /\ truthy (customVaultPath ["sync"]) = None /\
      existsSync (files s') (envPath hostProj) = false)).
Proof.
  destruct (unknown_mode_exits hostProj 5 ["sync"] fsInstalled)
    as (code & s' & H1 & H2 & _).
  - discriminate.
  - discriminate.
  - exists code, s'. split; [exact H1 | exact H2].
Defined.

(** C2 as stated fails: with the mode ["sync"], no [--vault-path] and no
    [.env] file, the run exits with status 0, and it has created [dist] and
    its marker file. *)
Lemma unknown_mode_exit_0_and_mutation :
  deployMode ["sync"] = "sync" /\
  run hostProj 5 ["sync"] fsBare
  = Some (0%Z,
          Dir [("proj", Dir [("manifest.json", File "myplug");
                             ("dist", Dir [(".hotreload", File "")])])]) /\
  get fsBare ["proj"; "dist"] = None.
Proof. repeat split; vm_compute; reflexivity. Qed.

(** With [.env] in place the same mode exits with status 1, and [dist] has
    been created all the same. *)
Example unknown_mode_exit_1_and_mutation :
  exists fs',
    run hostProj 5 ["sync"] fsNotBuilt = Some (1%Z, fs') /\
    get fsNotBuilt ["proj"; "dist"] = None /\
    get fs' ["proj"; "dist"] = Some (Dir [(".hotreload", File "")]).
Proof. eexists. repeat split; vm_compute; reflexivity. Qed.

(** The inspection of the target in [deployLink] is [fs.existsSync]: it is
    false exactly when [stat] fails, whatever the code. *)
Lemma existsSync_false_iff (fs : node) (p : Path) :
  existsSync fs p = false <-> exists e, statSync fs p = Err e.
Proof.
  unfold existsSync. destruct (statSync fs p) as [n|e]; split.
  - discriminate.
  - intros [e' H]. discriminate.
  - intros _. now exists e.
  - reflexivity.
Qed.

(** C3, as amended: whenever [stat] of the target fails, with any error
    code, [deployLink] treats the target as absent: nothing of the error is
    reported and the function continues with the creation of the parent
    directory and of the link, as on a fresh vault. *)
Theorem stat_failure_is_absence (h : host) (vaultPath : Path)
  (pluginId : string) (s : state) (e : errno) :
  resolve (targetPluginDir vaultPath pluginId) [] <> resolve (distDir h) [] ->
  statSync (files s) (targetPluginDir vaultPath pluginId) = Err e ->
  deployLink h vaultPath pluginId s
    = createLink h (targetPluginDir vaultPath pluginId) pluginId s.
Proof.
  intros Hne Hstat. unfold deployLink.
  apply path_eqb_neq in Hne. rewrite Hne.
  unfold bind at 1. unfold existsM, existsSync. rewrite Hstat. reflexivity.
Qed.

Lemma stat_failure_is_absence_witness :
  statSync fsLoop ["v"; ".obsidian"; "plugins"; "myplug"] = Err ELOOP /\
  deployLink hostProj ["v"] "myplug" (mkState fsLoop [])
    = createLink hostProj ["v"; ".obsidian"; "plugins"; "myplug"] "myplug"
        (mkState fsLoop []).
Proof.
  split; [reflexivity|].
  apply (stat_failure_is_absence hostProj ["v"] "myplug" (mkState fsLoop []) ELOOP).
  - discriminate.
  - reflexivity.
Defined.

(** C3 as stated fails: the target is a link that loops, [stat] fails with
    [ELOOP] and not with [ENOENT]; the error is not propagated, the target
    is taken for absent, and what ends the run is the [EEXIST] of the
    attempt to create the link over it. *)
Lemma loop_error_taken_for_absence :
  statSync fsLoop (targetPluginDir ["v"] "myplug") = Err ELOOP /\
  existsSync fsLoop (targetPluginDir ["v"] "myplug") = false /\
  lstatSync fsLoop (targetPluginDir ["v"] "myplug") = Ok (Symlink "myplug") /\
  deployLink hostProj ["v"] "myplug" (mkState fsLoop [])
    = Exit 1 (mkState fsLoop [(Failure, MsgLinkFailed (FsError EEXIST))]).
Proof. repeat split; vm_compute; reflexivity. Qed.

(** The same happens with a stale link, whose [stat] fails with [ENOENT]
    although the link is there: it is not replaced. *)
Example stale_link_is_not_replaced :
  statSync fsStale (targetPluginDir ["v"] "myplug") = Err ENOENT /\
  lstatSync fsStale (targetPluginDir ["v"] "myplug") = Ok (Symlink "/old/dist") /\
  deployLink hostProj ["v"] "myplug" (mkState fsStale [])
    = Exit 1 (mkState fsStale [(Failure, MsgLinkFailed (FsError EEXIST))]).
Proof. repeat split; vm_compute; reflexivity. Qed.

End Dispatch.

(* ===================================================================== *)
(** ** The command line *)
(* ===================================================================== *)

Module Options.
Import PathLib Fs Deploy PathFacts Shape LinkMode.

Lemma find_option_first (pre post : list string) (a : string) :
  (forall x, In x pre -> is_option x = false) -> is_option a = true ->
  find (fun x => prefix "--vault-path=" x) (pre ++ a :: post) = Some a.
Proof.
  intros Hpre Ha. induction pre as [|x pre IH]; simpl.
  - unfold is_option in Ha. now rewrite Ha.
  - pose proof (Hpre x (or_introl eq_refl)) as Hx. unfold is_option in Hx.
    rewrite Hx. apply IH. intros y Hy. apply Hpre. now right.
Qed.

Lemma find_option_none (args : list string) :
  (forall x, In x args -> is_option x = false) ->
  find (fun x => prefix "--vault-path=" x) args = None.
Proof.
  intros H. induction args as [|x args IH]; simpl; [reflexivity|].
  pose proof (H x (or_introl eq_refl)) as Hx. unfold is_option in Hx.
  rewrite Hx. apply IH. intros y Hy. apply H. now right.
Qed.

Lemma option_text (v : string) : is_option ("--vault-path=" ++ v) = true.
Proof. unfold is_option. simpl. destruct v; reflexivity. Qed.

(** The pieces of an option cut at ['=']. *)
Lemma split_option (w : string) :
  split_on "="%char ("--vault-path=" ++ w)
  = "--vault-path" :: split_on "="%char w.
Proof.
  change ("--vault-path=" ++ w)%string
    with ("--vault-path" ++ String "="%char w)%string.
  rewrite split_on_app by reflexivity. simpl.
  reflexivity.
Qed.

(** X1.  The value of [--vault-path=]: the first argument that starts with
    the option's name counts, whatever follows it on the command line, and
    its value is the text up to the next ['='], so that a value with an
    ['='] in it is cut there.  Without such an argument there is no
    value. *)
Theorem customVaultPath_first_option (pre post : list string)
  (v rest : string) :
  (forall a, In a pre -> is_option a = false) ->
  has_char "="%char v = false ->
  customVaultPath (pre ++ ("--vault-path=" ++ v)%string :: post) = Some v /\
  customVaultPath (pre ++ ("--vault-path=" ++ v ++ "=" ++ rest)%string :: post)
  = Some v /\
  customVaultPath pre = None.
Proof.
  intros Hpre Hv. unfold customVaultPath. repeat split.
  - rewrite (find_option_first pre post _ Hpre (option_text v)).
    rewrite split_option, (split_on_no_sep _ _ Hv). reflexivity.
  - rewrite (find_option_first pre post _ Hpre (option_text _)).
    rewrite split_option, (split_on_app _ v _ Hv). simpl.
    now rewrite append_empty.
  - now rewrite (find_option_none pre Hpre).
Qed.

Lemma customVaultPath_first_option_witness :
  customVaultPath ["copy"; "--vault-path=/a"; "--vault-path=/w"] = Some "/a" /\
  customVaultPath ["copy"; "--vault-path=/a=b"; "--vault-path=/w"]
  = Some "/a" /\
  customVaultPath ["copy"] = None.
Proof.
  apply (customVaultPath_first_option ["copy"] ["--vault-path=/w"] "/a" "b"
           ltac:(intros a [<-|[]]; reflexivity) eq_refl).
Defined.

End Options.

(* ===================================================================== *)
(** ** [ensureDistReady] on any tree *)
(* ===================================================================== *)

Module DistReady.
Import PathLib Fs Deploy PathFacts TreeFacts Shape WalkFacts GrowFacts
  Scenarios.

(** *** A free place found by the walk, and the same walk once it is
    taken *)

Lemma descend_vacant (fs : node) (follow : bool) (rest : list string) :
  forall cur q,
    descend fs follow cur rest = Done (Vacant q) -> free_place fs q.
Proof.
  induction rest as [|s rest IH]; intros cur q H; simpl in H.
  - destruct (get fs cur); discriminate.
  - destruct (get fs cur) as [[c|es|t]|] eqn:E; try discriminate.
    destruct ((s =? "") || (s =? ".")); [now apply IH with cur|].
    destruct (s =? ".."); [now apply IH with (removelast cur)|].
    destruct (lookup s es) as [[c|es1|t]|] eqn:El.
    + now apply IH with (cur ++ [s]).
    + now apply IH with (cur ++ [s]).
    + destruct rest; [destruct follow|]; discriminate.
    + destruct rest; [|discriminate]. inversion H; subst q.
      now exists cur, s, es.
Qed.

Lemma namei_from_vacant (fs : node) (follow : bool) (hops : nat) :
  forall cur rest q,
    namei_from hops fs follow cur rest = Ok (Vacant q) -> free_place fs q.
Proof.
  induction hops as [|h IH]; intros cur rest q H; simpl in H.
  - destruct (descend fs follow cur rest) as [[p n|p]|e|d t r] eqn:E;
      try discriminate.
    inversion H; subst p. now apply descend_vacant in E.
  - destruct (descend fs follow cur rest) as [[p n|p]|e|d t r] eqn:E;
      try discriminate.
    + inversion H; subst p. now apply descend_vacant in E.
    + destruct (t =? ""); [discriminate|]. now apply IH in H.
Qed.

Lemma free_place_get (fs : node) (q : Path) :
  free_place fs q -> get fs q = None.
Proof.
  intros (d & s & es & -> & Hd & Hs). now rewrite (get_snoc_dir _ _ _ _ Hd).
Qed.

(** Taking a free place keeps every object of the tree. *)
Lemma extends_fill (fs : node) (q : Path) (v : node) :
  free_place fs q -> extends fs (put fs q v).
Proof.
  intros Hq. apply extends_put with q.
  - apply extends_refl.
  - now apply free_place_get.
  - apply is_prefix_refl.
Qed.

Lemma get_fill (fs : node) (q : Path) (v : node) :
  free_place fs q -> get (put fs q v) q = Some v.
Proof.
  intros (d & s & es & -> & Hd & Hs). apply get_put_same with es.
  now rewrite dirname_snoc.
Qed.

Lemma descend_fill (fs fs1 : node) (follow : bool) (q : Path) (v : node)
  (rest : list string) :
  extends fs fs1 -> get fs1 q = Some v -> isSymbolicLink v = false ->
  forall cur,
    descend fs follow cur rest = Done (Vacant q) ->
    descend fs1 follow cur rest = Done (Found q v).
Proof.
  intros Hext Hv Hk. induction rest as [|s rest IH]; intros cur H;
    simpl in H.
  - destruct (get fs cur); discriminate.
  - destruct (get fs cur) as [[c|es|t]|] eqn:E; try discriminate.
    destruct (Hext _ _ E) as (m & Hm & [es' Em]). subst m.
    simpl. rewrite Hm.
    destruct ((s =? "") || (s =? ".")); [now apply IH|].
    destruct (s =? ".."); [now apply IH|].
    destruct (lookup s es) as [c0|] eqn:El.
    + assert (Hg0 : get fs (cur ++ [s]) = Some c0)
        by now rewrite (get_snoc_dir _ _ _ _ E).
      destruct (Hext _ _ Hg0) as (m & Hm' & K).
      rewrite (get_snoc_dir _ _ _ _ Hm) in Hm'. rewrite Hm'.
      destruct c0 as [c|es1|t]; simpl in K.
      * subst m. now apply IH.
      * destruct K as [es2 ->]. now apply IH.
      * destruct rest; [destruct follow|]; discriminate.
    + destruct rest; [|discriminate]. inversion H; subst q.
      rewrite (get_snoc_dir _ _ _ _ Hm) in Hv. rewrite Hv.
      destruct v as [c|es1|t]; try discriminate; simpl;
        rewrite (get_snoc_dir _ _ _ _ Hm), Hv; reflexivity.
Qed.

Lemma namei_from_fill (fs : node) (follow : bool) (q : Path) (v : node)
  (hops : nat) :
  isSymbolicLink v = false ->
  forall cur rest,
    namei_from hops fs follow cur rest = Ok (Vacant q) ->
    namei_from hops (put fs q v) follow cur rest = Ok (Found q v).
Proof.
  intros Hk cur rest H.
  pose proof (namei_from_vacant _ _ _ _ _ _ H) as Hfree.
  pose proof (extends_fill fs q v Hfree) as Hext.
  pose proof (get_fill fs q v Hfree) as Hv.
  revert cur rest H. induction hops as [|h IH]; intros cur rest H;
    simpl in H; simpl.
  - destruct (descend fs follow cur rest) as [[p n|p]|e|d t r] eqn:E;
      try discriminate.
    inversion H; subst p.
    now rewrite (descend_fill fs _ follow q v rest Hext Hv Hk cur E).
  - pose proof (descend_extends fs (put fs q v) follow rest Hext cur) as D.
    destruct (descend fs follow cur rest) as [[p n|p]|e|d t r] eqn:E;
      try discriminate.
    + inversion H; subst p.
      now rewrite (descend_fill fs _ follow q v rest Hext Hv Hk cur E).
    + rewrite D. destruct (t =? ""); [discriminate|]. now apply IH.
Qed.

(** A walk that ends on a free place does so whether or not a final link
    would be followed. *)
Lemma descend_vacant_follow (fs : node) (rest : list string) :
  forall cur,
    match descend fs false cur rest with
    | Done (Vacant q) => descend fs true cur rest = Done (Vacant q)
    | Jump d t r => descend fs true cur rest = Jump d t r
    | _ => True
    end.
Proof.
  induction rest as [|s rest IH]; intros cur; simpl.
  - destruct (get fs cur); exact I.
  - destruct (get fs cur) as [[c|es|t]|]; try exact I.
    destruct ((s =? "") || (s =? ".")); [apply IH|].
    destruct (s =? ".."); [apply IH|].
    destruct (lookup s es) as [[c|es1|t]|].
    + apply IH.
    + apply IH.
    + destruct rest; [exact I | reflexivity].
    + destruct rest; [reflexivity | exact I].
Qed.

Lemma namei_from_vacant_follow (fs : node) (hops : nat) :
  forall cur rest q,
    namei_from hops fs false cur rest = Ok (Vacant q) ->
    namei_from hops fs true cur rest = Ok (Vacant q).
Proof.
  induction hops as [|h IH]; intros cur rest q H; simpl in H; simpl;
    pose proof (descend_vacant_follow fs rest cur) as D;
    destruct (descend fs false cur rest) as [[p n|p]|e|d t r];
    try discriminate.
  - now rewrite D.
  - now rewrite D.
  - rewrite D. destruct (t =? ""); [discriminate|]. now apply IH.
Qed.

Lemma existsSync_extends (fs fs1 : node) (p : Path) :
  extends fs fs1 -> existsSync fs p = true -> existsSync fs1 p = true.
Proof.
  intros Hext. unfold existsSync, statSync, namei.
  destruct (namei_from max_hops fs true [] p) as [[q n|q]|e] eqn:E;
    try discriminate.
  destruct (namei_from_extends fs fs1 true max_hops Hext _ _ _ _ E)
    as (m & -> & _).
  reflexivity.
Qed.

(** *** The calls of [ensureDistReady] *)

Lemma readFileSync_seen (fs : node) (p : Path) (c : string) :
  readFileSync fs p = Ok c -> existsSync fs p = true.
Proof.
  unfold readFileSync, existsSync. destruct (statSync fs p); [reflexivity|].
  discriminate.
Qed.

Lemma mkdir1_ok (fs fs1 : node) (p : Path) :
  mkdir1 fs p = Ok fs1 ->
  extends fs fs1 /\ statSync fs1 p = Ok (Dir []).
Proof.
  unfold mkdir1. destruct (namei fs false p) as [[q n|q]|e] eqn:E;
    try discriminate.
  intros H. inversion H; subst fs1. unfold namei in E. split.
  - apply extends_fill. now apply namei_from_vacant in E.
  - apply namei_from_vacant_follow in E.
    unfold statSync, namei.
    now rewrite (namei_from_fill fs true q (Dir []) max_hops eq_refl _ _ E).
Qed.

Lemma mkdir_exists_ok (fs fs1 : node) (p : Path) (pending : bool) :
  mkdir_exists fs p pending = Ok fs1 ->
  fs1 = fs /\ exists es, statSync fs p = Ok (Dir es).
Proof.
  unfold mkdir_exists. destruct (statSync fs p) as [[c|es|t]|e];
    try discriminate.
  intros H. inversion H. eauto.
Qed.

(** What the recursive [mkdir] leaves when it succeeds: a directory at
    the path, and every object that was there before. *)
Lemma mkdirp_rev_ok (rp : list string) :
  forall fs fs1 pending,
    mkdirp_rev fs rp pending = Ok fs1 ->
    extends fs fs1 /\ exists es, statSync fs1 (rev rp) = Ok (Dir es).
Proof.
  induction rp as [|s rp IH]; intros fs fs1 pending H.
  - cbn [mkdirp_rev] in H.
    destruct (mkdir1 fs (rev [])) as [fs'|e] eqn:E1.
    + inversion H; subst fs'. destruct (mkdir1_ok _ _ _ E1). eauto.
    + destruct e; try discriminate;
        destruct (mkdir_exists_ok _ _ _ _ H) as [-> K];
        (split; [apply extends_refl | exact K]).
  - cbn [mkdirp_rev] in H.
    destruct (mkdir1 fs (rev (s :: rp))) as [fs'|e] eqn:E1.
    + inversion H; subst fs'. destruct (mkdir1_ok _ _ _ E1). eauto.
    + assert (Hex : forall fsx,
                      mkdir_exists fsx (rev (s :: rp)) pending = Ok fs1 ->
                      extends fs fsx ->
                      extends fs fs1 /\
                      exists es, statSync fs1 (rev (s :: rp)) = Ok (Dir es)).
      { intros fsx Hx Hext. destruct (mkdir_exists_ok _ _ _ _ Hx) as [-> K].
        auto. }
      destruct e; try discriminate;
        try (apply (Hex fs H); apply extends_refl).
      destruct (mkdirp_rev fs rp true) as [fs2|e2] eqn:E2; [|discriminate].
      destruct (IH _ _ _ E2) as [Hext2 _].
      destruct (mkdir1 fs2 (rev (s :: rp))) as [fs3|e3] eqn:E3.
      * inversion H; subst fs3. destruct (mkdir1_ok _ _ _ E3) as [Hext3 K].
        split; [eapply extends_trans; eauto | eauto].
      * destruct e3; try discriminate; apply (Hex fs2 H Hext2).
Qed.

Lemma mkdirSync_recursive_ok (fs fs1 : node) (p : Path) :
  mkdirSync_recursive fs p = Ok fs1 ->
  extends fs fs1 /\ existsSync fs1 p = true.
Proof.
  unfold mkdirSync_recursive. intros H.
  destruct (mkdirp_rev_ok _ _ _ _ H) as [Hext [es K]].
  rewrite rev_involutive in K. split; [exact Hext|].
  unfold existsSync. now rewrite K.
Qed.

(** Writing a file that [existsSync] does not see. *)
Lemma writeFileSync_unseen (fs fs1 : node) (p : Path) (data : string) :
  existsSync fs p = false ->
  writeFileSync fs p data = Ok fs1 ->
  extends fs fs1 /\ readFileSync fs1 p = Ok data.
Proof.
  unfold existsSync, statSync, writeFileSync, namei.
  destruct (namei_from max_hops fs true [] p) as [[q n|q]|e] eqn:E;
    try discriminate.
  intros _ H. inversion H; subst fs1. split.
  - apply extends_fill. now apply namei_from_vacant in E.
  - unfold readFileSync, statSync, namei.
    now rewrite (namei_from_fill fs true q (File data) max_hops eq_refl _ _ E).
Qed.

Lemma ensureDistReady_post (h : host) (s s1 : state) :
  ensureDistReady h s = Ret tt s1 ->
  extends (files s) (files s1) /\ logged s1 = logged s /\
  existsSync (files s1) (distDir h) = true /\
  existsSync (files s1) (join (distDir h) [".hotreload"]) = true.
Proof.
  unfold ensureDistReady, bind, existsM, fsop, ret.
  destruct (existsSync (files s) (distDir h)) eqn:Ed; cbn [negb].
  - destruct (existsSync (files s) (join (distDir h) [".hotreload"])) eqn:Eh;
      cbn [negb].
    + intros H. inversion H; subst s1.
      split; [apply extends_refl | split; [reflexivity | split; assumption]].
    + destruct (writeFileSync _ _ _) as [fs1|e] eqn:Ew; [|discriminate].
      intros H. inversion H; subst s1. cbn [files logged].
      destruct (writeFileSync_unseen _ _ _ _ Eh Ew) as [Hext Hr].
      split; [exact Hext | split; [reflexivity | split]].
      * now apply existsSync_extends with (files s).
      * now apply readFileSync_seen with "".
  - destruct (mkdirSync_recursive _ _) as [fs1|e] eqn:Em; [|discriminate].
    destruct (mkdirSync_recursive_ok _ _ _ Em) as [Hext1 Hd1].
    cbn [files logged].
    destruct (existsSync fs1 (join (distDir h) [".hotreload"])) eqn:Eh;
      cbn [negb].
    + intros H. inversion H; subst s1. cbn [files logged].
      split; [exact Hext1 | split; [reflexivity | split; assumption]].
    + destruct (writeFileSync _ _ _) as [fs2|e] eqn:Ew; [|discriminate].
      intros H. inversion H; subst s1. cbn [files logged].
      destruct (writeFileSync_unseen _ _ _ _ Eh Ew) as [Hext2 Hr].
      split; [eapply extends_trans; eauto | split; [reflexivity | split]].
      * now apply existsSync_extends with fs1.
      * now apply readFileSync_seen with "".
Qed.

(** X7.  [ensureDistReady] only adds, on any file tree, links included:
    when it returns, every object of the tree is where it was, with its
    type, a file with its content (a marker file that was there is not
    emptied) and a link with its text; nothing is logged; and [dist] and
    its marker file are seen by [existsSync]. *)
Theorem ensureDistReady_only_adds (h : host) (s s1 : state) :
  ensureDistReady h s = Ret tt s1 ->
  extends (files s) (files s1) /\ logged s1 = logged s /\
  existsSync (files s1) (distDir h) = true /\
  existsSync (files s1) (join (distDir h) [".hotreload"]) = true.
Proof. apply ensureDistReady_post. Qed.

Lemma ensureDistReady_only_adds_witness :
  ensureDistReady hostProj (mkState fsBare []) = Ret tt (mkState fsBareReady [])
  /\ extends fsBare fsBareReady.
Proof.
  split; [vm_compute; reflexivity|].
  refine (proj1 (ensureDistReady_only_adds hostProj (mkState fsBare [])
                   (mkState fsBareReady []) _)).
  vm_compute. reflexivity.
Defined.

(** X8.  [ensureDistReady] twice is [ensureDistReady] once, on any file
    tree: after a call that returned, a second call returns and changes
    nothing. *)
Theorem ensureDistReady_idempotent (h : host) (s s1 : state) :
  ensureDistReady h s = Ret tt s1 ->
  ensureDistReady h s1 = Ret tt s1.
Proof.
  intros H. destruct (ensureDistReady_post h s s1 H) as (_ & _ & Hd & Hm).
  unfold ensureDistReady, bind, existsM, ret. rewrite Hd. simpl.
  rewrite Hm. reflexivity.
Qed.

Lemma ensureDistReady_idempotent_witness :
  ensureDistReady hostProj (mkState fsBareReady [])
  = Ret tt (mkState fsBareReady []).
Proof.
  refine (ensureDistReady_idempotent hostProj (mkState fsBare [])
            (mkState fsBareReady []) _).
  vm_compute. reflexivity.
Defined.

End DistReady.

(* ===================================================================== *)
(** ** The vault path and the plugin id *)
(* ===================================================================== *)

Module Config.
Import PathLib Fs Deploy PathFacts Shape DistReady Scenarios.

Lemma segments_no_slash (a s : string) :
  In s (segments a) -> has_slash s = false.
Proof. unfold segments, has_slash. apply split_on_pieces. Qed.

(** What [path.resolve] returns is normalised. *)
Lemma resolve_normalized (base : Path) (args : list string) :
  normalized base = true -> normalized (resolve base args) = true.
Proof.
  intros Hb. unfold resolve.
  assert (H0 : normalized (normalize_from [] base) = true)
    by now rewrite normalize_from_valid.
  revert H0. generalize (normalize_from [] base) as acc.
  induction args as [|a args IH]; intros acc Hacc; simpl; [exact Hacc|].
  apply IH. unfold resolve_step.
  destruct (isAbsolute a).
  - apply normalize_from_normalized; [reflexivity|].
    intros s. apply segments_no_slash.
  - apply normalize_from_normalized; [exact Hacc|].
    intros s. apply segments_no_slash.
Qed.

(** X2.  [loadVaultPath] only reads.  When it returns, the state is the
    one it was given and the path is absolute and normalised (a relative
    value has been taken from the working directory); otherwise it ends the
    process with status 0 or 1 and has only added to the log.  It never
    throws. *)
Theorem loadVaultPath_outcomes (h : host) (args : list string) (s : state) :
  normalized (cwd h) = true ->
  match loadVaultPath h args s with
  | Ret v s' => s' = s /\ normalized v = true
  | Exit code s' => files s' = files s /\ (code = 0%Z \/ code = 1%Z)
  | Throw _ _ => False
  | OutOfFuel => False
  end.
Proof.
  intros Hcwd. unfold loadVaultPath.
  destruct (truthy (customVaultPath args)) as [c|].
  - split; [reflexivity | now apply resolve_normalized].
  - unfold bind, existsM.
    destruct (existsSync (files s) (envPath h)); simpl.
    + match goal with
      | |- context [match truthy ?x with _ => _ end] =>
          destruct (truthy x) as [v|]
      end; simpl.
      * split; [reflexivity | now apply resolve_normalized].
      * split; [reflexivity | now right].
    + split; [reflexivity | now left].
Qed.

Lemma loadVaultPath_outcomes_witness :
  match loadVaultPath hostProj ["link"; "--vault-path=../v/./x"]
          (mkState fsInstalled []) with
  | Ret v s' => s' = mkState fsInstalled [] /\ normalized v = true
  | Exit code s' => files s' = fsInstalled /\ (code = 0%Z \/ code = 1%Z)
  | Throw _ _ => False
  | OutOfFuel => False
  end.
Proof.
  apply (loadVaultPath_outcomes hostProj ["link"; "--vault-path=../v/./x"]
           (mkState fsInstalled []) eq_refl).
Defined.

(** X3.  With a value given by [--vault-path=], neither the environment
    nor the [.env] file counts: [loadVaultPath] returns the value, taken
    from the working directory, in whatever state it is called, and the
    whole run is the same for every [VAULT_PATH] of the environment and
    every reading of the [.env] file. *)
Theorem override_ignores_environment (h : host) (env : option string)
  (dotenv : string -> option string) (fuel : nat) (args : list string)
  (c : string) (s : state) :
  truthy (customVaultPath args) = Some c ->
  loadVaultPath h args s = Ret (resolve (cwd h) [c]) s /\
  main h fuel args s
  = main (mkHost (projectRoot h) (cwd h) env dotenv (jsonId h)) fuel args s.
Proof.
  intros Hc. split.
  - unfold loadVaultPath. now rewrite Hc.
  - destruct h as [root wd e0 d0 j]. unfold main, loadVaultPath.
    rewrite Hc. reflexivity.
Qed.

Lemma override_ignores_environment_witness :
  loadVaultPath hostProj ["link"; "--vault-path=/w"] (mkState fsBare [])
  = Ret ["w"] (mkState fsBare []) /\
  main hostProj 5 ["link"; "--vault-path=/w"] (mkState fsBare [])
  = main (mkHost ["proj"] ["home"] (Some "/other") (fun _ => Some "/third")
            manifestValue) 5 ["link"; "--vault-path=/w"] (mkState fsBare []).
Proof.
  apply (override_ignores_environment hostProj (Some "/other")
           (fun _ => Some "/third") 5 ["link"; "--vault-path=/w"] "/w"
           (mkState fsBare []) eq_refl).
Defined.

Lemma truthy_some (i : string) : i <> "" -> truthy (Some i) = Some i.
Proof.
  intros H. unfold truthy. apply String.eqb_neq in H. now rewrite H.
Qed.

Lemma truthy_inv (o : option string) (i : string) :
  truthy o = Some i -> o = Some i /\ i <> "".
Proof.
  destruct o as [x|]; simpl; [|discriminate].
  destruct (x =? "") eqn:E; [discriminate|].
  intros H. inversion H; subst. split; [reflexivity|].
  now apply String.eqb_neq.
Qed.

Lemma getPluginId_reads (h : host) (s : state) (c i : string) :
  readFileSync (files s) (join (distDir h) ["manifest.json"]) = Ok c \/
  (existsSync (files s) (join (distDir h) ["manifest.json"]) = false /\
   readFileSync (files s) (manifestPath h) = Ok c) ->
  jsonId h c = Some (Some i) -> i <> "" ->
  getPluginId h s = Ret i s.
Proof.
  intros Hread Hjson Hi. unfold getPluginId, bind, existsM.
  destruct Hread as [Hread | [Hno Hread]].
  - rewrite (readFileSync_seen _ _ _ Hread).
    rewrite (readFileSync_seen _ _ _ Hread). simpl.
    unfold try_catch, readJsonSync, bind, fsread.
    rewrite Hread, Hjson. unfold ret. now rewrite (truthy_some i Hi).
  - rewrite Hno. rewrite (readFileSync_seen _ _ _ Hread). simpl.
    unfold try_catch, readJsonSync, bind, fsread.
    rewrite Hread, Hjson. unfold ret. now rewrite (truthy_some i Hi).
Qed.

(** X4.  The id comes from the manifest of the build when there is one,
    whatever the manifest of the project holds (it may be missing or
    broken); the manifest of the project is read only when [existsSync]
    does not see the one of the build. *)
Theorem getPluginId_prefers_build (h : host) (s : state) (c i : string) :
  readFileSync (files s) (join (distDir h) ["manifest.json"]) = Ok c \/
  (existsSync (files s) (join (distDir h) ["manifest.json"]) = false /\
   readFileSync (files s) (manifestPath h) = Ok c) ->
  jsonId h c = Some (Some i) -> i <> "" ->
  getPluginId h s = Ret i s.
Proof. apply getPluginId_reads. Qed.

Lemma getPluginId_prefers_build_witness :
  getPluginId hostProj (mkState fsNested [])
  = Ret "myplug" (mkState fsNested [])
  /\ getPluginId hostProj (mkState fsInstalled [])
     = Ret "myplug" (mkState fsInstalled []).
Proof.
  split.
  - apply (getPluginId_prefers_build hostProj (mkState fsNested [])
             "myplug" "myplug" (or_introl eq_refl) eq_refl).
    discriminate.
  - apply (getPluginId_prefers_build hostProj (mkState fsInstalled [])
             "myplug" "myplug" (or_intror (conj eq_refl eq_refl)) eq_refl).
    discriminate.
Defined.

(** X5.  There is no way back from a manifest of the build that is seen
    but gives no id (it cannot be read, does not parse, or has no [id] or
    an empty one): the run of [getPluginId] ends with status 1, however
    good the manifest of the project is. *)
Theorem broken_build_manifest_is_fatal (h : host) (s : state) :
  existsSync (files s) (join (distDir h) ["manifest.json"]) = true ->
  (forall c i, readFileSync (files s) (join (distDir h) ["manifest.json"])
               = Ok c ->
               jsonId h c = Some (Some i) -> i = "") ->
  exists e,
    getPluginId h s
    = Exit 1 (mkState (files s)
                (logged s ++ [(Failure, MsgManifestFailed e)])).
Proof.
  intros Hex Hbad. unfold getPluginId, bind, existsM.
  rewrite Hex. rewrite Hex. simpl.
  unfold try_catch, readJsonSync, bind, fsread.
  destruct (readFileSync (files s) (join (distDir h) ["manifest.json"]))
    as [c|e] eqn:Er.
  - destruct (jsonId h c) as [[i|]|] eqn:Ej; simpl.
    + rewrite (Hbad c i eq_refl Ej). simpl. now exists NoIdField.
    + now exists NoIdField.
    + now exists JsonError.
  - now exists (FsError e).
Qed.

Lemma broken_build_manifest_is_fatal_witness :
  exists e,
    getPluginId hostProj (mkState fsBrokenBuild [])
    = Exit 1 (mkState fsBrokenBuild ([] ++ [(Failure, MsgManifestFailed e)])).
Proof.
  apply (broken_build_manifest_is_fatal hostProj (mkState fsBrokenBuild [])
           eq_refl).
  intros c i Hr Hj. vm_compute in Hr. inversion Hr; subst c.
  vm_compute in Hj. discriminate.
Defined.

(** X6.  [getPluginId] only reads and never throws: it returns an id that
    is not empty, in the state it was given, or it ends the process with
    status 1 after one more line of log. *)
Theorem getPluginId_outcomes (h : host) (s : state) :
  match getPluginId h s with
  | Ret i s' => s' = s /\ i <> ""
  | Exit code s' =>
      code = 1%Z /\ files s' = files s /\
      exists m, logged s' = logged s ++ [(Failure, m)]
  | Throw _ _ => False
  | OutOfFuel => False
  end.
Proof.
  unfold getPluginId, bind, existsM.
  destruct (existsSync (files s) (if existsSync _ _ then _ else _)); simpl.
  - unfold try_catch, readJsonSync, bind, fsread.
    destruct (readFileSync _ _) as [c|e]; simpl.
    + destruct (jsonId h c) as [o|]; simpl.
      * unfold ret. destruct (truthy o) as [i|] eqn:Et; simpl.
        -- split; [reflexivity|]. now destruct (truthy_inv _ _ Et).
        -- repeat split. eexists. reflexivity.
      * repeat split. eexists. reflexivity.
    + repeat split. eexists. reflexivity.
  - repeat split. eexists. reflexivity.
Qed.

End Config.

(* ===================================================================== *)
(** ** Link mode, by what is at the target *)
(* ===================================================================== *)

Module LinkCases.
Import PathLib Fs Deploy PathFacts TreeFacts Shape WalkFacts GrowFacts
  CopyFile CopyFacts CopyTop CopyMode LinkMode LinkClaims Scenarios.

Section Cases.
Variable h : host.
Variable vaultPath : Path.
Variable pluginId : string.
Hypothesis Hvault : normalized vaultPath = true.
Hypothesis Hroot : normalized (projectRoot h) = true.

Let target : Path := targetPluginDir vaultPath pluginId.
Let dist : Path := distDir h.

Hypothesis Hneq : target <> dist.

Let Hnt : normalized target = true := target_normalized _ pluginId Hvault.
Let Hnd : normalized dist = true := dist_normalized h Hroot.
Let link : node := Symlink (render dist).

Lemma guard_false :
  path_eqb (resolve target []) (resolve dist []) = false.
Proof.
  rewrite (resolve_nil _ Hnt), (resolve_nil _ Hnd).
  now apply path_eqb_neq.
Qed.

Lemma past_guard (s : state) :
  deployLink h vaultPath pluginId s = deployLink_tail h vaultPath pluginId s.
Proof. apply deployLink_after_guard; auto. apply guard_false. Qed.

Lemma present_nonempty (fs : node) (n : node) :
  get fs target = Some n -> existsSync fs target = false -> target <> [].
Proof.
  intros Hg Hex E. rewrite E in Hex. discriminate.
Qed.

Lemma link_made (s : state) :
  dirs_along (files s) (dirname target) = true ->
  get (files s) target = None ->
  deployLink h vaultPath pluginId s
  = Ret tt (mkState (put (mkdirs (files s) (dirname target)) target link)
              (logged s ++ [(Success, MsgLinkCreated pluginId)])).
Proof.
  intros Hdirs Hfree.
  assert (Hne : target <> []) by (intros E; rewrite E in Hfree; discriminate).
  destruct (snoc_cases target) as [E | (q & k & E)]; [congruence|].
  assert (Hdk : dirs_along (files s) target = true).
  { rewrite E in *. rewrite dirname_snoc in Hdirs.
    now apply dirs_along_absent. }
  rewrite past_guard. unfold deployLink_tail. fold target.
  rewrite (existsSync_absent _ _ Hnt Hdk Hfree).
  apply (createLink_free h target pluginId s Hnt Hne Hdirs Hfree).
Qed.

(** X9.  Nothing at the target, and what exists on the way to it are real
    directories: link mode makes the missing directories and the link,
    and returns.  Every object of the tree is kept.  Whether [dist] exists
    is not looked at. *)
Theorem link_made_where_nothing_is (s : state) :
  dirs_along (files s) (dirname target) = true ->
  get (files s) target = None ->
  let fs' := put (mkdirs (files s) (dirname target)) target link in
  deployLink h vaultPath pluginId s
  = Ret tt (mkState fs' (logged s ++ [(Success, MsgLinkCreated pluginId)]))
  /\ get fs' target = Some link
  /\ extends (files s) fs'.
Proof.
  intros Hdirs Hfree fs'.
  assert (Hne : target <> []) by (intros E; rewrite E in Hfree; discriminate).
  destruct (snoc_cases target) as [E | (q & k & E)]; [congruence|].
  assert (Hdk : dirs_along (files s) target = true).
  { rewrite E in *. rewrite dirname_snoc in Hdirs.
    now apply dirs_along_absent. }
  split; [|split].
  - now apply link_made.
  - assert (Hq : exists esq, get (mkdirs (files s) (dirname target))
                               (dirname target) = Some (Dir esq)).
    { rewrite E in *. rewrite dirname_snoc in *.
      now apply get_mkdirs_parent with k. }
    destruct Hq as [esq Hq]. unfold fs'. now apply get_put_same with esq.
  - unfold fs'. apply extends_put with target.
    + now apply extends_mkdirs.
    + exact Hfree.
    + apply is_prefix_refl.
Qed.

Lemma frame_replace (fs : node) (p : Path) (v : node) :
  is_prefix target p = false -> is_prefix p target = false ->
  get (put (del fs target) target v) p = get fs p.
Proof.
  intros H1 H2. rewrite get_put_other by assumption.
  now apply get_del_other.
Qed.

Lemma replaced (s : state) (n : node) :
  target <> [] -> get (files s) target = Some n ->
  removeThenLink h target pluginId s
  = Ret tt (mkState (put (del (files s) target) target link)
              (logged s ++ [(Success, MsgLinkCreated pluginId)]))
  /\ get (put (del (files s) target) target link) target = Some link.
Proof.
  intros Hne Ht. split.
  - apply (removeThenLink_spec h target pluginId s n Hnt Hne Ht).
  - destruct (get_del_parent _ _ _ Hne Ht) as [esq Hq].
    now apply get_put_same with esq.
Qed.

(** X10.  A link at the target that [existsSync] sees is judged by its
    text alone, taken from the directory of the target: when the text
    resolves to [dist] nothing is changed, otherwise the link is removed
    and made again.  The link is removed, not followed: whatever lies
    outside the target, the place the old link led to included, is as
    before. *)
Theorem link_at_target_is_judged_by_text (s : state) (t : string) :
  target <> [] ->
  get (files s) target = Some (Symlink t) ->
  existsSync (files s) target = true ->
  let fs' := put (del (files s) target) target link in
  deployLink h vaultPath pluginId s
  = (if path_eqb (resolve (dirname target) [t]) dist
     then Ret tt (mkState (files s)
                    (logged s ++ [(Success, MsgLinkPresent pluginId)]))
     else Ret tt (mkState fs'
                    (logged s ++ [(Success, MsgLinkCreated pluginId)])))
  /\ get fs' target = Some link
  /\ forall p, is_prefix target p = false -> is_prefix p target = false ->
               get fs' p = get (files s) p.
Proof.
  intros Hne Ht Hex fs'.
  destruct (replaced s _ Hne Ht) as [Hrun Hlink].
  split; [|split; [exact Hlink | intros p; apply frame_replace]].
  rewrite past_guard. unfold deployLink_tail. fold target. fold dist.
  rewrite Hex, (lstatSync_get _ _ _ Hnt Ht).
  rewrite (resolve_nil _ Hnd).
  destruct (path_eqb (resolve (dirname target) [t]) dist);
    [reflexivity | exact Hrun].
Qed.

(** X11.  A link at the target that leads nowhere, or into itself, is
    not seen by [existsSync]: it is not removed, making the link fails on
    it, and link mode ends with status 1 and the tree as it was. *)
Theorem unseen_link_blocks_link_mode (s : state) (t : string) :
  get (files s) target = Some (Symlink t) ->
  existsSync (files s) target = false ->
  deployLink h vaultPath pluginId s
  = Exit 1 (mkState (files s)
              (logged s ++ [(Failure, MsgLinkFailed (FsError EEXIST))])).
Proof.
  intros Ht Hex.
  pose proof (present_nonempty _ _ Ht Hex) as Hne.
  rewrite past_guard. unfold deployLink_tail. fold target. rewrite Hex.
  destruct (snoc_cases target) as [E | (q & k & E)]; [congruence|].
  destruct (get_dirname_dir _ _ _ Hne Ht) as [esq Hq].
  assert (Hnq : normalized (dirname target) = true).
  { rewrite E in *. rewrite dirname_snoc.
    now destruct (normalized_snoc _ _ Hnt). }
  unfold createLink. unfold bind at 1. unfold fsop at 1.
  rewrite (mkdirSync_recursive_existing _ _ _ Hnq Hq).
  unfold try_catch, bind, fsop, symlinkSync. simpl files.
  now rewrite (namei_get _ false target _ Hnt Ht (or_intror eq_refl)).
Qed.

(** X12.  A regular file at the target, or a directory without
    [data.json], is removed with all it holds and the link is made in its
    place; there is no backup and no message about one, and nothing changes
    outside the target. *)
Theorem target_replaced_without_backup (s : state) (n : node) :
  target <> [] ->
  get (files s) target = Some n ->
  (exists c, n = File c) \/
  (exists tes, n = Dir tes /\ lookup backup tes = None) ->
  let fs' := put (del (files s) target) target link in
  deployLink h vaultPath pluginId s
  = Ret tt (mkState fs' (logged s ++ [(Success, MsgLinkCreated pluginId)]))
  /\ get fs' target = Some link
  /\ forall p, is_prefix target p = false -> is_prefix p target = false ->
               get fs' p = get (files s) p.
Proof.
  intros Hne Ht Hn fs'.
  destruct (replaced s _ Hne Ht) as [Hrun Hlink].
  split; [|split; [exact Hlink | intros p; apply frame_replace]].
  rewrite past_guard. unfold deployLink_tail. fold target. fold dist.
  destruct Hn as [[c ->] | (tes & -> & Hb)].
  - rewrite (existsSync_get _ _ _ Hnt Ht eq_refl).
    rewrite (lstatSync_get _ _ _ Hnt Ht). exact Hrun.
  - rewrite (existsSync_get _ _ _ Hnt Ht eq_refl).
    rewrite (lstatSync_get _ _ _ Hnt Ht).
    unfold bind at 1. unfold bind at 1. unfold existsM at 1.
    assert (Hntb : normalized (target ++ [backup]) = true)
      by now rewrite normalized_app, Hnt.
    rewrite (existsSync_vacant _ _ _ _ Hntb Ht Hb).
    unfold ret. exact Hrun.
Qed.

(** X13.  The target is a real directory whose [data.json] is itself a
    directory, and [dist], a real directory apart from the target, holds no
    [data.json] or a regular one.  Link mode stops at the backup, with the
    error [EISDIR] of the copy: the directory at the target is not removed
    and no link is made.  But the copy has by then opened its destination,
    and removes it when it fails: a backup that was in [dist] is lost. *)
Theorem failed_backup_keeps_target (s : state)
  (tes d des : list (string * node)) :
  is_prefix target dist = false -> is_prefix dist target = false ->
  get (files s) target = Some (Dir tes) ->
  lookup backup tes = Some (Dir d) ->
  get (files s) dist = Some (Dir des) ->
  stale_backup_ok des = true ->
  let fs' := del (files s) (dist ++ [backup]) in
  deployLink h vaultPath pluginId s
  = Throw (FsError EISDIR) (mkState fs' (logged s)) /\
  get fs' target = Some (Dir tes) /\
  get fs' (dist ++ [backup]) = None.
Proof.
  intros Htd Hdt Ht Hb Hd Hstale fs'.
  assert (Hntb : normalized (target ++ [backup]) = true)
    by now rewrite normalized_app, Hnt.
  assert (Hndb : normalized (dist ++ [backup]) = true)
    by now rewrite normalized_app, Hnd.
  assert (Hsrc : get (files s) (target ++ [backup]) = Some (Dir d))
    by now rewrite (get_snoc_dir _ _ _ _ Ht).
  split; [|split].
  - rewrite past_guard. unfold deployLink_tail. fold target. fold dist.
    rewrite (existsSync_get _ _ _ Hnt Ht eq_refl).
    rewrite (lstatSync_get _ _ _ Hnt Ht).
    unfold bind at 1. unfold bind at 1. unfold existsM at 1.
    rewrite (existsSync_get _ _ _ Hntb Hsrc eq_refl).
    unfold bind at 1. unfold fsdo at 1.
    rewrite (copyFileSync_dir_onto (files s) (target ++ [backup]) dist backup
               d des (statSync_get _ _ _ Hntb Hsrc eq_refl) Hndb Hd).
    + reflexivity.
    + unfold stale_backup_ok in Hstale.
      destruct (lookup backup des) as [[c|x|x]|]; try discriminate; exact I.
  - unfold fs'. rewrite get_del_other; [exact Ht | |].
    + now apply incomparable_above.
    + now apply incomparable_below.
  - unfold fs'. apply get_del_same.
    intros E. now apply app_eq_nil in E.
Qed.

End Cases.

Lemma link_made_where_nothing_is_witness :
  deployLink hostProj ["v"] "myplug" (mkState fsBare [])
  = Ret tt
      (mkState
         (Dir [("proj", Dir [("manifest.json", File "myplug")]);
               vault [("myplug", Symlink "/proj/dist")]])
         [(Success, MsgLinkCreated "myplug")]).
Proof.
  refine (eq_trans
            (proj1 (link_made_where_nothing_is hostProj ["v"] "myplug"
                      eq_refl eq_refl _ (mkState fsBare []) eq_refl eq_refl))
            _).
  - discriminate.
  - vm_compute. reflexivity.
Defined.

Lemma link_at_target_is_judged_by_text_witness :
  deployLink hostProj ["v"] "myplug" (mkState fsLinkedElsewhere [])
  = Ret tt
      (mkState (Dir [project built; vault [("myplug", Symlink "/proj/dist")]])
         [(Success, MsgLinkCreated "myplug")]) /\
  deployLink hostProj ["v"] "myplug" (mkState fsLinkedRelative [])
  = Ret tt (mkState fsLinkedRelative [(Success, MsgLinkPresent "myplug")]).
Proof.
  split.
  - refine (eq_trans
              (proj1 (link_at_target_is_judged_by_text hostProj ["v"] "myplug"
                        eq_refl eq_refl _ (mkState fsLinkedElsewhere [])
                        "/proj" _ eq_refl _))
              _).
    + discriminate.
    + discriminate.
    + vm_compute. reflexivity.
    + vm_compute. reflexivity.
  - refine (eq_trans
              (proj1 (link_at_target_is_judged_by_text hostProj ["v"] "myplug"
                        eq_refl eq_refl _ (mkState fsLinkedRelative [])
                        "../../../proj/dist" _ eq_refl _))
              _).
    + discriminate.
    + discriminate.
    + vm_compute. reflexivity.
    + vm_compute. reflexivity.
Defined.

Lemma unseen_link_blocks_link_mode_witness :
  deployLink hostProj ["v"] "myplug" (mkState fsStale [])
  = Exit 1 (mkState fsStale [(Failure, MsgLinkFailed (FsError EEXIST))]) /\
  deployLink hostProj ["v"] "myplug" (mkState fsLoop [])
  = Exit 1 (mkState fsLoop [(Failure, MsgLinkFailed (FsError EEXIST))]).
Proof.
  split.
  - refine (unseen_link_blocks_link_mode hostProj ["v"] "myplug"
              eq_refl eq_refl _ (mkState fsStale []) "/old/dist" eq_refl _).
    + discriminate.
    + vm_compute. reflexivity.
  - refine (unseen_link_blocks_link_mode hostProj ["v"] "myplug"
              eq_refl eq_refl _ (mkState fsLoop []) "myplug" eq_refl _).
    + discriminate.
    + vm_compute. reflexivity.
Defined.

Lemma target_replaced_without_backup_witness :
  deployLink hostProj ["v"] "myplug" (mkState fsFileAtTarget [])
  = Ret tt
      (mkState (Dir [project built; vault [("myplug", Symlink "/proj/dist")]])
         [(Success, MsgLinkCreated "myplug")]).
Proof.
  refine (eq_trans
            (proj1 (target_replaced_without_backup hostProj ["v"] "myplug"
                      eq_refl eq_refl _ (mkState fsFileAtTarget [])
                      (File "x") _ eq_refl _))
            _).
  - discriminate.
  - discriminate.
  - left. now exists "x".
  - vm_compute. reflexivity.
Defined.

Lemma failed_backup_keeps_target_witness :
  deployLink hostProj ["v"] "myplug" (mkState fsDataDirStale [])
  = Throw (FsError EISDIR) (mkState fsDataDir []) /\
  get fsDataDirStale ["proj"; "dist"; "data.json"] = Some (File "stale") /\
  get fsDataDir ["proj"; "dist"; "data.json"] = None.
Proof.
  split; [|split; reflexivity].
  refine (eq_trans
            (proj1 (failed_backup_keeps_target hostProj ["v"] "myplug"
                      eq_refl eq_refl _ (mkState fsDataDirStale [])
                      [("data.json", Dir [])] []
                      [("main.js", File "code"); ("data.json", File "stale")]
                      eq_refl eq_refl eq_refl eq_refl eq_refl eq_refl))
            _).
  - discriminate.
  - vm_compute. reflexivity.
Defined.

End LinkCases.

(* ===================================================================== *)
(** ** Copy mode: what it leaves around the target, and a second run *)
(* ===================================================================== *)

Module CopyCases.
Import PathLib Fs Deploy PathFacts TreeFacts Shape WalkFacts GrowFacts
  SortFacts CopyFile CopyFacts CopyTop CopyMode CopyClaims LinkMode Scenarios.

(** The expected copy is the same in a tree that has only grown. *)
Lemma materialize_extends (fs fs1 : node) :
  extends fs fs1 ->
  forall n at_ c,
    materialize fs at_ n = Some c -> materialize fs1 at_ n = Some c.
Proof.
  intros Hext. induction n as [c0|t|es IH] using node_induction;
    intros at_ c H.
  - exact H.
  - simpl in *. destruct (readFileSync fs at_) as [x|e] eqn:E; [|discriminate].
    now rewrite (readFileSync_extends _ _ _ _ Hext E).
  - rewrite materialize_dir in *.
    assert (K : forall es', materialize_all fs at_ es = Some es' ->
                            materialize_all fs1 at_ es = Some es').
    { clear H. induction es as [|e r IHr]; intros es' H; [exact H|].
      simpl in *.
      destruct (materialize fs (at_ ++ [fst e]) (snd e)) as [c1|] eqn:E1;
        [|discriminate].
      destruct (materialize_all fs at_ r) as [r'|] eqn:E2; [|discriminate].
      rewrite (IH e (or_introl eq_refl) _ _ E1).
      rewrite (IHr (fun x Hx => IH x (or_intror Hx)) r' eq_refl).
      exact H. }
    destruct (materialize_all fs at_ es) as [es'|]; [|discriminate].
    now rewrite (K es' eq_refl).
Qed.

(** Making directories, or storing something off the path, keeps the
    path a path of real directories. *)
Lemma dirs_along_empty (p : Path) : dirs_along (Dir []) p = true.
Proof. now destruct p. Qed.

Lemma dirs_along_mkdirs (q : Path) :
  forall n p, dirs_along n p = true -> dirs_along (mkdirs n q) p = true.
Proof.
  induction q as [|a q IH]; intros n p H; [exact H|].
  destruct (dirs_along_dir _ _ H) as [es ->]. simpl mkdirs.
  destruct p as [|b p]; [reflexivity|]. simpl in H. simpl.
  destruct (String.eqb_spec a b) as [->|Hab].
  - rewrite lookup_set_entry_same.
    destruct (lookup b es) as [c|]; apply IH;
      [exact H | apply dirs_along_empty].
  - now rewrite (lookup_set_entry_other _ _ _ _ (not_eq_sym Hab)).
Qed.

Lemma dirs_along_put (x : Path) (v : node) :
  forall n p, dirs_along n p = true -> is_prefix x p = false ->
              dirs_along (put n x v) p = true.
Proof.
  induction x as [|a x IH]; intros n p H Hx; [discriminate|].
  destruct (dirs_along_dir _ _ H) as [es ->]. rewrite put_cons.
  destruct p as [|b p].
  - destruct x; [reflexivity|]. now destruct (lookup a es).
  - simpl in H, Hx.
    destruct (String.eqb_spec a b) as [->|Hab].
    + simpl in Hx. destruct x as [|a' x]; [discriminate|].
      destruct (lookup b es) as [c|] eqn:El.
      * simpl. rewrite lookup_set_entry_same. now apply IH.
      * simpl. now rewrite El.
    + assert (K : forall c,
                dirs_along (Dir (set_entry a c es)) (b :: p) = true).
      { intros c. simpl.
        now rewrite (lookup_set_entry_other _ _ _ _ (not_eq_sym Hab)). }
      destruct x; [apply K|]. destruct (lookup a es); [apply K|].
      simpl. exact H.
Qed.

Section Copied.
Variable h : host.
Variable fuel : nat.
Variable vaultPath : Path.
Variable pluginId : string.
Variable s : state.
Variable es : list (string * node).
Variable copy : node.

Let target : Path := targetPluginDir vaultPath pluginId.
Let dist : Path := distDir h.

Hypothesis Hvault : normalized vaultPath = true.
Hypothesis Hroot : normalized (projectRoot h) = true.
Hypothesis Hdt : is_prefix dist target = false.
Hypothesis Htd : is_prefix target dist = false.
Hypothesis Hdist : get (files s) dist = Some (Dir es).
Hypothesis Hwf : wf_tree (Dir es) = true.
Hypothesis Hdepth : depth (Dir es) < fuel.
Hypothesis Hdirs : dirs_along (files s) (dirname target) = true.
Hypothesis Hrep : replaceable (files s) target = true.
Hypothesis Hmat : materialize (del (files s) target) dist (Dir es) = Some copy.

Let Hnt : normalized target = true := target_normalized _ pluginId Hvault.
Let Hnd : normalized dist = true := dist_normalized h Hroot.
Let Hne : target <> [] := not_prefix_nonempty _ _ Htd.

Let fs0 : node := del (files s) target.
Let fs1 : node := put (mkdirs fs0 target) target copy.

Lemma first_copy :
  deployCopy h fuel vaultPath pluginId s
  = Ret tt (mkState fs1
              (logged s ++ [(Success, MsgCopied (List.length es) pluginId)])).
Proof.
  apply (deployCopy_spec h fuel vaultPath pluginId s es copy); assumption.
Qed.

Lemma outside_target (p : Path) :
  is_prefix target p = false -> is_prefix p target = false ->
  get fs1 p = get (files s) p.
Proof.
  intros H1 H2. unfold fs1, fs0.
  rewrite get_put_other by assumption.
  rewrite get_mkdirs_other by assumption.
  now apply get_del_other.
Qed.

(** X14.  Copy mode changes the target and nothing beside it: the run
    returns, what it leaves at the target is the expected copy of [dist]
    (a link of [dist] being replaced by the content it leads to), and every
    path that is neither above nor below the target leads to what it led to
    before, [dist] included; what a link at the target led to is not
    touched. *)
Theorem copy_changes_only_the_target :
  exists s',
    deployCopy h fuel vaultPath pluginId s = Ret tt s' /\
    get (files s') target = Some copy /\
    forall p, is_prefix target p = false -> is_prefix p target = false ->
              get (files s') p = get (files s) p.
Proof.
  eexists. split; [apply first_copy|]. simpl files. split.
  - now apply stored_at_target.
  - apply outside_target.
Qed.

(** X15.  The number in the message of success is the number of direct
    entries of [dist], a directory counting for one whatever it holds; it
    is not the number of files copied. *)
Theorem copy_reports_direct_entries :
  exists s',
    deployCopy h fuel vaultPath pluginId s = Ret tt s' /\
    logged s' = logged s ++ [(Success, MsgCopied (List.length es) pluginId)].
Proof. eexists. split; [apply first_copy | reflexivity]. Qed.

Lemma copy_is_dir : exists es', copy = Dir es'.
Proof.
  pose proof Hmat as H. rewrite materialize_dir in H.
  destruct (materialize_all (del (files s) target) dist es) as [es'|];
    [|discriminate].
  simpl in H. inversion H. eauto.
Qed.

(** X16.  Copy mode twice is copy mode once: a second run on what the
    first one left returns, and leaves the same tree. *)
Theorem copy_mode_twice :
  exists s1,
    deployCopy h fuel vaultPath pluginId s = Ret tt s1 /\
    deployCopy h fuel vaultPath pluginId s1
    = Ret tt
        (mkState (files s1)
           (logged s1 ++ [(Success, MsgCopied (List.length es) pluginId)])).
Proof.
  eexists. split; [apply first_copy|]. simpl files.
  destruct (snoc_cases target) as [E | (q & k & E)]; [congruence|].
  assert (Hfree : get fs0 target = None) by now apply get_del_same.
  assert (Hdirs0 : dirs_along fs0 target = true).
  { unfold fs0. rewrite E in *. rewrite dirname_snoc in Hdirs.
    now apply dirs_along_del. }
  assert (Hdq : dirs_along fs0 q = true).
  { rewrite E in Hdirs0. now apply dirs_along_prefix in Hdirs0. }
  set (fsq := mkdirs fs0 q).
  destruct (get_mkdirs_parent fs0 q k) as [esq Hq];
    [now rewrite <- E|]. fold fsq in Hq.
  assert (Hk : lookup k esq = None).
  { destruct (get fs0 q) as [m|] eqn:Eq.
    - unfold fsq in Hq. rewrite (mkdirs_existing _ _ _ Eq), Eq in Hq.
      inversion Hq; subst m.
      rewrite <- (get_snoc_dir _ _ _ _ Eq). now rewrite <- E.
    - unfold fsq in Hq. rewrite (get_mkdirs_same _ _ Hdq Eq) in Hq.
      now inversion Hq. }
  assert (Hfreeq : get fsq target = None)
    by (rewrite E; now rewrite (get_snoc_dir _ _ _ _ Hq)).
  assert (Hshape : fs1 = put fsq target copy).
  { unfold fs1. rewrite E. rewrite mkdirs_snoc by (rewrite <- E; assumption).
    now rewrite put_put_same. }
  assert (Hdel : del fs1 target = fsq).
  { rewrite Hshape, (del_put_same _ _ _ Hne). now apply del_absent. }
  assert (Hstored : get fs1 target = Some copy)
    by now apply stored_at_target.
  destruct copy_is_dir as [es' Ecopy].
  assert (Hagain : put (mkdirs (del fs1 target) target) target copy = fs1).
  { rewrite Hdel, Hshape. rewrite E.
    rewrite mkdirs_snoc.
    - rewrite (mkdirs_existing fsq q (Dir esq) Hq).
      now rewrite put_put_same.
    - apply dirs_along_absent; [now apply dirs_along_of_get with esq|].
      now rewrite <- E.
    - now rewrite <- E. }
  set (s1 := mkState fs1
               (logged s ++ [(Success, MsgCopied (List.length es) pluginId)])).
  assert (H1 : get (files s1) dist = Some (Dir es))
    by (cbn [s1 files]; now rewrite outside_target).
  assert (H2 : dirs_along (files s1) (dirname target) = true).
  { cbn [s1 files]. destruct (get_dirname_dir _ _ _ Hne Hstored) as [esd Hd].
    now apply dirs_along_of_get with esd. }
  assert (H3 : replaceable (files s1) target = true).
  { cbn [s1 files]. unfold replaceable. rewrite Hstored.
    apply (existsSync_get _ _ _ Hnt Hstored). now rewrite Ecopy. }
  assert (H4 : materialize (del (files s1) target) dist (Dir es) = Some copy).
  { cbn [s1 files]. rewrite Hdel.
    apply materialize_extends with fs0; [|exact Hmat].
    now apply extends_mkdirs. }
  pose proof (deployCopy_spec h fuel vaultPath pluginId s1 es copy
                Hvault Hroot Hdt Htd H1 Hwf Hdepth H2 H3 H4) as Hsecond.
  cbv zeta in Hsecond. fold target in Hsecond.
  cbn [s1 files] in Hsecond. rewrite Hagain in Hsecond. exact Hsecond.
Qed.

End Copied.

Ltac by_computing :=
  first [ vm_compute; reflexivity | vm_compute; lia ].

Lemma copy_changes_only_the_target_witness :
  exists s',
    deployCopy hostProj 5 ["v"] "myplug" (mkState fsTree []) = Ret tt s' /\
    get (files s') (targetPluginDir ["v"] "myplug")
    = Some (Dir [("alias.js", File "code");
                 ("assets", Dir [("a.css", File "css"); ("empty", Dir [])]);
                 ("main.js", File "code")]) /\
    forall p, is_prefix (targetPluginDir ["v"] "myplug") p = false ->
              is_prefix p (targetPluginDir ["v"] "myplug") = false ->
              get (files s') p = get fsTree p.
Proof.
  apply (copy_changes_only_the_target hostProj 5 ["v"] "myplug"
           (mkState fsTree [])
           [("main.js", File "code"); ("alias.js", Symlink "main.js");
            ("assets", Dir [("empty", Dir []); ("a.css", File "css")])]);
    by_computing.
Defined.

Lemma copy_reports_direct_entries_witness :
  exists s',
    deployCopy hostProj 5 ["v"] "myplug" (mkState fsTree []) = Ret tt s' /\
    logged s' = [] ++ [(Success, MsgCopied 3 "myplug")].
Proof.
  apply (copy_reports_direct_entries hostProj 5 ["v"] "myplug"
           (mkState fsTree [])
           [("main.js", File "code"); ("alias.js", Symlink "main.js");
            ("assets", Dir [("empty", Dir []); ("a.css", File "css")])]
           (Dir [("alias.js", File "code");
                 ("assets", Dir [("a.css", File "css"); ("empty", Dir [])]);
                 ("main.js", File "code")]));
    by_computing.
Defined.

Lemma copy_mode_twice_witness :
  exists s1,
    deployCopy hostProj 5 ["v"] "myplug" (mkState fsTree []) = Ret tt s1 /\
    deployCopy hostProj 5 ["v"] "myplug" s1
    = Ret tt (mkState (files s1)
                (logged s1 ++ [(Success, MsgCopied 3 "myplug")])).
Proof.
  apply (copy_mode_twice hostProj 5 ["v"] "myplug" (mkState fsTree [])
           [("main.js", File "code"); ("alias.js", Symlink "main.js");
            ("assets", Dir [("empty", Dir []); ("a.css", File "css")])]
           (Dir [("alias.js", File "code");
                 ("assets", Dir [("a.css", File "css"); ("empty", Dir [])]);
                 ("main.js", File "code")]));
    by_computing.
Defined.

(** X17.  Something at the target that [existsSync] does not see (a link
    that leads nowhere or into itself) is not removed by copy mode: the
    first [mkdir] of the copy fails on it and the run ends with status 1,
    the tree being as it was. *)
Theorem unseen_target_blocks_copy_mode (h : host) (fuel : nat)
  (vaultPath : Path) (pluginId : string) (s : state) (n : node) :
  let target := targetPluginDir vaultPath pluginId in
  normalized vaultPath = true -> normalized (projectRoot h) = true ->
  target <> distDir h ->
  existsSync (files s) (distDir h) = true ->
  get (files s) target = Some n ->
  existsSync (files s) target = false ->
  exists e,
    deployCopy h (S fuel) vaultPath pluginId s
    = Exit 1 (mkState (files s)
                (logged s ++ [(Failure, MsgCopyFailed (FsError e))])).
Proof.
  intros target Hv Hroot Hneq Hdist Ht Hex.
  pose proof (target_normalized _ pluginId Hv) as Hnt. fold target in Hnt.
  pose proof (dist_normalized h Hroot) as Hnd.
  destruct (mkdirSync_recursive_unseen _ _ _ Hnt Ht Hex) as [e He].
  exists e. unfold deployCopy. fold target.
  rewrite (resolve_nil _ Hnt), (resolve_nil _ Hnd).
  assert (Hpe : path_eqb target (distDir h) = false)
    by now apply path_eqb_neq.
  rewrite Hpe. unfold bind at 1. unfold existsM at 1. rewrite Hdist.
  change (negb true) with false. cbv beta iota.
  unfold bind at 1. unfold existsM at 1. rewrite Hex.
  unfold bind at 1. unfold ret at 1.
  unfold try_catch. unfold bind at 1.
  rewrite copyDirRecursive_S. unfold bind at 1. unfold fsop at 1.
  rewrite He. reflexivity.
Qed.

Lemma unseen_target_blocks_copy_mode_witness :
  exists e,
    deployCopy hostProj 5 ["v"] "myplug" (mkState fsStale [])
    = Exit 1 (mkState fsStale [(Failure, MsgCopyFailed (FsError e))]).
Proof.
  apply (unseen_target_blocks_copy_mode hostProj 4 ["v"] "myplug"
           (mkState fsStale []) (Symlink "/old/dist"));
    first [ discriminate | vm_compute; reflexivity ].
Defined.

(** *** A copy that stops on the way *)

Lemma forEach_app {A} (f : A -> M unit) (a b : list A) (s s1 : state) :
  forEach a f s = Ret tt s1 -> forEach (a ++ b) f s = forEach b f s1.
Proof.
  revert s. induction a as [|x a IH]; intros s H.
  - simpl in H. unfold ret in H. now inversion H.
  - simpl in *. unfold bind in *.
    destruct (f x s) as [[] s2|c s2|e s2|]; try discriminate.
    now apply IH.
Qed.

Lemma nodupb_app_l (a b : list string) :
  nodupb (a ++ b) = true -> nodupb a = true.
Proof.
  induction a as [|x a IH]; [reflexivity|]. simpl. intros H.
  apply andb_true_iff in H. destruct H as [Hx Hr].
  rewrite (IH Hr), andb_true_r.
  rewrite existsb_app in Hx. apply negb_true_iff in Hx.
  apply orb_false_iff in Hx. destruct Hx as [Hx _]. now rewrite Hx.
Qed.

Lemma statSync_extends (fs fs1 : node) (p : Path) (d : list (string * node)) :
  extends fs fs1 -> statSync fs p = Ok (Dir d) ->
  exists d', statSync fs1 p = Ok (Dir d').
Proof.
  intros Hext. unfold statSync, namei.
  destruct (namei_from max_hops fs true [] p) as [[q n|q]|e] eqn:E;
    try discriminate.
  destruct (namei_from_extends fs fs1 true max_hops Hext _ _ _ _ E)
    as (m & -> & K).
  intros H. inversion H; subst n. destruct K as [d' ->]. eauto.
Qed.

Lemma lookup_materialize_none (fs : node) (at_ : Path) (k : string) :
  forall es es',
    materialize_all fs at_ es = Some es' -> lookup k es = None ->
    lookup k es' = None.
Proof.
  induction es as [|[k0 c0] r IH]; intros es' Hm Hl.
  - simpl in Hm. now inversion Hm.
  - simpl in Hm.
    destruct (materialize fs (at_ ++ [k0]) c0) as [v|]; [|discriminate].
    destruct (materialize_all fs at_ r) as [r'|] eqn:Er; [|discriminate].
    inversion Hm; subst es'. simpl in *.
    destruct (k0 =? k); [discriminate | now apply IH].
Qed.

Lemma lookup_not_in (k : string) (l : list (string * node)) :
  ~ In k (map fst l) -> lookup k l = None.
Proof.
  induction l as [|[a n] r IH]; intros H; [reflexivity|].
  simpl in *. destruct (String.eqb_spec a k) as [->|Hne]; [tauto|].
  apply IH. tauto.
Qed.

(** X22.  [copyDirRecursive] takes the entries in the order of their names,
    stops at the first one it cannot copy and undoes nothing.  Here the
    entry is a link that leads to a directory: the call throws [EISDIR];
    the destination has been made and holds the copies of the entries
    listed before the link, and nothing of the link or of the entries
    listed after it. *)
Theorem copy_stops_at_link_to_directory (fuel : nat) (src dest : Path)
  (es before after before' d : list (string * node)) (k t : string)
  (s : state) :
  normalized src = true -> normalized dest = true ->
  is_prefix src dest = false -> is_prefix dest src = false ->
  get (files s) src = Some (Dir es) ->
  sort_entries es = before ++ (k, Symlink t) :: after ->
  wf_tree (Dir es) = true ->
  depth (Dir before) <= fuel ->
  dirs_along (files s) dest = true -> get (files s) dest = None ->
  materialize_all (files s) src before = Some before' ->
  statSync (files s) (src ++ [k]) = Ok (Dir d) ->
  copyDirRecursive (S fuel) src dest s
  = Throw (FsError EISDIR)
      (mkState (put (mkdirs (files s) dest) dest (Dir before')) (logged s)).
Proof.
  intros Hns Hnd Hsd Hds Hsrc Hsort Hwf Hdep Hdirs Hdst Hmat Hstat.
  destruct (wf_tree_dir _ Hwf) as (Hval0 & Hnodup0 & Hchildren).
  pose proof (sort_entries_valid _ Hval0) as Hval.
  pose proof (sort_entries_nodup _ Hnodup0) as Hnodup.
  rewrite Hsort in Hval, Hnodup.
  destruct (snoc_cases dest) as [E | (q & x & E)].
  { rewrite E in Hdst. discriminate. }
  rewrite copyDirRecursive_S. unfold bind at 1. unfold fsop at 1.
  rewrite (mkdirSync_recursive_plain _ _ Hnd Hdirs).
  unfold bind at 1. unfold fsread at 1. cbn [files logged].
  rewrite (readdirSync_get _ _ es Hns) by now rewrite get_mkdirs_other.
  set (fsm := mkdirs (files s) dest).
  assert (Hpar : exists es0, get fsm (dirname dest) = Some (Dir es0)).
  { unfold fsm. rewrite E in *. rewrite dirname_snoc.
    rewrite (mkdirs_snoc _ _ _ Hdirs Hdst).
    destruct (get_mkdirs_parent _ _ _ Hdirs) as [esq Hq].
    rewrite (get_put_above _ _ _ _ _ Hq). simpl. eauto. }
  destruct Hpar as [es0 Hpar].
  assert (Hin : forall e, In e before -> In e es).
  { intros e He. apply (proj1 (sort_entries_in es e)). rewrite Hsort.
    apply in_or_app. now left. }
  assert (Hvb : forallb valid_name (map fst before) = true).
  { rewrite map_app, forallb_app in Hval.
    now apply andb_true_iff in Hval. }
  assert (Hnb : nodupb (map fst before) = true).
  { rewrite map_app in Hnodup. now apply nodupb_app_l in Hnodup. }
  assert (Hloop : forEach before (copy_entry fuel src dest)
                    (mkState fsm (logged s))
                  = Ret tt (mkState (put fsm dest (Dir ([] ++ before')))
                              (logged s))).
  { apply (copy_loop (files s) dest Hdst fuel
             (copy_all (files s) dest Hdst fuel)
             src dest Hns Hnd Hsd Hds (is_prefix_refl _)
             before before' [] es0 (mkState fsm (logged s))); auto.
    - intros e He. repeat split.
      + apply Hchildren. now apply Hin.
      + pose proof (depth_child before e He). lia.
      + cbn [files]. unfold fsm. rewrite get_mkdirs_other;
          [ | now apply incomparable_below | now apply incomparable_above ].
        rewrite (get_snoc_dir _ _ _ _ Hsrc).
        apply lookup_in_nodup; [exact Hnodup0 | now apply Hin].
    - cbn [files]. now apply extends_mkdirs.
    - cbn [files]. unfold fsm. now apply get_mkdirs_same. }
  rewrite Hsort, (forEach_app _ _ _ _ _ Hloop).
  cbn [forEach app]. unfold bind at 1.
  assert (Hk : valid_name k = true).
  { rewrite map_app, forallb_app in Hval.
    apply andb_true_iff in Hval. destruct Hval as [_ Hval]. simpl in Hval.
    now apply andb_true_iff in Hval. }
  assert (Hfresh : lookup k before' = None).
  { apply (lookup_materialize_none _ _ _ _ _ Hmat). apply lookup_not_in.
    apply nodupb_NoDup in Hnodup. rewrite map_app in Hnodup.
    apply NoDup_remove_2 in Hnodup. intros Hkb. apply Hnodup.
    apply in_or_app. now left. }
  set (fs2 := put fsm dest (Dir before')).
  assert (Hext : extends (files s) fs2).
  { apply extends_put with dest; [now apply extends_mkdirs | exact Hdst|].
    apply is_prefix_refl. }
  assert (Hd2 : get fs2 dest = Some (Dir before'))
    by (unfold fs2; now apply get_put_same with es0).
  destruct (statSync_extends _ _ _ _ Hext Hstat) as [d' Hstat'].
  assert (Hk1 : normalized [k] = true) by (simpl; now rewrite Hk).
  unfold copy_entry, fsdo. cbn [fst snd isDirectory files logged].
  rewrite (join_valid src [k] Hns Hk1), (join_valid dest [k] Hnd Hk1).
  rewrite (copyFileSync_dir_onto fs2 (src ++ [k]) dest k d' before' Hstat');
    [ | now rewrite normalized_app, Hnd, Hk1 | exact Hd2 | now rewrite Hfresh ].
  rewrite del_absent; [reflexivity|].
  now rewrite (get_snoc_dir _ _ _ _ Hd2).
Qed.

Lemma copy_stops_at_link_to_directory_witness :
  copyDirRecursive 5 ["proj"; "dist"] ["v"; ".obsidian"; "plugins"; "myplug"]
    (mkState fsLinks [])
  = Throw (FsError EISDIR)
      (mkState
         (put (mkdirs fsLinks ["v"; ".obsidian"; "plugins"; "myplug"])
            ["v"; ".obsidian"; "plugins"; "myplug"]
            (Dir [("alias.js", File "code")]))
         []).
Proof.
  apply (copy_stops_at_link_to_directory 4 ["proj"; "dist"]
           ["v"; ".obsidian"; "plugins"; "myplug"]
           [("main.js", File "code"); ("alias.js", Symlink "main.js");
            ("libs", Symlink "../lib")]
           [("alias.js", Symlink "main.js")] [("main.js", File "code")]
           [("alias.js", File "code")]
           [("a.js", File "A")] "libs" "../lib" (mkState fsLinks []));
    by_computing.
Defined.

(** X24.  [copyDirRecursive] makes the destination before it reads the
    source: when the source is missing the call throws [ENOENT], and the
    destination is left behind as an empty directory, with the directories
    that were made above it. *)
Theorem copy_of_missing_source (fuel : nat) (src dest : Path) (s : state) :
  normalized src = true -> normalized dest = true ->
  is_prefix src dest = false -> is_prefix dest src = false ->
  dirs_along (files s) src = true -> get (files s) src = None ->
  dirs_along (files s) dest = true -> get (files s) dest = None ->
  copyDirRecursive (S fuel) src dest s
  = Throw (FsError ENOENT) (mkState (mkdirs (files s) dest) (logged s)) /\
  get (mkdirs (files s) dest) dest = Some (Dir []).
Proof.
  intros Hns Hnd Hsd Hpre Hds Hsrc Hdd Hdst.
  split; [|now apply get_mkdirs_same].
  rewrite copyDirRecursive_S. unfold bind at 1. unfold fsop at 1.
  rewrite (mkdirSync_recursive_plain _ _ Hnd Hdd).
  unfold bind at 1. unfold fsread at 1. cbn [files logged].
  assert (Hgone : get (mkdirs (files s) dest) src = None)
    by (rewrite get_mkdirs_other; assumption).
  assert (Hdm : dirs_along (mkdirs (files s) dest) src = true)
    by now apply dirs_along_mkdirs.
  unfold readdirSync, statSync.
  destruct (namei_absent _ true _ Hns Hdm Hgone) as [-> | ->]; reflexivity.
Qed.

Lemma copy_of_missing_source_witness :
  copyDirRecursive 5 ["proj"; "dist"] ["v"; ".obsidian"; "plugins"; "myplug"]
    (mkState fsBare [])
  = Throw (FsError ENOENT)
      (mkState (Dir [("proj", Dir [("manifest.json", File "myplug")]);
                     vault [("myplug", Dir [])]])
         []).
Proof.
  refine (eq_trans
            (proj1 (copy_of_missing_source 4 ["proj"; "dist"]
                      ["v"; ".obsidian"; "plugins"; "myplug"]
                      (mkState fsBare [])
                      eq_refl eq_refl eq_refl eq_refl eq_refl eq_refl
                      eq_refl eq_refl))
            _).
  vm_compute. reflexivity.
Defined.

End CopyCases.

(* ===================================================================== *)
(** ** Whole runs *)
(* ===================================================================== *)

Module Runs.
Import PathLib Fs Deploy PathFacts TreeFacts Shape WalkFacts GrowFacts
  CopyFacts CopyTop CopyMode LinkMode Dispatch Options DistReady Config
  LinkCases CopyCases Scenarios.

(** *** How the functions end *)

Lemma failure_logged (l : list (level * message)) (m : message) :
  exists m', In (Failure, m') (l ++ [(Failure, m)]).
Proof. exists m. apply in_or_app. right. now left. Qed.

Lemma createLink_loud (h : host) (target : Path) (id : string) (s : state) :
  loud_exit (createLink h target id s) /\
  createLink h target id s <> OutOfFuel.
Proof.
  unfold createLink, bind, fsop, try_catch, log, exit.
  destruct (mkdirSync_recursive _ _); simpl; [|split; [exact I|discriminate]].
  destruct (symlinkSync _ _ _); simpl; [split; [exact I|discriminate]|].
  split; [|discriminate].
  right. split; [reflexivity | apply failure_logged].
Qed.

Lemma removeThenLink_loud (h : host) (target : Path) (id : string)
  (s : state) :
  loud_exit (removeThenLink h target id s) /\
  removeThenLink h target id s <> OutOfFuel.
Proof.
  unfold removeThenLink, bind, fsop.
  destruct (rmSync_rf _ _); [apply createLink_loud|].
  split; [exact I | discriminate].
Qed.

Lemma deployLink_loud (h : host) (v : Path) (id : string) (s : state) :
  loud_exit (deployLink h v id s) /\ deployLink h v id s <> OutOfFuel.
Proof.
  assert (T : forall A (e : error) (s0 : state),
            loud_exit (@Throw A e s0) /\ @Throw A e s0 <> OutOfFuel)
    by (intros; split; [exact I | discriminate]).
  assert (Rt : forall A (a : A) (s0 : state),
            loud_exit (Ret a s0) /\ Ret a s0 <> OutOfFuel)
    by (intros; split; [exact I | discriminate]).
  unfold deployLink.
  destruct (path_eqb _ _).
  { split; [now left | discriminate]. }
  unfold bind, existsM, fsread, fsop, fsdo, log, ret.
  destruct (existsSync _ _); [|apply createLink_loud].
  destruct (lstatSync _ _) as [n|e]; [|apply T].
  destruct (isSymbolicLink n).
  - destruct (readlinkSync _ _); [|apply T].
    destruct (path_eqb _ _); [apply Rt | apply removeThenLink_loud].
  - destruct (isDirectory n); [|apply removeThenLink_loud].
    destruct (existsSync _ _); [|apply removeThenLink_loud].
    destruct (copyFileSync _ _ _); [apply removeThenLink_loud | apply T].
Qed.

Lemma forEach_quiet {A} (f : A -> M unit) (l : list A) :
  (forall x s, quiet (f x s) s) -> forall s, quiet (forEach l f s) s.
Proof.
  intros Hf. induction l as [|x r IH]; intros s; [reflexivity|].
  cbn [forEach]. unfold bind.
  pose proof (Hf x s) as K.
  destruct (f x s) as [[] s1|c s1|e s1|]; try exact K.
  pose proof (IH s1) as K1. unfold quiet in *.
  destruct (forEach r f s1) as [[] s2|c s2|e s2|]; try exact K1;
    congruence.
Qed.

(** [copyDirRecursive] never ends the process and logs nothing. *)
Lemma copyDirRecursive_quiet (fuel : nat) :
  forall src dest s, quiet (copyDirRecursive fuel src dest s) s.
Proof.
  induction fuel as [|n IH]; intros src dest s; [exact I|].
  rewrite copyDirRecursive_S. unfold bind at 1. unfold fsop at 1.
  destruct (mkdirSync_recursive _ _) as [fs1|e]; [|reflexivity].
  unfold bind at 1. unfold fsread at 1. cbn [files logged].
  destruct (readdirSync _ _) as [entries|e]; [|reflexivity].
  assert (Hf : forall x s0, quiet (copy_entry n src dest x s0) s0).
  { intros x s0. unfold copy_entry.
    destruct (isDirectory (snd x)); [apply IH|].
    unfold fsdo. destruct (copyFileSync _ _ _); reflexivity. }
  exact (forEach_quiet (copy_entry n src dest) entries Hf
           (mkState fs1 (logged s))).
Qed.

Lemma deployCopy_loud (h : host) (fuel : nat) (v : Path) (id : string)
  (s : state) :
  loud_exit (deployCopy h fuel v id s).
Proof.
  unfold deployCopy.
  destruct (path_eqb _ _); [now left|].
  unfold bind at 1. unfold existsM at 1.
  destruct (existsSync _ _); cbn [negb].
  2:{ right. split; [reflexivity | apply failure_logged]. }
  unfold bind at 1. unfold existsM at 1. unfold bind at 1.
  assert (K : forall s0,
            loud_exit
              (try_catch
                 (copyDirRecursive fuel (distDir h) (targetPluginDir v id) ;;
                  entries <- fsread (fun fs => readdirSync fs (distDir h)) ;;
                  log Success (MsgCopied (List.length entries) id))
                 (fun e => log Failure (MsgCopyFailed e) ;; exit 1) s0)).
  { intros s0. unfold try_catch. unfold bind at 1.
    pose proof (copyDirRecursive_quiet fuel (distDir h)
                  (targetPluginDir v id) s0) as Q.
    unfold quiet in Q.
    destruct (copyDirRecursive fuel (distDir h) (targetPluginDir v id) s0)
      as [[] s1|c s1|x s1|]; try contradiction; try exact I.
    - unfold bind, fsread, log, exit.
      destruct (readdirSync _ _); simpl; [exact I|].
      right. split; [reflexivity | apply failure_logged].
    - right. split; [reflexivity | apply failure_logged]. }
  destruct (existsSync _ _).
  - unfold fsop. destruct (rmSync_rf _ _); [apply K | exact I].
  - unfold ret. apply K.
Qed.

Lemma loadVaultPath_ends (h : host) (args : list string) (s : state) :
  match loadVaultPath h args s with
  | Ret _ _ => True
  | Exit code s' =>
      code = 0%Z \/ (code = 1%Z /\ exists m, In (Failure, m) (logged s'))
  | Throw _ _ => False
  | OutOfFuel => False
  end.
Proof.
  unfold loadVaultPath.
  destruct (truthy (customVaultPath args)); [exact I|].
  unfold bind, existsM.
  destruct (existsSync (files s) (envPath h)); simpl; [|now left].
  match goal with
  | |- context [match truthy ?x with _ => _ end] => destruct (truthy x)
  end; simpl; [exact I|].
  right. split; [reflexivity | apply failure_logged].
Qed.

Lemma getPluginId_ends (h : host) (s : state) :
  match getPluginId h s with
  | Ret _ _ => True
  | Exit code s' => code = 1%Z /\ exists m, In (Failure, m) (logged s')
  | Throw _ _ => False
  | OutOfFuel => False
  end.
Proof.
  unfold getPluginId, bind, existsM.
  destruct (existsSync (files s) (if existsSync _ _ then _ else _)); simpl.
  - unfold try_catch, readJsonSync, bind, fsread.
    destruct (readFileSync _ _) as [c|e]; simpl.
    + destruct (jsonId h c) as [o|]; simpl.
      * unfold ret. destruct (truthy o); simpl; [exact I|].
        split; [reflexivity | apply failure_logged].
      * split; [reflexivity | apply failure_logged].
    + split; [reflexivity | apply failure_logged].
  - split; [reflexivity | apply failure_logged].
Qed.

(** X18.  However a run goes, no exception leaves [main]: the process
    ends by returning or with status 0 or 1, and status 1 never comes
    without a line of failure in the log.  Only the copy can use up the
    budget given to the recursion. *)
Theorem main_never_throws (h : host) (fuel : nat) (args : list string)
  (s : state) :
  match main h fuel args s with
  | Ret _ _ => True
  | Exit code s' =>
      code = 0%Z \/ (code = 1%Z /\ exists m, In (Failure, m) (logged s'))
  | Throw _ _ => False
  | OutOfFuel => deployMode args = "copy"
  end.
Proof.
  assert (Caught : forall e s0,
            match (log Failure (MsgDeployFailed e) ;; @exit unit 1) s0
                  return Prop with
            | Ret _ _ => True
            | Exit code s' =>
                code = 0%Z \/
                (code = 1%Z /\ exists m, In (Failure, m) (logged s'))
            | Throw _ _ => False
            | OutOfFuel => deployMode args = "copy"
            end).
  { intros e s0. unfold bind, log, exit. simpl.
    right. split; [reflexivity | apply failure_logged]. }
  unfold main, try_catch.
  unfold bind at 1. unfold log at 1.
  unfold bind at 1.
  destruct (ensureDistReady_cases h
              (mkState (files s)
                 (logged s ++ [(Info, MsgMode (deployMode args))])))
    as [[s1 E] | [e [s1 E]]]; rewrite E; [|apply Caught].
  unfold bind at 1.
  pose proof (loadVaultPath_ends h args s1) as L.
  destruct (loadVaultPath h args s1) as [v s2|c s2|e s2|];
    try contradiction; [|exact L].
  unfold bind at 1.
  pose proof (getPluginId_ends h s2) as G.
  destruct (getPluginId h s2) as [id s3|c s3|e s3|];
    try contradiction; [|now right].
  unfold bind at 1. unfold log at 1.
  unfold bind at 1. unfold log at 1.
  destruct (deployMode args =? "link") eqn:El.
  - match goal with
    | |- context [deployLink h v id ?st] =>
        destruct (deployLink_loud h v id st) as [D N];
        destruct (deployLink h v id st) as [[] s4|c s4|e s4|];
        [exact I | exact D | apply Caught | congruence]
    end.
  - destruct (deployMode args =? "copy") eqn:Ec.
    + apply String.eqb_eq in Ec.
      match goal with
      | |- context [deployCopy h fuel v id ?st] =>
          pose proof (deployCopy_loud h fuel v id st) as D;
          destruct (deployCopy h fuel v id st) as [[] s4|c s4|e s4|];
          [exact I | exact D | apply Caught | exact Ec]
      end.
    + unfold bind, log, exit. simpl. right.
      split; [reflexivity|]. eexists. apply in_or_app. left.
      apply in_or_app. right. now left.
Qed.

(** X19.  Without [--vault-path=] and without [.env] file the run is
    given up with status 0 as soon as [ensureDistReady] has returned:
    neither the manifest nor the mode is looked at, so that an unknown mode
    or a missing manifest goes unnoticed.  What [ensureDistReady] made
    stays. *)
Theorem run_without_env_is_skipped (h : host) (fuel : nat)
  (args : list string) (s s1 : state) :
  truthy (customVaultPath args) = None ->
  ensureDistReady h
    (mkState (files s) (logged s ++ [(Info, MsgMode (deployMode args))]))
  = Ret tt s1 ->
  existsSync (files s1) (envPath h) = false ->
  main h fuel args s
  = Exit 0 (mkState (files s1) (logged s1 ++ [(Warn, MsgNoEnvFile)])).
Proof.
  intros Hc Hready Hex.
  unfold main, try_catch. unfold bind at 1. unfold log at 1.
  unfold bind at 1. rewrite Hready.
  unfold bind at 1. unfold loadVaultPath. rewrite Hc.
  unfold bind at 1. unfold existsM at 1. rewrite Hex. reflexivity.
Qed.

Lemma run_without_env_is_skipped_witness :
  main hostProj 5 ["sync"] (mkState fsOnlyDist [])
  = Exit 0 (mkState fsOnlyDist [(Info, MsgMode "sync"); (Warn, MsgNoEnvFile)]).
Proof.
  apply (run_without_env_is_skipped hostProj 5 ["sync"]
           (mkState fsOnlyDist [])
           (mkState fsOnlyDist [(Info, MsgMode "sync")]));
    vm_compute; reflexivity.
Defined.

(** *** From the command line to the tree *)

Lemma option_after_mode (m w : string) :
  is_option m = false -> has_char "="%char w = false ->
  customVaultPath [m; ("--vault-path=" ++ w)%string] = Some w.
Proof.
  intros Hm Hw. unfold customVaultPath.
  change [m; ("--vault-path=" ++ w)%string]
    with ([m] ++ [("--vault-path=" ++ w)%string]).
  rewrite (find_option_first [m] [] _
             ltac:(intros x [<-|[]]; exact Hm) (option_text w)).
  rewrite split_option, (split_on_no_sep _ _ Hw). reflexivity.
Qed.

Lemma vault_from_option (h : host) (m : string) (v : Path) (s : state) :
  is_option m = false -> normalized v = true ->
  has_char "="%char (render v) = false ->
  loadVaultPath h [m; ("--vault-path=" ++ render v)%string] s = Ret v s.
Proof.
  intros Hm Hv He. unfold loadVaultPath.
  rewrite (option_after_mode m (render v) Hm He).
  unfold truthy. rewrite render_not_empty.
  unfold ret. now rewrite (resolve_render _ _ Hv).
Qed.

Section FromCommandLine.
Variable h : host.
Variable fuel : nat.
Variable v : Path.
Variable id c : string.
Variable fs : node.

Let target : Path := targetPluginDir v id.
Let dist : Path := distDir h.

Hypothesis Hv : normalized v = true.
Hypothesis Hroot : normalized (projectRoot h) = true.
Hypothesis Heq : has_char "="%char (render v) = false.
Hypothesis Hdist : existsSync fs dist = true.
Hypothesis Hmarker : existsSync fs (join dist [".hotreload"]) = true.
Hypothesis Hmanifest :
  readFileSync fs (join dist ["manifest.json"]) = Ok c \/
  (existsSync fs (join dist ["manifest.json"]) = false /\
   readFileSync fs (manifestPath h) = Ok c).
Hypothesis Hjson : jsonId h c = Some (Some id).
Hypothesis Hid : id <> "".

(** The run up to the choice of the mode. *)
Lemma run_until_mode (m : string) (k : Path -> string -> M unit) :
  is_option m = false -> (m =? "") = false ->
  let args := [m; ("--vault-path=" ++ render v)%string] in
  try_catch
    (log Info (MsgMode (deployMode args)) ;;
     ensureDistReady h ;;
     vaultPath <- loadVaultPath h args ;;
     pluginId <- getPluginId h ;;
     log Info (MsgVault vaultPath) ;;
     log Info (MsgPluginId pluginId) ;;
     k vaultPath pluginId)
    (fun e => log Failure (MsgDeployFailed e) ;; exit 1) (mkState fs [])
  = try_catch (k v id) (fun e => log Failure (MsgDeployFailed e) ;; exit 1)
      (mkState fs [(Info, MsgMode m); (Info, MsgVault v);
                   (Info, MsgPluginId id)]).
Proof.
  intros Hm Hne args. unfold args, try_catch.
  unfold bind at 1. unfold log at 1. cbn [files logged app].
  unfold bind at 1.
  match goal with
  | |- context [ensureDistReady h ?st] =>
      rewrite (ensureDistReady_ready h st Hdist Hmarker)
  end.
  unfold bind at 1. rewrite (vault_from_option h m v _ Hm Hv Heq).
  unfold bind at 1.
  match goal with
  | |- context [getPluginId h ?st] =>
      rewrite (getPluginId_reads h st c id Hmanifest Hjson Hid)
  end.
  unfold bind at 1. unfold log at 1. cbn [files logged app].
  unfold bind at 1. unfold log at 1. cbn [files logged app].
  unfold deployMode. rewrite Hne. reflexivity.
Qed.

(** X20.  A whole run in link mode, from the command line to the tree:
    with the build and its marker file in place, a manifest that gives the
    id, a vault path given by [--vault-path=] and nothing yet at the target,
    the process returns; it has made the directories of the vault that were
    missing and the link, and has logged the mode, the vault, the id and
    the link, in this order. *)
Theorem link_run_from_the_command_line :
  target <> dist ->
  dirs_along fs (dirname target) = true ->
  get fs target = None ->
  main h fuel ["link"; ("--vault-path=" ++ render v)%string] (mkState fs [])
  = Ret tt
      (mkState (put (mkdirs fs (dirname target)) target (Symlink (render dist)))
         [(Info, MsgMode "link"); (Info, MsgVault v); (Info, MsgPluginId id);
          (Success, MsgLinkCreated id)]).
Proof.
  intros Hneq Hdirs Hfree. unfold main.
  change (deployMode ["link"; ("--vault-path=" ++ render v)%string] =? "link")
    with true. cbv iota.
  rewrite (run_until_mode "link" (deployLink h) eq_refl eq_refl).
  unfold try_catch.
  match goal with
  | |- context [deployLink h v id ?st] =>
      rewrite (link_made h v id Hv Hroot Hneq st Hdirs Hfree)
  end.
  reflexivity.
Qed.

(** X21.  A whole run in copy mode, from the command line to the tree:
    under the same conditions, with [dist] a real directory apart from the
    target, the process returns; the target holds the copy of [dist] and
    the log ends with the number of direct entries of [dist]. *)
Theorem copy_run_from_the_command_line (es : list (string * node))
  (copy : node) :
  is_prefix dist target = false -> is_prefix target dist = false ->
  get fs dist = Some (Dir es) ->
  wf_tree (Dir es) = true -> depth (Dir es) < fuel ->
  dirs_along fs (dirname target) = true ->
  replaceable fs target = true ->
  materialize (del fs target) dist (Dir es) = Some copy ->
  main h fuel ["copy"; ("--vault-path=" ++ render v)%string] (mkState fs [])
  = Ret tt
      (mkState (put (mkdirs (del fs target) target) target copy)
         [(Info, MsgMode "copy"); (Info, MsgVault v); (Info, MsgPluginId id);
          (Success, MsgCopied (List.length es) id)]).
Proof.
  intros Hdt Htd Hd Hwf Hdepth Hdirs Hrep Hmat. unfold main.
  change (deployMode ["copy"; ("--vault-path=" ++ render v)%string] =? "link")
    with false.
  change (deployMode ["copy"; ("--vault-path=" ++ render v)%string] =? "copy")
    with true. cbv iota.
  rewrite (run_until_mode "copy" (deployCopy h fuel) eq_refl eq_refl).
  unfold try_catch.
  match goal with
  | |- context [deployCopy h fuel v id ?st] =>
      rewrite (deployCopy_spec h fuel v id st es copy Hv Hroot Hdt Htd Hd Hwf
                 Hdepth Hdirs Hrep Hmat)
  end.
  reflexivity.
Qed.

End FromCommandLine.

Lemma link_run_from_the_command_line_witness :
  main hostProj 5 ["link"; "--vault-path=/v"] (mkState fsReady [])
  = Ret tt
      (mkState (Dir [project [("dist", Dir [("main.js", File "code");
                                            (".hotreload", File "")])];
                     vault [("myplug", Symlink "/proj/dist")]])
         [(Info, MsgMode "link"); (Info, MsgVault ["v"]);
          (Info, MsgPluginId "myplug"); (Success, MsgLinkCreated "myplug")]).
Proof.
  refine (eq_trans
            (link_run_from_the_command_line hostProj 5 ["v"] "myplug" "myplug"
               fsReady eq_refl eq_refl eq_refl _ _ _ eq_refl _ _ _ _) _).
  - vm_compute. reflexivity.
  - vm_compute. reflexivity.
  - right. split; vm_compute; reflexivity.
  - discriminate.
  - discriminate.
  - vm_compute. reflexivity.
  - vm_compute. reflexivity.
  - vm_compute. reflexivity.
Defined.

Lemma copy_run_from_the_command_line_witness :
  main hostProj 5 ["copy"; "--vault-path=/v"] (mkState fsReady [])
  = Ret tt
      (mkState (Dir [project [("dist", Dir [("main.js", File "code");
                                            (".hotreload", File "")])];
                     vault [("myplug", Dir [(".hotreload", File "");
                                            ("main.js", File "code")])]])
         [(Info, MsgMode "copy"); (Info, MsgVault ["v"]);
          (Info, MsgPluginId "myplug"); (Success, MsgCopied 2 "myplug")]).
Proof.
  refine (eq_trans
            (copy_run_from_the_command_line hostProj 5 ["v"] "myplug" "myplug"
               fsReady eq_refl eq_refl eq_refl _ _ _ eq_refl _
               [("main.js", File "code"); (".hotreload", File "")]
               (Dir [(".hotreload", File ""); ("main.js", File "code")])
               _ _ _ _ _ _ _ _) _).
  - vm_compute. reflexivity.
  - vm_compute. reflexivity.
  - right. split; vm_compute; reflexivity.
  - discriminate.
  - vm_compute. reflexivity.
  - vm_compute. reflexivity.
  - vm_compute. reflexivity.
  - vm_compute. reflexivity.
  - vm_compute. lia.
  - vm_compute. reflexivity.
  - vm_compute. reflexivity.
  - vm_compute. reflexivity.
  - vm_compute. reflexivity.
Defined.



(** *** A run on a project that was never built *)

(** [ensureDistReady] where [dist] is missing and what exists above it
    are real directories. *)
Lemma ensureDistReady_makes (h : host) (s : state) :
  normalized (projectRoot h) = true ->
  dirs_along (files s) (distDir h) = true ->
  get (files s) (distDir h) = None ->
  ensureDistReady h s
  = Ret tt (mkState (put (mkdirs (files s) (distDir h))
                       (distDir h ++ [marker]) (File ""))
              (logged s)).
Proof.
  intros Hroot Hdirs Hfree. unfold marker.
  pose proof (dist_normalized h Hroot) as Hnd.
  assert (Hnm : normalized (distDir h ++ [".hotreload"]) = true)
    by now rewrite normalized_app, Hnd.
  unfold ensureDistReady. unfold bind at 1. unfold existsM at 1.
  rewrite (existsSync_absent _ _ Hnd Hdirs Hfree). cbn [negb].
  unfold bind at 1. unfold fsop at 1.
  rewrite (mkdirSync_recursive_plain _ _ Hnd Hdirs).
  rewrite (join_valid (distDir h) [".hotreload"] Hnd eq_refl).
  unfold bind at 1. unfold existsM at 1. cbn [files logged].
  pose proof (get_mkdirs_same _ _ Hdirs Hfree) as Hd.
  rewrite (existsSync_vacant _ _ _ _ Hnm Hd eq_refl). cbn [negb].
  unfold fsop. cbn [files logged].
  now rewrite (writeFileSync_vacant _ _ _ "" _ Hnm Hd eq_refl).
Qed.

Lemma is_prefix_app_l (a b p : Path) :
  is_prefix (a ++ b) p = true -> is_prefix a p = true.
Proof.
  revert p. induction a as [|x a IH]; intros p H; [reflexivity|].
  destruct p as [|y p]; [discriminate|]. simpl in *.
  apply andb_true_iff in H. destruct H as [Hx H].
  now rewrite Hx, (IH _ H).
Qed.

Lemma is_prefix_snoc (t d : Path) (k : string) :
  is_prefix t (d ++ [k]) = true -> is_prefix t d = true \/ t = d ++ [k].
Proof.
  revert d. induction t as [|x t IH]; intros d H; [now left|].
  destruct d as [|y d].
  - simpl in H. apply andb_true_iff in H. destruct H as [Hx H].
    apply String.eqb_eq in Hx. subst x.
    destruct t; [now right | discriminate].
  - simpl in H. apply andb_true_iff in H. destruct H as [Hx H].
    apply String.eqb_eq in Hx. subst x.
    destruct (IH _ H) as [K | ->].
    + left. simpl. now rewrite String.eqb_refl.
    + now right.
Qed.

Lemma is_prefix_dirname (p : Path) : is_prefix (dirname p) p = true.
Proof.
  destruct (snoc_cases p) as [-> | (q & k & ->)]; [reflexivity|].
  rewrite dirname_snoc. apply is_prefix_app.
Qed.

(** X25.  A run in copy mode on a project that was never built does not
    fail for want of a build: [ensureDistReady] makes [dist] and its marker
    file first, so that the test of [deployCopy] on [dist] passes.  What was
    at the target is removed; the target becomes a directory that holds the
    marker file alone, and the run returns after the message of success,
    with 1 for the number of entries. *)
Theorem copy_run_without_build (h : host) (fuel : nat) (v : Path)
  (id c : string) (fs : node) :
  let target := targetPluginDir v id in
  let dist := distDir h in
  let fs1 := put (mkdirs fs dist) (dist ++ [marker]) (File "") in
  normalized v = true -> normalized (projectRoot h) = true ->
  has_char "="%char (render v) = false ->
  dirs_along fs dist = true -> get fs dist = None ->
  readFileSync fs (manifestPath h) = Ok c ->
  jsonId h c = Some (Some id) -> id <> "" ->
  is_prefix dist target = false -> is_prefix target dist = false ->
  dirs_along fs (dirname target) = true ->
  replaceable fs target = true ->
  main h (S (S fuel)) ["copy"; ("--vault-path=" ++ render v)%string]
    (mkState fs [])
  = Ret tt
      (mkState (put (mkdirs (del fs1 target) target) target
                  (Dir [(marker, File "")]))
         [(Info, MsgMode "copy"); (Info, MsgVault v); (Info, MsgPluginId id);
          (Success, MsgCopied 1 id)]).
Proof.
  intros target dist fs1 Hv Hroot Heq Hdirs Hfree Hread Hjson Hid Hdt Htd
    Hdt' Hrep.
  pose proof (dist_normalized h Hroot) as Hnd. fold dist in Hnd.
  pose proof (target_normalized _ id Hv) as Hnt. fold target in Hnt.
  assert (Hnm : normalized (dist ++ [marker]) = true)
    by now rewrite normalized_app, Hnd.
  pose proof (get_mkdirs_same _ _ Hdirs Hfree) as Hd0.
  assert (Hd1 : get fs1 dist = Some (Dir [(marker, File "")])).
  { unfold fs1. now rewrite (get_put_above _ _ _ _ _ Hd0). }
  assert (Hext : extends fs fs1).
  { unfold fs1. apply extends_put with dist.
    - now apply extends_mkdirs.
    - exact Hfree.
    - apply is_prefix_app. }
  (* the marker is neither above nor below the target *)
  assert (Hmt : is_prefix (dist ++ [marker]) target = false).
  { destruct (is_prefix (dist ++ [marker]) target) eqn:E; [|reflexivity].
    apply is_prefix_app_l in E. fold dist in Hdt. congruence. }
  assert (Htm : is_prefix target (dist ++ [marker]) = false).
  { destruct (is_prefix target (dist ++ [marker])) eqn:E; [|reflexivity].
    destruct (is_prefix_snoc _ _ _ E) as [K | K].
    - fold dist in Htd. congruence.
    - rewrite K, is_prefix_app in Hdt. discriminate. }
  assert (Hsame : get fs1 target = get fs target).
  { unfold fs1. rewrite get_put_other by assumption.
    now apply get_mkdirs_other. }
  unfold main.
  change (deployMode ["copy"; ("--vault-path=" ++ render v)%string] =? "link")
    with false.
  change (deployMode ["copy"; ("--vault-path=" ++ render v)%string] =? "copy")
    with true. cbv iota.
  unfold try_catch.
  unfold bind at 1. unfold log at 1. cbn [files logged app].
  unfold bind at 1.
  match goal with
  | |- context [ensureDistReady h ?st] =>
      rewrite (ensureDistReady_makes h st Hroot Hdirs Hfree)
  end.
  cbn [files logged]. fold dist. fold fs1.
  unfold bind at 1.
  rewrite (vault_from_option h "copy" v _ eq_refl Hv Heq).
  unfold bind at 1.
  match goal with
  | |- context [getPluginId h ?st] =>
      rewrite (getPluginId_reads h st c id)
  end; auto.
  2:{ right. cbn [files]. split.
      - rewrite (join_valid (distDir h) ["manifest.json"] Hnd eq_refl).
        apply existsSync_vacant with [(marker, File "")]; auto.
        fold dist. now rewrite normalized_app, Hnd.
      - now apply readFileSync_extends with fs. }
  unfold bind at 1. unfold log at 1. cbn [files logged app].
  unfold bind at 1. unfold log at 1. cbn [files logged app].
  match goal with
  | |- context [deployCopy h (S (S fuel)) v id ?st] =>
      rewrite (deployCopy_spec h (S (S fuel)) v id st [(marker, File "")]
                 (Dir [(marker, File "")]) Hv Hroot Hdt Htd Hd1)
  end.
  - reflexivity.
  - reflexivity.
  - cbn. lia.
  - cbn [files]. unfold fs1. apply dirs_along_put.
    + now apply dirs_along_mkdirs.
    + destruct (is_prefix (dist ++ [marker]) (dirname (targetPluginDir v id)))
        eqn:E; [|reflexivity].
      pose proof (is_prefix_trans _ _ _ E (is_prefix_dirname _)) as K.
      fold target in K. congruence.
  - cbn [files]. unfold replaceable in *. fold target in Hrep |- *.
    rewrite Hsame.
    destruct (get fs target); [|reflexivity].
    now apply existsSync_extends with fs.
  - reflexivity.
Qed.

Lemma copy_run_without_build_witness :
  main hostProj 5 ["copy"; "--vault-path=/v"] (mkState fsNotBuilt [])
  = Ret tt
      (mkState (Dir [project [("dist", Dir [(".hotreload", File "")])];
                     vault [("myplug", Dir [(".hotreload", File "")])]])
         [(Info, MsgMode "copy"); (Info, MsgVault ["v"]);
          (Info, MsgPluginId "myplug"); (Success, MsgCopied 1 "myplug")]).
Proof.
  refine (eq_trans
            (copy_run_without_build hostProj 3 ["v"] "myplug" "myplug"
               fsNotBuilt eq_refl eq_refl eq_refl eq_refl eq_refl eq_refl
               eq_refl _ eq_refl eq_refl eq_refl _) _).
  - discriminate.
  - vm_compute. reflexivity.
  - vm_compute. reflexivity.
Defined.

(** *** [dist] is not a directory *)

Lemma namei_below_file (fs : node) (p : Path) (k c : string) :
  normalized p = true -> p <> [] -> get fs p = Some (File c) ->
  valid_name k = true ->
  namei fs true (p ++ [k]) = Err ENOTDIR.
Proof.
  intros Hn Hne Hg Hk.
  destruct (snoc_cases p) as [E | (q & x & E)]; [congruence|]. subst p.
  destruct (normalized_snoc _ _ Hn) as [Hnq Hx].
  destruct (get_dirname_dir _ _ _ Hne Hg) as [esq Hq].
  rewrite dirname_snoc in Hq.
  destruct (valid_name_step _ Hx) as [Hx1 Hx2].
  unfold namei, max_hops. cbn [namei_from].
  rewrite <- app_assoc.
  rewrite (descend_app fs true q [] _ esq Hnq Hq).
  change ([] ++ q) with q. change ([x] ++ [k]) with [x; k].
  cbn [descend]. rewrite Hq, Hx1, Hx2.
  rewrite (get_snoc_dir _ _ _ _ Hq) in Hg. rewrite Hg.
  rewrite (get_snoc_dir _ _ _ _ Hq), Hg. reflexivity.
Qed.

(** X26.  A regular file in the place of [dist] stops every run, whatever
    the arguments: [ensureDistReady] takes it for [dist], fails with
    [ENOTDIR] on writing the marker file below it, and the run ends with
    status 1 before the vault path, the manifest or the mode are looked at;
    the tree is as it was. *)
Theorem file_in_place_of_dist_stops_the_run (h : host) (fuel : nat)
  (args : list string) (fs : node) (c : string) :
  normalized (projectRoot h) = true ->
  get fs (distDir h) = Some (File c) ->
  main h fuel args (mkState fs [])
  = Exit 1 (mkState fs [(Info, MsgMode (deployMode args));
                        (Failure, MsgDeployFailed (FsError ENOTDIR))]).
Proof.
  intros Hroot Hd.
  pose proof (dist_normalized h Hroot) as Hnd.
  assert (Hne : distDir h <> []).
  { unfold distDir in *. rewrite (join_valid _ ["dist"] Hroot eq_refl).
    intros E. now apply app_eq_nil in E. }
  pose proof (namei_below_file fs (distDir h) ".hotreload" c Hnd Hne Hd
                eq_refl) as Hw.
  unfold main, try_catch. unfold bind at 1. unfold log at 1.
  cbn [files logged app]. unfold bind at 1.
  unfold ensureDistReady. unfold bind at 1. unfold existsM at 1.
  cbn [files logged].
  rewrite (existsSync_get _ _ _ Hnd Hd eq_refl). cbn [negb].
  unfold bind at 1. unfold ret at 1.
  rewrite (join_valid (distDir h) [".hotreload"] Hnd eq_refl).
  unfold bind at 1. unfold existsM at 1. cbn [files logged].
  unfold existsSync, statSync. rewrite Hw. cbn [negb].
  unfold fsop, writeFileSync. cbn [files logged]. rewrite Hw.
  reflexivity.
Qed.

Lemma file_in_place_of_dist_stops_the_run_witness :
  main hostProj 5 ["copy"; "--vault-path=/v"] (mkState fsDistFile [])
  = Exit 1 (mkState fsDistFile
              [(Info, MsgMode "copy");
               (Failure, MsgDeployFailed (FsError ENOTDIR))]).
Proof.
  apply (file_in_place_of_dist_stops_the_run hostProj 5
           ["copy"; "--vault-path=/v"] fsDistFile "not a directory"
           eq_refl eq_refl).
Defined.

End Runs.

(* ===================================================================== *)
(** ** A run whose target is [dist] *)
(* ===================================================================== *)

Module SelfTarget.
Import PathLib Fs Deploy PathFacts Shape Scenarios Guards Dispatch.

Lemma loadVaultPath_keeps (h : host) (args : list string) (s s' : state)
  (v : Path) :
  loadVaultPath h args s = Ret v s' -> files s' = files s.
Proof.
  intros H.
  destruct (loadVaultPath_cases h args s)
    as [[v' [l E]] | [[l E] | [l [E _]]]]; rewrite E in H;
    try discriminate.
  now inversion H.
Qed.

Lemma getPluginId_keeps (h : host) (s s' : state) (id : string) :
  getPluginId h s = Ret id s' -> files s' = files s.
Proof.
  intros H.
  destruct (getPluginId_cases h s) as [[id' [l E]] | [l E]];
    rewrite E in H; try discriminate.
  now inversion H.
Qed.

(** C6, as amended: a run in link mode or in copy mode that comes to the
    deployment, that is, [ensureDistReady] returns, a vault path is found
    and a plugin id is found, and whose target path resolves to the path of
    [dist].  The run ends with status 0 and deploys nothing: the lines of
    the vault, of the id and of the skipped deployment are logged, and the
    file tree is the one [ensureDistReady] left.  That tree is the tree
    of the start when [dist] and its marker file were there already. *)
Theorem self_target_run (h : host) (fuel : nat) (args : list string)
  (fs : node) (vaultPath : Path) (pluginId : string) (s1 s2 s3 : state) :
  deployMode args = "link" \/ deployMode args = "copy" ->
  ensureDistReady h (mkState fs [(Info, MsgMode (deployMode args))])
  = Ret tt s1 ->
  loadVaultPath h args s1 = Ret vaultPath s2 ->
  getPluginId h s2 = Ret pluginId s3 ->
  resolve (targetPluginDir vaultPath pluginId) [] = resolve (distDir h) [] ->
  exists s',
    main h fuel args (mkState fs []) = Exit 0 s' /\
    files s' = files s1 /\
    logged s'
    = logged s3 ++ [(Info, MsgVault vaultPath); (Info, MsgPluginId pluginId);
                    (Info, if deployMode args =? "link"
                           then MsgSameAsDistLink else MsgSameAsDistCopy)] /\
    (existsSync fs (distDir h) = true ->
     existsSync fs (join (distDir h) [".hotreload"]) = true ->
     files s' = fs).
Proof.
  intros Hmode E1 E2 E3 Hres.
  pose proof (loadVaultPath_keeps _ _ _ _ _ E2) as K2.
  pose proof (getPluginId_keeps _ _ _ _ E3) as K3.
  assert (Hready : existsSync fs (distDir h) = true ->
                   existsSync fs (join (distDir h) [".hotreload"]) = true ->
                   files s1 = fs).
  { intros H1 H2.
    rewrite (ensureDistReady_ready h
               (mkState fs [(Info, MsgMode (deployMode args))]) H1 H2) in E1.
    now inversion E1. }
  unfold main, try_catch.
  unfold bind at 1. unfold log at 1. cbn [files logged app].
  unfold bind at 1. rewrite E1.
  unfold bind at 1. rewrite E2.
  unfold bind at 1. rewrite E3.
  unfold bind at 1. unfold log at 1.
  unfold bind at 1. unfold log at 1. cbn [files logged].
  destruct (self_target_guard h fuel vaultPath pluginId
              (mkState (files s3)
                 ((logged s3 ++ [(Info, MsgVault vaultPath)])
                  ++ [(Info, MsgPluginId pluginId)])) Hres) as [Gl Gc].
  destruct Hmode as [Hm | Hm]; rewrite Hm.
  - change ("link" =? "link") with true. cbv iota. rewrite Gl.
    eexists. split; [reflexivity|]. cbn [files logged].
    split; [congruence|]. split; [now rewrite <- !app_assoc|].
    intros H1 H2. rewrite K3, K2. now apply Hready.
  - change ("copy" =? "link") with false.
    change ("copy" =? "copy") with true. cbv iota. rewrite Gc.
    eexists. split; [reflexivity|]. cbn [files logged].
    split; [congruence|]. split; [now rewrite <- !app_assoc|].
    intros H1 H2. rewrite K3, K2. now apply Hready.
Qed.

Lemma self_target_run_witness :
  exists s',
    main hostSelf 5 ["copy"] (mkState fsSelf []) = Exit 0 s' /\
    files s'
    = Dir [("v", Dir [(".obsidian", Dir [("plugins",
        Dir [("manifest.json", File "dist"); (".env", File "VAULT_PATH=/v");
             ("dist", Dir [(".hotreload", File "")])])])])].
Proof.
  destruct (self_target_run hostSelf 5 ["copy"] fsSelf ["v"] "dist"
              (mkState
                 (Dir [("v", Dir [(".obsidian", Dir [("plugins",
                    Dir [("manifest.json", File "dist");
                         (".env", File "VAULT_PATH=/v");
                         ("dist", Dir [(".hotreload", File "")])])])])])
                 [(Info, MsgMode "copy")])
              (mkState
                 (Dir [("v", Dir [(".obsidian", Dir [("plugins",
                    Dir [("manifest.json", File "dist");
                         (".env", File "VAULT_PATH=/v");
                         ("dist", Dir [(".hotreload", File "")])])])])])
                 [(Info, MsgMode "copy")])
              (mkState
                 (Dir [("v", Dir [(".obsidian", Dir [("plugins",
                    Dir [("manifest.json", File "dist");
                         (".env", File "VAULT_PATH=/v");
                         ("dist", Dir [(".hotreload", File "")])])])])])
                 [(Info, MsgMode "copy")]))
    as (s' & Hrun & Hfiles & _).
  - right. reflexivity.
  - vm_compute. reflexivity.
  - vm_compute. reflexivity.
  - vm_compute. reflexivity.
  - vm_compute. reflexivity.
  - exists s'. split; [exact Hrun | exact Hfiles].
Defined.

(** C6 as stated fails: the project was never built and its [dist] is the
    target.  In both modes the run ends with status 0 at the guard, but by
    then it has made [dist] and the marker file in it. *)
Lemma self_target_run_makes_dist :
  resolve (targetPluginDir ["v"] "dist") [] = resolve (distDir hostSelf) [] /\
  get fsSelf (distDir hostSelf) = None /\
  (exists fs',
     run hostSelf 5 ["copy"] fsSelf = Some (0%Z, fs') /\
     get fs' (distDir hostSelf) = Some (Dir [(".hotreload", File "")]) /\
     fs' <> fsSelf) /\
  (exists fs',
     run hostSelf 5 ["link"] fsSelf = Some (0%Z, fs') /\
     get fs' (distDir hostSelf) = Some (Dir [(".hotreload", File "")]) /\
     fs' <> fsSelf).
Proof.
  split; [reflexivity|]. split; [reflexivity|].
  split; eexists; (split; [vm_compute; reflexivity|]);
    (split; [reflexivity | discriminate]).
Qed.

End SelfTarget.
